(** * EduGlobe: the enrollment lifecycle

    A shallow embedding of [models/Enrollment.js] (schema defaults, virtuals,
    the pre-save hook and the instance methods) and of the request handlers
    of [routes/enrollments.js], followed by the properties of the
    progress / certificate / refund / review state machine.

    Conventions of the embedding.
    - A collection is a finite map from [_id] to the document's other
      fields, so [this._id] is the key under which the document is stored.
    - An [ObjectId] is kept as the string its [toString()] prints: 24
      hexadecimal digits, lower case. A string of a request becomes an
      [ObjectId] only through mongoose's cast, [castObjectId], which takes
      both cases of the digits and refuses any other string with a
      [CastError]. The id of the caller is set by the [auth] middleware and
      is taken to be the printed id of the caller's user document.
    - A [Date] is its millisecond value; every [new Date()] / [Date.now()]
      reads the next value of the clock carried by the world.
    - JS numbers that hold counts and percentages are integers ([Z]);
      money amounts are the exact rationals ([Qc]) of their values. They are
      stored and copied only; the one sum over them, in [getStats], is left
      to the store's accumulator, which is a parameter.
    - A method runs on a frame holding [this] and the world; a thrown
      [Error] keeps whatever was mutated before the throw.
    - Enum-typed fields are inductive types; where a route assigns a request
      string to one, the cast stands for the schema's enum validator. The
      other schema validators run on values the routes have validated
      already and are left to the store, as are the [createdAt] /
      [updatedAt] stamps and the [auth] / [authorize] middleware that runs
      before a handler. A populated reference is shown by its id.
    - The Course model is not among the sources. Its [save()] and the
      [populate] call that follow the write of a new enrollment may be
      rejected by the store; whether they are is a parameter of the enroll
      route, as is the course's [addReview] for the review route. *)

From Stdlib Require Import Ascii QArith Qcanon.
From stdpp Require Import gmap strings list fin_maps pretty sorting.

Open Scope Z_scope.

Abbreviation ObjectId := string.
Abbreviation Date := Z.

(** ** ObjectIds and request strings *)

Definition isHexDigit (c : ascii) : bool :=
  let n := N_of_ascii c in
  ((48 <=? n) && (n <=? 57) || (97 <=? n) && (n <=? 102)
   || (65 <=? n) && (n <=? 70))%N.

(** The digit as [toString()] prints it: A-F in lower case. *)
Definition lowerHexDigit (c : ascii) : ascii :=
  let n := N_of_ascii c in
  if ((65 <=? n) && (n <=? 70))%N then ascii_of_N (n + 32) else c.

Fixpoint lowerHex (s : string) : string :=
  match s with
  | EmptyString => EmptyString
  | String c s' => String (lowerHexDigit c) (lowerHex s')
  end.

(** The pattern of an id in a string, [/^[0-9a-fA-F]{24}$/]. *)
Definition isHex24 (s : string) : bool :=
  forallb isHexDigit (String.list_ascii_of_string s) && (String.length s =? 24)%nat.

(** mongoose's cast of a string to [ObjectId], as every query filter,
    [findById] and every assignment to an ObjectId path applies it: a
    string of 24 hexadecimal digits is the id that prints as those digits
    in lower case, and any other string is refused ([None], a
    [CastError]). *)
Definition castObjectId (s : string) : option ObjectId :=
  if isHex24 s then Some (lowerHex s) else None.

Definition quoted (s : string) : string :=
  String (ascii_of_nat 34) s +:+ String (ascii_of_nat 34) EmptyString.

(** The message of the [CastError] for a string [value] at [path]. Its
    wording is mongoose's and differs between versions; it reaches a
    response only through [error.message] and is never empty. *)
Definition castError (value path : string) : string :=
  "Cast to ObjectId failed for value " +:+ quoted value +:+ " (type string) at path "
  +:+ quoted path +:+ " for model " +:+ quoted "Enrollment".

(** ** Schema *)

(** [status: enum ['active', 'completed', 'cancelled', 'expired']] *)
Inductive Status := active | completed | cancelled | expired.

Global Instance Status_eq_dec : EqDecision Status.
Proof. solve_decision. Defined.

Module RefundStatus.
(** [refundStatus: enum ['none', 'pending', 'approved', 'rejected']] *)
Inductive t := none | pending | approved | rejected.

Definition ofString (s : string) : option t :=
  if String.eqb s "none" then Some none
  else if String.eqb s "pending" then Some pending
  else if String.eqb s "approved" then Some approved
  else if String.eqb s "rejected" then Some rejected
  else None.
End RefundStatus.

Global Instance RefundStatus_eq_dec : EqDecision RefundStatus.t.
Proof. solve_decision. Defined.

Module CompletedLecture.
Record t := mk {
  lecture : ObjectId;
  completedAt : Date;
  timeSpent : Z (* in seconds *)
}.
End CompletedLecture.

Module Certificate.
Record t := mk {
  issued : bool;
  issuedAt : option Date;
  certificateId : option string;
  downloadUrl : option string
}.
End Certificate.

Module Payment.
(** [method: enum ['credit_card', 'paypal', 'stripe', 'bank_transfer', 'crypto']] *)
Inductive Method := credit_card | paypal | stripe | bank_transfer | crypto.

Definition methodOfString (s : string) : option Method :=
  if String.eqb s "credit_card" then Some credit_card
  else if String.eqb s "paypal" then Some paypal
  else if String.eqb s "stripe" then Some stripe
  else if String.eqb s "bank_transfer" then Some bank_transfer
  else if String.eqb s "crypto" then Some crypto
  else None.

(** [status: enum ['pending', 'completed', 'failed', 'refunded']] *)
Inductive PStatus := pending | completed | failed | refunded.

Record t := mk {
  amount : Qc;
  currency : string;
  method : Method;
  transactionId : string;
  status : PStatus;
  paidAt : Date
}.
End Payment.

Module Rating.
Record t := mk {
  given : bool;
  rating : option Z;
  review : option string;
  reviewedAt : option Date
}.
End Rating.

Record Enrollment := mkEnrollment {
  student : ObjectId;
  course : ObjectId;
  instructor : ObjectId;
  enrollmentDate : Date;
  completionDate : option Date;
  status : Status;
  progress : Z;
  completedLectures : list CompletedLecture.t;
  lastAccessed : Date;
  totalTimeSpent : Z;
  certificate : Certificate.t;
  payment : Payment.t;
  notes : option string;
  rating : Rating.t;
  accessExpiry : option Date;
  isLifetime : bool;
  refundRequested : bool;
  refundReason : option string;
  refundStatus : RefundStatus.t;
  refundProcessedAt : option Date;
  refundAmount : option Qc
}.

(** Field assignments [this.f = v]. *)
Definition set_completionDate (v : option Date) (e : Enrollment) : Enrollment :=
  mkEnrollment (student e) (course e) (instructor e) (enrollmentDate e) v (status e)
    (progress e) (completedLectures e) (lastAccessed e) (totalTimeSpent e)
    (certificate e) (payment e) (notes e) (rating e) (accessExpiry e) (isLifetime e)
    (refundRequested e) (refundReason e) (refundStatus e) (refundProcessedAt e)
    (refundAmount e).
Definition set_status (v : Status) (e : Enrollment) : Enrollment :=
  mkEnrollment (student e) (course e) (instructor e) (enrollmentDate e)
    (completionDate e) v (progress e) (completedLectures e) (lastAccessed e)
    (totalTimeSpent e) (certificate e) (payment e) (notes e) (rating e) (accessExpiry e)
    (isLifetime e) (refundRequested e) (refundReason e) (refundStatus e)
    (refundProcessedAt e) (refundAmount e).
Definition set_progress (v : Z) (e : Enrollment) : Enrollment :=
  mkEnrollment (student e) (course e) (instructor e) (enrollmentDate e)
    (completionDate e) (status e) v (completedLectures e) (lastAccessed e)
    (totalTimeSpent e) (certificate e) (payment e) (notes e) (rating e) (accessExpiry e)
    (isLifetime e) (refundRequested e) (refundReason e) (refundStatus e)
    (refundProcessedAt e) (refundAmount e).
Definition set_completedLectures (v : list CompletedLecture.t) (e : Enrollment) : Enrollment :=
  mkEnrollment (student e) (course e) (instructor e) (enrollmentDate e)
    (completionDate e) (status e) (progress e) v (lastAccessed e) (totalTimeSpent e)
    (certificate e) (payment e) (notes e) (rating e) (accessExpiry e) (isLifetime e)
    (refundRequested e) (refundReason e) (refundStatus e) (refundProcessedAt e)
    (refundAmount e).
Definition set_lastAccessed (v : Date) (e : Enrollment) : Enrollment :=
  mkEnrollment (student e) (course e) (instructor e) (enrollmentDate e)
    (completionDate e) (status e) (progress e) (completedLectures e) v
    (totalTimeSpent e) (certificate e) (payment e) (notes e) (rating e) (accessExpiry e)
    (isLifetime e) (refundRequested e) (refundReason e) (refundStatus e)
    (refundProcessedAt e) (refundAmount e).
Definition set_certificate (v : Certificate.t) (e : Enrollment) : Enrollment :=
  mkEnrollment (student e) (course e) (instructor e) (enrollmentDate e)
    (completionDate e) (status e) (progress e) (completedLectures e) (lastAccessed e)
    (totalTimeSpent e) v (payment e) (notes e) (rating e) (accessExpiry e)
    (isLifetime e) (refundRequested e) (refundReason e) (refundStatus e)
    (refundProcessedAt e) (refundAmount e).
Definition set_rating (v : Rating.t) (e : Enrollment) : Enrollment :=
  mkEnrollment (student e) (course e) (instructor e) (enrollmentDate e)
    (completionDate e) (status e) (progress e) (completedLectures e) (lastAccessed e)
    (totalTimeSpent e) (certificate e) (payment e) (notes e) v (accessExpiry e)
    (isLifetime e) (refundRequested e) (refundReason e) (refundStatus e)
    (refundProcessedAt e) (refundAmount e).
Definition set_refundRequested (v : bool) (e : Enrollment) : Enrollment :=
  mkEnrollment (student e) (course e) (instructor e) (enrollmentDate e)
    (completionDate e) (status e) (progress e) (completedLectures e) (lastAccessed e)
    (totalTimeSpent e) (certificate e) (payment e) (notes e) (rating e) (accessExpiry e)
    (isLifetime e) v (refundReason e) (refundStatus e) (refundProcessedAt e)
    (refundAmount e).
Definition set_refundReason (v : option string) (e : Enrollment) : Enrollment :=
  mkEnrollment (student e) (course e) (instructor e) (enrollmentDate e)
    (completionDate e) (status e) (progress e) (completedLectures e) (lastAccessed e)
    (totalTimeSpent e) (certificate e) (payment e) (notes e) (rating e) (accessExpiry e)
    (isLifetime e) (refundRequested e) v (refundStatus e) (refundProcessedAt e)
    (refundAmount e).
Definition set_refundStatus (v : RefundStatus.t) (e : Enrollment) : Enrollment :=
  mkEnrollment (student e) (course e) (instructor e) (enrollmentDate e)
    (completionDate e) (status e) (progress e) (completedLectures e) (lastAccessed e)
    (totalTimeSpent e) (certificate e) (payment e) (notes e) (rating e) (accessExpiry e)
    (isLifetime e) (refundRequested e) (refundReason e) v (refundProcessedAt e)
    (refundAmount e).
Definition set_refundProcessedAt (v : option Date) (e : Enrollment) : Enrollment :=
  mkEnrollment (student e) (course e) (instructor e) (enrollmentDate e)
    (completionDate e) (status e) (progress e) (completedLectures e) (lastAccessed e)
    (totalTimeSpent e) (certificate e) (payment e) (notes e) (rating e) (accessExpiry e)
    (isLifetime e) (refundRequested e) (refundReason e) (refundStatus e) v
    (refundAmount e).
Definition set_refundAmount (v : option Qc) (e : Enrollment) : Enrollment :=
  mkEnrollment (student e) (course e) (instructor e) (enrollmentDate e)
    (completionDate e) (status e) (progress e) (completedLectures e) (lastAccessed e)
    (totalTimeSpent e) (certificate e) (payment e) (notes e) (rating e) (accessExpiry e)
    (isLifetime e) (refundRequested e) (refundReason e) (refundStatus e)
    (refundProcessedAt e) v.

(** Modelled from the spec: the Course model ([models/Course.js]) is not
    among the sources; these are the fields the enrollment handler reads
    and writes on a course document. *)
Module Course.
Record t := mk {
  status : string;
  instructor : ObjectId;
  price : Qc;
  currency : string;
  enrollmentCount : Z
}.

Definition set_enrollmentCount (v : Z) (c : t) : t :=
  mk (status c) (instructor c) (price c) (currency c) v.
End Course.

(** ** The world: two collections, the clock and the id generator *)

Record World := mkWorld {
  enrollments : gmap string Enrollment;
  courses : gmap string Course.t;
  clock : nat → Date;       (* the n-th reading of the system clock *)
  ticks : nat;              (* readings taken so far *)
  oidgen : nat → ObjectId;  (* the n-th generated ObjectId *)
  oids : nat                (* ids generated so far *)
}.

Definition set_enrollments (m : gmap string Enrollment) (w : World) : World :=
  mkWorld m (courses w) (clock w) (ticks w) (oidgen w) (oids w).
Definition set_courses (m : gmap string Course.t) (w : World) : World :=
  mkWorld (enrollments w) m (clock w) (ticks w) (oidgen w) (oids w).
Definition tick (w : World) : World :=
  mkWorld (enrollments w) (courses w) (clock w) (S (ticks w)) (oidgen w) (oids w).
Definition next_oid (w : World) : World :=
  mkWorld (enrollments w) (courses w) (clock w) (ticks w) (oidgen w) (S (oids w)).

(** The frame of a method call on an enrollment document. *)
Record Frame := mkFrame {
  _id : ObjectId;
  this : Enrollment;
  isNew : bool;
  world : World
}.

Definition set_this (e : Enrollment) (f : Frame) : Frame :=
  mkFrame (_id f) e (isNew f) (world f).
Definition set_world (w : World) (f : Frame) : Frame :=
  mkFrame (_id f) (this f) (isNew f) w.
Definition set_isNew (b : bool) (f : Frame) : Frame :=
  mkFrame (_id f) (this f) b (world f).

(** ** State and exceptions *)

Inductive Outcome (A : Type) :=
| Returned (a : A)
| Thrown (msg : string).
Arguments Returned {A} a.
Arguments Thrown {A} msg.

Definition M (S A : Type) : Type := S → Outcome A * S.

Definition ret {S A} (a : A) : M S A := λ s, (Returned a, s).
Definition bind {S A B} (m : M S A) (k : A → M S B) : M S B :=
  λ s, match m s with
       | (Returned a, s') => k a s'
       | (Thrown msg, s') => (Thrown msg, s')
       end.
Definition throw {S A} (msg : string) : M S A := λ s, (Thrown msg, s).
Definition get {S} : M S S := λ s, (Returned s, s).
Definition modify {S} (f : S → S) : M S unit := λ s, (Returned tt, f s).

Declare Scope js_scope.
Delimit Scope js_scope with js.
Notation "x <- m ;; k" := (bind m (λ x, k))
  (at level 100, m at next level, right associativity, only parsing) : js_scope.
Notation "m ;; k" := (bind m (λ _, k))
  (at level 100, right associativity, only parsing) : js_scope.
Open Scope js_scope.

(** [new Date()] and [Date.now()]. *)
Definition newDate_world : M World Date :=
  λ w, (Returned (clock w (ticks w)), tick w).

(** Run a world computation from inside a method. *)
Definition inWorld {A} (m : M World A) : M Frame A :=
  λ f, let '(r, w) := m (world f) in (r, set_world w f).

Definition newDate : M Frame Date := inWorld newDate_world.

Definition getThis : M Frame Enrollment := λ f, (Returned (this f), f).
Definition assign (upd : Enrollment → Enrollment) : M Frame unit :=
  modify (λ f, set_this (upd (this f)) f).

(** ** Persistence *)

(** [enrollmentSchema.pre('save', ...)]: update the completion status. *)
Definition preSave : M Frame unit :=
  e <- getThis ;;
  if (progress e =? 100) && bool_decide (status e ≠ completed) then
    assign (set_status completed) ;;
    now <- newDate ;;
    assign (set_completionDate (Some now))
  else ret tt.

(** [enrollmentSchema.index({ student: 1, course: 1 }, { unique: true })] *)
Definition samePair (s c : ObjectId) (e : Enrollment) : Prop :=
  student e = s ∧ course e = c.

Global Instance samePair_dec s c e : Decision (samePair s c e).
Proof. unfold samePair. apply _. Defined.

Definition pairTaken (s c : ObjectId) (m : gmap string Enrollment) : bool :=
  bool_decide (map_Exists (λ _ e, samePair s c e) m).

(** Writing the document: an insert for a new document (refused on a
    duplicate [_id] or a duplicate (student, course) pair), a replacement
    of the stored document otherwise. *)
Definition persist : M Frame unit := λ f,
  let m := enrollments (world f) in
  let stored := set_enrollments (<[_id f := this f]> m) (world f) in
  if isNew f then
    if bool_decide (is_Some (m !! _id f))
       || pairTaken (student (this f)) (course (this f)) m
    then (Thrown "E11000 duplicate key error", f)
    else (Returned tt, set_isNew false (set_world stored f))
  else (Returned tt, set_world stored f).

(** [doc.save()]: the pre-save hook, then the write. *)
Definition save : M Frame unit := preSave ;; persist.

(** ** Virtuals *)

(** [Math.ceil(a / b)] for a positive [b]. *)
Definition ceilDiv (a b : Z) : Z := - ((- a) / b).

Definition enrollmentDuration (now : Date) (e : Enrollment) : Z :=
  let endDate := default now (completionDate e) in
  ceilDiv (endDate - enrollmentDate e) (1000 * 60 * 60 * 24).

Definition isCompleted (e : Enrollment) : bool :=
  bool_decide (status e = completed) || (progress e =? 100).

(** The value of the [isExpired] getter: [None] is JS [undefined], which
    [accessExpiry && ...] yields when no expiry is set. *)
Definition isExpired (now : Date) (e : Enrollment) : option bool :=
  if isLifetime e then Some false
  else match accessExpiry e with
       | None => None
       | Some expiry => Some (expiry <? now)
       end.

(** JS truthiness of such a value. *)
Definition truthy (v : option bool) : bool := default false v.

(** ** Instance methods *)

(** [ObjectId.prototype.toString]: the id is kept in its printed form. *)
Definition toString (o : ObjectId) : string := o.

(** [Array.prototype.findIndex]: the first index satisfying [p], or -1. *)
Fixpoint findIndexFrom {A} (p : A → bool) (l : list A) (i : Z) : Z :=
  match l with
  | [] => -1
  | x :: l' => if p x then i else findIndexFrom p l' (i + 1)
  end.
Definition findIndex {A} (p : A → bool) (l : list A) : Z := findIndexFrom p l 0.

(** [updateProgress]: ten percent per completed lecture, capped at 100. *)
Definition updateProgress : M Frame unit :=
  e <- getThis ;;
  if 0 <? Z.of_nat (length (completedLectures e)) then
    assign (set_progress (Z.min 100 (Z.of_nat (length (completedLectures e)) * 10)))
  else ret tt.

Definition completeLecture_error : string :=
  "Enrollment validation failed: completedLectures: Cast to ObjectId failed".

(** [completeLecture(lectureId, timeSpent = 0)]. The argument is the
    string of the request; its own [toString()] is itself, and the stored
    lectures print in lower case. The pushed entry holds the string cast to
    an ObjectId. For a string that does not cast, mongoose keeps the cast
    error with the document and [save()] rejects with it, so that nothing
    is written; the model raises it where the entry is built and does not
    follow the document in memory, which no caller uses after the error. *)
Definition completeLecture (lectureId : string) (timeSpent : option Z)
  : M Frame unit :=
  let timeSpent := default 0 timeSpent in
  e <- getThis ;;
  let existingIndex :=
    findIndex (λ cl, String.eqb (toString (CompletedLecture.lecture cl)) lectureId)
              (completedLectures e) in
  (if existingIndex =? -1 then
     match castObjectId lectureId with
     | None => throw completeLecture_error
     | Some lecture =>
       completedAt <- newDate ;;   (* the schema default [Date.now] *)
       assign (λ e, set_completedLectures
                      (completedLectures e
                       ++ [CompletedLecture.mk lecture completedAt timeSpent]) e)
     end
   else ret tt) ;;
  updateProgress ;;
  now <- newDate ;;
  assign (set_lastAccessed now) ;;
  save.

Definition assignCertificate (upd : Certificate.t → Certificate.t) : M Frame unit :=
  assign (λ e, set_certificate (upd (certificate e)) e).

(** A template hole [${v}] for a possibly unset string. *)
Definition hole (v : option string) : string := default "undefined" v.

(** The template [`CERT-${this._id}-${Date.now()}`]. *)
Definition certificateIdFor (id : ObjectId) (now : Date) : string :=
  "CERT-" +:+ toString id +:+ "-" +:+ pretty now.

Definition issueCertificate_error : string :=
  "Cannot issue certificate: course not completed or already issued".

(** [issueCertificate()] *)
Definition issueCertificate : M Frame unit :=
  e <- getThis ;;
  if (progress e =? 100) && negb (Certificate.issued (certificate e)) then
    assignCertificate (λ c, Certificate.mk true (Certificate.issuedAt c)
                              (Certificate.certificateId c) (Certificate.downloadUrl c)) ;;
    at_ <- newDate ;;
    assignCertificate (λ c, Certificate.mk (Certificate.issued c) (Some at_)
                              (Certificate.certificateId c) (Certificate.downloadUrl c)) ;;
    f <- get ;;
    now <- newDate ;;
    assignCertificate (λ c, Certificate.mk (Certificate.issued c) (Certificate.issuedAt c)
                              (Some (certificateIdFor (_id f) now))
                              (Certificate.downloadUrl c)) ;;
    e <- getThis ;;
    assignCertificate (λ c, Certificate.mk (Certificate.issued c) (Certificate.issuedAt c)
                              (Certificate.certificateId c)
                              (Some ("/certificates/"
                                     +:+ hole (Certificate.certificateId (certificate e))))) ;;
    save
  else throw issueCertificate_error.

Definition requestRefund_error : string := "Refund already requested".

(** [requestRefund(reason)] *)
Definition requestRefund (reason : string) : M Frame unit :=
  e <- getThis ;;
  if refundRequested e then throw requestRefund_error
  else
    assign (set_refundRequested true) ;;
    assign (set_refundReason (Some reason)) ;;
    assign (set_refundStatus RefundStatus.pending) ;;
    save.

(** ** The HTTP boundary *)

Record Request (B : Type) := mkRequest {
  userId : ObjectId; (* [req.user.userId], set by the [auth] middleware *)
  paramsId : string; (* [req.params.id] *)
  body : B
}.
Arguments mkRequest {B}.
Arguments userId {B}.
Arguments paramsId {B}.
Arguments body {B}.

Record Response := mkResponse {
  code : nat;
  success : bool;
  message : string;
  errors : list string;
  data : option Enrollment
}.

Definition fail (c : nat) (msg : string) : Response := mkResponse c false msg [] None.
Definition ok (c : nat) (msg : string) (e : Enrollment) : Response :=
  mkResponse c true msg [] (Some e).
Definition validationFailed (errs : list string) : Response :=
  mkResponse 400 false "Validation failed" errs None.

(** Validators of the request chains. A body is the request body after
    the chain's sanitizers ([trim]) have run. *)
Definition check (holds : bool) (msg : string) : list string :=
  if holds then [] else [msg].

Definition isMongoId (s : string) : bool :=
  forallb isHexDigit (String.list_ascii_of_string s) && (String.length s =? 24)%nat.

Definition isIn (s : string) (l : list string) : bool := bool_decide (s ∈ l).

Definition notEmpty (s : string) : bool := negb (String.length s =? 0)%nat.

Definition optional {A} (p : A → bool) (v : option A) : bool :=
  match v with None => true | Some a => p a end.

Definition isEmpty (errs : list string) : bool :=
  match errs with [] => true | _ => false end.

Module EnrollBody.
Record t := mk { courseId : string; paymentMethod : string; transactionId : string }.

Definition validationResult (b : t) : list string :=
  check (isMongoId (courseId b)) "Valid course ID is required"
  ++ check (isIn (paymentMethod b)
              ["credit_card"; "paypal"; "stripe"; "bank_transfer"; "crypto"])
           "Valid payment method is required"
  ++ check (notEmpty (transactionId b)) "Transaction ID is required".
End EnrollBody.

Module ProgressBody.
Record t := mk { lectureId : string; timeSpent : option Z }.

Definition validationResult (b : t) : list string :=
  check (isMongoId (lectureId b)) "Valid lecture ID is required"
  ++ check (optional (λ n, 0 <=? n) (timeSpent b))
           "Time spent must be a positive integer".
End ProgressBody.

Module ReviewBody.
Record t := mk { rating : Z; review : option string }.

Definition validationResult (b : t) : list string :=
  check ((1 <=? rating b) && (rating b <=? 5)) "Rating must be between 1 and 5"
  ++ check (optional (λ s, (String.length s <=? 1000)%nat) (review b))
           "Review cannot exceed 1000 characters".
End ReviewBody.

Module RefundBody.
Record t := mk { reason : string }.

Definition validationResult (b : t) : list string :=
  check ((10 <=? String.length (reason b))%nat
         && (String.length (reason b) <=? 500)%nat)
        "Refund reason must be between 10 and 500 characters".
End RefundBody.

Module RefundStatusBody.
Record t := mk { refundStatus : string; refundAmount : option Qc }.

Definition validationResult (b : t) : list string :=
  check (isIn (refundStatus b) ["pending"; "approved"; "rejected"])
        "Invalid refund status"
  ++ check (optional (λ a, bool_decide (0 ≤ a)%Qc) (refundAmount b))
           "Refund amount must be a positive number".
End RefundStatusBody.

(** [try { ... } catch (error) { res.status(500)... }] *)
Definition tryCatch (m : M World Response) (handler : string → Response)
  : World → Response * World :=
  λ w, match m w with
       | (Returned r, w') => (r, w')
       | (Thrown msg, w') => (handler msg, w')
       end.

(** [error.message || fallback] *)
Definition orElse (msg fallback : string) : string :=
  if (String.length msg =? 0)%nat then fallback else msg.

(** Calling a method on a loaded or freshly built document; the caller
    gets the document back as the method left it. *)
Definition call {A} (id : ObjectId) (e : Enrollment) (new : bool) (m : M Frame A)
  : M World Enrollment :=
  λ w, let '(r, f) := m (mkFrame id e new w) in
       match r with
       | Returned _ => (Returned (this f), world f)
       | Thrown msg => (Thrown msg, world f)
       end.

(** [Enrollment.findById(id)]: the id is cast first, and a string that
    does not cast rejects the query. A document found is its [_id] and its
    fields. *)
Definition Enrollment_findById (id : string) : M World (option (ObjectId * Enrollment)) :=
  match castObjectId id with
  | None => throw (castError id "_id")
  | Some id => λ w, (Returned (pair id <$> enrollments w !! id), w)
  end.

(** [Course.findById(id)] *)
Definition Course_findById (id : string) : M World (option (ObjectId * Course.t)) :=
  match castObjectId id with
  | None => throw (castError id "_id")
  | Some id => λ w, (Returned (pair id <$> courses w !! id), w)
  end.

(** [Enrollment.findOne({ student, course })], with the caller's id for
    the student and a string of the request for the course. *)
Definition Enrollment_findOne (s : ObjectId) (c : string) : M World (option Enrollment) :=
  match castObjectId c with
  | None => throw (castError c "course")
  | Some c =>
    λ w, (Returned ((λ r, r.2.2) <$> list_find (λ kv, samePair s c kv.2)
                                           (map_to_list (enrollments w))), w)
  end.

Definition newObjectId : M World ObjectId :=
  λ w, (Returned (oidgen w (oids w)), next_oid w).

(** [new Enrollment({ student, course, instructor, payment })] with the
    schema defaults filled in; the course is a string of the request, cast
    on assignment. (For a string that does not cast, the error would be
    reported by [save()]; the routes reach this point only after
    [findById] has cast the same string.) *)
Definition newEnrollment (student : ObjectId) (course : string) (instructor : ObjectId)
    (payment : Payment.t) : M World (ObjectId * Enrollment) :=
  match castObjectId course with
  | None => throw "Enrollment validation failed: course: Cast to ObjectId failed"
  | Some course =>
    id <- newObjectId ;;
    enrollmentDate <- newDate_world ;;
    lastAccessed <- newDate_world ;;
    ret (id, mkEnrollment student course instructor enrollmentDate None active 0 []
               lastAccessed 0 (Certificate.mk false None None None) payment None
               (Rating.mk false None None None) None true false None
               RefundStatus.none None None)
  end.

(** The refund-status route's [if (refundAmount)]: an absent amount and a
    zero amount are both falsy. *)
Definition truthyNumber (v : option Qc) : bool :=
  match v with None => false | Some a => negb (bool_decide (a = 0%Qc)) end.

Definition assignRating (upd : Rating.t → Rating.t) : M Frame unit :=
  assign (λ e, set_rating (upd (rating e)) e).

(** The block "Add review to enrollment" of the review route. *)
Definition addReviewToEnrollment (rating : Z) (review : option string) : M Frame unit :=
  assignRating (λ r, Rating.mk true (Rating.rating r) (Rating.review r)
                       (Rating.reviewedAt r)) ;;
  assignRating (λ r, Rating.mk (Rating.given r) (Some rating) (Rating.review r)
                       (Rating.reviewedAt r)) ;;
  assignRating (λ r, Rating.mk (Rating.given r) (Rating.rating r) review
                       (Rating.reviewedAt r)) ;;
  now <- newDate ;;
  assignRating (λ r, Rating.mk (Rating.given r) (Rating.rating r) (Rating.review r)
                       (Some now)) ;;
  save.

(** The assignments of the refund-status route. *)
Definition updateRefundStatus (refundStatus : RefundStatus.t) (refundAmount : option Qc)
  : M Frame unit :=
  assign (set_refundStatus refundStatus) ;;
  (if truthyNumber refundAmount then assign (set_refundAmount refundAmount)
   else ret tt) ;;
  now <- newDate ;;
  assign (set_refundProcessedAt (Some now)) ;;
  save.

Section Routes.

(** Modelled from the spec: [course.save()] of the Course model, which is
    not among the sources, writes the course document unless the store
    rejects the write. This is the error of a rejected write of a document
    to a course collection, if there is one. *)
Variable courseSaveFails : ObjectId → Course.t → gmap string Course.t → option string.

(** The error, if there is one, with which the store rejects the reads of
    [enrollment.populate(...)] for a document in a world. *)
Variable populateFails : ObjectId → Enrollment → World → option string.

(** The course collaborator's [addReview(userId, rating, review)], called
    on the enrollment's course reference; it belongs to the Course model
    and acts on the course collection only. *)
Variable Course_addReview :
  ObjectId → string → Z → option string → M (gmap string Course.t) unit.

Definition inCourses {A} (m : M (gmap string Course.t) A) : M World A :=
  λ w, let '(r, cs) := m (courses w) in (r, set_courses cs w).

(** Modelled from the spec: [course.save()]. *)
Definition Course_save (id : ObjectId) (c : Course.t) : M World unit :=
  λ w, match courseSaveFails id c (courses w) with
       | Some msg => (Thrown msg, w)
       | None => (Returned tt, set_courses (<[id := c]> (courses w)) w)
       end.

(** [enrollment.populate([...])]: the references are looked up and shown
    with the document, which keeps its fields. *)
Definition populate (id : ObjectId) (e : Enrollment) : M World unit :=
  λ w, match populateFails id e w with
       | Some msg => (Thrown msg, w)
       | None => (Returned tt, w)
       end.

(** [POST /api/enrollments] *)
Definition postEnrollments (req : Request EnrollBody.t) : World → Response * World :=
  tryCatch
    (let errors := EnrollBody.validationResult (body req) in
     if negb (isEmpty errors) then ret (validationFailed errors)
     else
       let courseId := EnrollBody.courseId (body req) in
       course <- Course_findById courseId ;;
       match course with
       | None => ret (fail 404 "Course not found")
       | Some (courseRef, course) =>
         if negb (String.eqb (Course.status course) "published") then
           ret (fail 400 "Course is not available for enrollment")
         else
           existingEnrollment <- Enrollment_findOne (userId req) courseId ;;
           match existingEnrollment with
           | Some _ => ret (fail 400 "You are already enrolled in this course")
           | None =>
             paidAt <- newDate_world ;;
             (* the schema's enum cast; it cannot fail after the validation above *)
             match Payment.methodOfString (EnrollBody.paymentMethod (body req)) with
             | None => throw "Enrollment validation failed"
             | Some method =>
               created <- newEnrollment (userId req) courseId (Course.instructor course)
                            (Payment.mk (Course.price course) (Course.currency course)
                               method (EnrollBody.transactionId (body req))
                               Payment.completed paidAt) ;;
               enrollment <- call created.1 created.2 true save ;;
               Course_save courseRef
                 (Course.set_enrollmentCount (Course.enrollmentCount course + 1) course) ;;
               populate created.1 enrollment ;;
               ret (ok 201 "Successfully enrolled in course" enrollment)
             end
           end
       end)
    (λ _, fail 500 "Server error while enrolling in course").

(** [PUT /api/enrollments/:id/progress] *)
Definition putProgress (req : Request ProgressBody.t) : World → Response * World :=
  tryCatch
    (let errors := ProgressBody.validationResult (body req) in
     if negb (isEmpty errors) then ret (validationFailed errors)
     else
       enrollment <- Enrollment_findById (paramsId req) ;;
       match enrollment with
       | None => ret (fail 404 "Enrollment not found")
       | Some (id, enrollment) =>
         if negb (String.eqb (toString (student enrollment)) (userId req)) then
           ret (fail 403 "Not authorized to update this enrollment")
         else
           enrollment <- call id enrollment false
                           (completeLecture (ProgressBody.lectureId (body req))
                              (Some (default 0 (ProgressBody.timeSpent (body req))))) ;;
           ret (ok 200 "Progress updated successfully" enrollment)
       end)
    (λ _, fail 500 "Server error while updating progress").

(** [POST /api/enrollments/:id/review] *)
Definition postReview (req : Request ReviewBody.t) : World → Response * World :=
  tryCatch
    (let errors := ReviewBody.validationResult (body req) in
     if negb (isEmpty errors) then ret (validationFailed errors)
     else
       enrollment <- Enrollment_findById (paramsId req) ;;
       match enrollment with
       | None => ret (fail 404 "Enrollment not found")
       | Some (id, enrollment) =>
         if negb (String.eqb (toString (student enrollment)) (userId req)) then
           ret (fail 403 "Not authorized to review this course")
         else if Rating.given (rating enrollment) then
           ret (fail 400 "You have already reviewed this course")
         else
           enrollment <- call id enrollment false
                           (addReviewToEnrollment (ReviewBody.rating (body req))
                              (ReviewBody.review (body req))) ;;
           inCourses (Course_addReview (course enrollment) (userId req)
                        (ReviewBody.rating (body req)) (ReviewBody.review (body req))) ;;
           ret (ok 200 "Review added successfully" enrollment)
       end)
    (λ _, fail 500 "Server error while adding review").

(** [POST /api/enrollments/:id/certificate] *)
Definition postCertificate (req : Request unit) : World → Response * World :=
  tryCatch
    (enrollment <- Enrollment_findById (paramsId req) ;;
     match enrollment with
     | None => ret (fail 404 "Enrollment not found")
     | Some (id, enrollment) =>
       if negb (String.eqb (toString (student enrollment)) (userId req)) then
         ret (fail 403 "Not authorized to access this certificate")
       else
         enrollment <- call id enrollment false issueCertificate ;;
         ret (ok 200 "Certificate issued successfully" enrollment)
     end)
    (λ msg, fail 500 (orElse msg "Server error while issuing certificate")).

(** [POST /api/enrollments/:id/refund] *)
Definition postRefund (req : Request RefundBody.t) : World → Response * World :=
  tryCatch
    (let errors := RefundBody.validationResult (body req) in
     if negb (isEmpty errors) then ret (validationFailed errors)
     else
       enrollment <- Enrollment_findById (paramsId req) ;;
       match enrollment with
       | None => ret (fail 404 "Enrollment not found")
       | Some (id, enrollment) =>
         if negb (String.eqb (toString (student enrollment)) (userId req)) then
           ret (fail 403 "Not authorized to request refund for this enrollment")
         else
           enrollment <- call id enrollment false
                           (requestRefund (RefundBody.reason (body req))) ;;
           ret (ok 200 "Refund request submitted successfully" enrollment)
       end)
    (λ msg, fail 500 (orElse msg "Server error while requesting refund")).

(** [PUT /api/enrollments/:id/refund-status] (admin only) *)
Definition putRefundStatus (req : Request RefundStatusBody.t)
  : World → Response * World :=
  tryCatch
    (let errors := RefundStatusBody.validationResult (body req) in
     if negb (isEmpty errors) then ret (validationFailed errors)
     else
       enrollment <- Enrollment_findById (paramsId req) ;;
       match enrollment with
       | None => ret (fail 404 "Enrollment not found")
       | Some (id, enrollment) =>
         (* the schema's enum cast; it cannot fail after the validation above *)
         match RefundStatus.ofString (RefundStatusBody.refundStatus (body req)) with
         | None => throw "Enrollment validation failed"
         | Some refundStatus =>
           enrollment <- call id enrollment false
                           (updateRefundStatus refundStatus
                              (RefundStatusBody.refundAmount (body req))) ;;
           ret (ok 200 "Refund status updated successfully" enrollment)
         end
       end)
    (λ _, fail 500 "Server error while updating refund status").

(** ** The service as a state machine over requests *)

Inductive Call :=
| PostEnrollments (req : Request EnrollBody.t)
| PutProgress (req : Request ProgressBody.t)
| PostReview (req : Request ReviewBody.t)
| PostCertificate (req : Request unit)
| PostRefund (req : Request RefundBody.t)
| PutRefundStatus (req : Request RefundStatusBody.t).

Definition handle (c : Call) : World → Response * World :=
  match c with
  | PostEnrollments req => postEnrollments req
  | PutProgress req => putProgress req
  | PostReview req => postReview req
  | PostCertificate req => postCertificate req
  | PostRefund req => postRefund req
  | PutRefundStatus req => putRefundStatus req
  end.

Fixpoint run (cs : list Call) (w : World) : World :=
  match cs with
  | [] => w
  | c :: cs' => run cs' (handle c w).2
  end.

End Routes.

(** ** Statics of the model *)

(** The string a status is stored as. *)
Definition statusName (s : Status) : string :=
  match s with
  | active => "active"
  | completed => "completed"
  | cancelled => "cancelled"
  | expired => "expired"
  end.

(** [Enrollment.find(filter)]: the stored documents that match, under
    their ids, in the store's own order. *)
Definition Enrollment_find (matches : Enrollment → Prop) `{∀ e, Decision (matches e)}
  : M World (list (ObjectId * Enrollment)) :=
  λ w, (Returned (filter (λ kv, matches kv.2) (map_to_list (enrollments w))), w).

(** [Enrollment.countDocuments(filter)] *)
Definition Enrollment_countDocuments (matches : Enrollment → Prop)
    `{∀ e, Decision (matches e)} : M World Z :=
  λ w, (Returned (Z.of_nat (length (filter (λ kv, matches kv.2)
                                     (map_to_list (enrollments w))))), w).

(** [findActiveByStudent(studentId)] *)
Definition findActiveByStudent (studentId : ObjectId)
  : M World (list (ObjectId * Enrollment)) :=
  Enrollment_find (λ e, student e = studentId ∧ status e = active).

(** [findByCourse(courseId)] *)
Definition findByCourse (courseId : ObjectId) : M World (list (ObjectId * Enrollment)) :=
  Enrollment_find (λ e, course e = courseId).

Module Stats.
Record t := mk {
  totalEnrollments : Z;
  activeEnrollments : Z;
  completedEnrollments : Z;
  totalRevenue : Qc
}.
End Stats.

(** The accumulator [{ $sum: ... }] over integers. *)
Definition sumZ (f : Enrollment → Z) (docs : list Enrollment) : Z :=
  foldr (λ e acc, f e + acc) 0 docs.

(** [{ $cond: [{ $eq: ['$status', s] }, 1, 0] }] *)
Definition condStatus (s : Status) (e : Enrollment) : Z :=
  if bool_decide (status e = s) then 1 else 0.

Section Aggregation.

(** The store's accumulator [{ $sum: ... }] over the amounts of the
    documents, in the order it meets them. It adds floating-point numbers
    and is not an exact sum. *)
Variable sumAmounts : list Qc → Qc.

(** [getStats()]: one group over the whole collection; an empty
    collection yields no group at all. *)
Definition getStats : M World (list Stats.t) :=
  λ w, let docs := (map_to_list (enrollments w)).*2 in
       (Returned (match docs with
                  | [] => []
                  | _ => [Stats.mk (sumZ (λ _, 1) docs)
                            (sumZ (condStatus active) docs)
                            (sumZ (condStatus completed) docs)
                            (sumAmounts (map (λ e, Payment.amount (payment e)) docs))]
                  end), w).

End Aggregation.

(** ** The reading routes *)

Record Pagination := mkPagination {
  currentPage : Z;
  totalPages : option Z;  (* [None]: not a finite number, sent as [null] *)
  totalEnrollments : Z;
  limit : Z
}.

(** The answer of a route that lists enrollments. *)
Record Listing := mkListing {
  listCode : nat;
  listSuccess : bool;
  listMessage : string;
  listed : list (ObjectId * Enrollment);
  pagination : option Pagination
}.

Definition listFail (c : nat) (msg : string) : Listing := mkListing c false msg [] None.

Definition tryCatchListing (m : M World Listing) (handler : string → Listing)
  : World → Listing * World :=
  λ w, match m w with
       | (Returned r, w') => (r, w')
       | (Thrown msg, w') => (handler msg, w')
       end.

(** [.sort({ enrollmentDate: -1 })] *)
Definition newerFirst (a b : ObjectId * Enrollment) : Prop :=
  enrollmentDate b.2 ≤ enrollmentDate a.2.

Global Instance newerFirst_dec a b : Decision (newerFirst a b).
Proof. unfold newerFirst. apply _. Defined.

Definition sortNewerFirst (l : list (ObjectId * Enrollment))
  : list (ObjectId * Enrollment) := merge_sort newerFirst l.

Module MyCoursesQuery.
Record t := mk { status : option string }.
End MyCoursesQuery.

(** The filter of [GET /my-courses]: the caller's enrollments, narrowed
    to a status unless the status asked for is ['all']. *)
Definition myCoursesFilter (userId wanted : string) (e : Enrollment) : Prop :=
  student e = userId ∧ (wanted = "all" ∨ statusName (status e) = wanted).

Global Instance myCoursesFilter_dec u s e : Decision (myCoursesFilter u s e).
Proof. unfold myCoursesFilter. apply _. Defined.

(** [GET /api/enrollments/my-courses] *)
Definition getMyCourses (req : Request MyCoursesQuery.t) : World → Listing * World :=
  tryCatchListing
    (let wanted := default "active" (MyCoursesQuery.status (body req)) in
     enrollments <- Enrollment_find (myCoursesFilter (userId req) wanted) ;;
     ret (mkListing 200 true "" (sortNewerFirst enrollments) None))
    (λ _, listFail 500 "Server error while fetching enrolled courses").

Module ListQuery.
Record t := mk {
  page : option Z;        (* [parseInt(page)] where given *)
  limit : option Z;       (* [parseInt(limit)] where given *)
  status : option string;
  courseId : option string;
  studentId : option string
}.
End ListQuery.

(** [if (v) filter.f = v]: an absent or empty value adds no condition. *)
Definition given (v : option string) : option string :=
  match v with
  | Some s => if (String.length s =? 0)%nat then None else Some s
  | None => None
  end.

(** The filter object of the admin listing, as the route builds it from
    the query: the conditions that were given, as strings. *)
Record Filter := mkFilter {
  byStatus : option string;
  byCourse : option string;
  byStudent : option string
}.

Definition filterOf (q : ListQuery.t) : Filter :=
  mkFilter (given (ListQuery.status q)) (given (ListQuery.courseId q))
    (given (ListQuery.studentId q)).

(** The filter after mongoose has cast its values to the types of the
    schema paths: [course] and [student] to ObjectId. *)
Record CastFilter := mkCastFilter {
  status_is : option string;
  course_is : option ObjectId;
  student_is : option ObjectId
}.

(** The cast of an optional reference: [None] when the string does not
    cast. *)
Definition castRef (v : option string) : option (option ObjectId) :=
  match v with
  | None => Some None
  | Some s => match castObjectId s with
              | Some id => Some (Some id)
              | None => None
              end
  end.

Definition castFilter (q : Filter) : M World CastFilter :=
  match castRef (byCourse q) with
  | None => throw (castError (default "" (byCourse q)) "course")
  | Some c =>
    match castRef (byStudent q) with
    | None => throw (castError (default "" (byStudent q)) "student")
    | Some s => ret (mkCastFilter (byStatus q) c s)
    end
  end.

(** A condition that applies only when its value is given. *)
Definition narrowed {A} (v : option A) (holds : A → Prop) : Prop :=
  match v with
  | Some s => holds s
  | None => True
  end.

Definition listFilter (q : CastFilter) (e : Enrollment) : Prop :=
  narrowed (status_is q) (λ s, statusName (status e) = s)
  ∧ narrowed (course_is q) (λ c, course e = c)
  ∧ narrowed (student_is q) (λ s, student e = s).

Global Instance listFilter_dec q e : Decision (listFilter q e).
Proof.
  unfold listFilter, narrowed.
  destruct (status_is q), (course_is q), (student_is q); apply _.
Defined.

(** [Enrollment.find(filter)] and [Enrollment.countDocuments(filter)] on
    a filter object: its values are cast, and a value that does not cast
    rejects the query. *)
Definition Enrollment_findWhere (q : Filter) : M World (list (ObjectId * Enrollment)) :=
  cast <- castFilter q ;;
  Enrollment_find (listFilter cast).

Definition Enrollment_countWhere (q : Filter) : M World Z :=
  cast <- castFilter q ;;
  Enrollment_countDocuments (listFilter cast).

(** [Math.ceil(total / limit)]: not a finite number when [limit] is 0. *)
Definition pagesOf (total limit : Z) : option Z :=
  if limit =? 0 then None else Some (ceilDiv total limit).

Section ReadingRoutes.

(** The store's cursor: [.skip(n).limit(m)] over the sorted matches. *)
Variable skipLimit :
  Z → Z → list (ObjectId * Enrollment) → Outcome (list (ObjectId * Enrollment)).

(** The ids of the stored users, which [populate('student')] looks up. *)
Variable users : gset string.

(** [GET /api/enrollments] (admin only) *)
Definition getEnrollments (req : Request ListQuery.t) : World → Listing * World :=
  tryCatchListing
    (let page := default 1 (ListQuery.page (body req)) in
     let limit := default 20 (ListQuery.limit (body req)) in
     let skip := (page - 1) * limit in
     let filter := filterOf (body req) in
     found <- Enrollment_findWhere filter ;;
     enrollments <- (λ w, (skipLimit skip limit (sortNewerFirst found), w)) ;;
     total <- Enrollment_countWhere filter ;;
     ret (mkListing 200 true "" enrollments
            (Some (mkPagination page (pagesOf total limit) total limit))))
    (λ _, listFail 500 "Server error while fetching enrollments").

(** [GET /api/enrollments/:id] *)
Definition getEnrollment (req : Request unit) : World → Response * World :=
  tryCatch
    (enrollment <- Enrollment_findById (paramsId req) ;;
     match enrollment with
     | None => ret (fail 404 "Enrollment not found")
     | Some (id, enrollment) =>
       (* [populate('student')] leaves [null] for a user that is gone, and
          reading [_id] of it throws *)
       if negb (bool_decide (student enrollment ∈ users)) then
         throw "Cannot read properties of null (reading '_id')"
       else if negb (String.eqb (toString (student enrollment)) (userId req)) then
         ret (fail 403 "Not authorized to view this enrollment")
       else ret (ok 200 "" enrollment)
     end)
    (λ _, fail 500 "Server error while fetching enrollment").

End ReadingRoutes.


(** * Intermediate frames

    The frame a method has reached after each of its statements; the
    equations below relate them to the monadic code. *)

(** The frame the pre-save hook leaves behind. *)
Definition afterPreSave (f : Frame) : Frame :=
  if (progress (this f) =? 100) && bool_decide (status (this f) ≠ completed) then
    mkFrame (_id f)
      (set_completionDate (Some (clock (world f) (ticks (world f))))
         (set_status completed (this f)))
      (isNew f) (tick (world f))
  else f.

(** The frame after the document has been written back. *)
Definition afterPersist (f : Frame) : Frame :=
  set_world (set_enrollments (<[_id f := this f]> (enrollments (world f))) (world f)) f.

Definition isLecture (lectureId : string) (cl : CompletedLecture.t) : bool :=
  String.eqb (toString (CompletedLecture.lecture cl)) lectureId.

(** [completeLecture] refuses a string that is neither the printed form
    of a lecture the document holds nor one that casts to an ObjectId. *)
Definition refused (lectureId : string) (e : Enrollment) : bool :=
  (findIndex (isLecture lectureId) (completedLectures e) =? -1)
  && bool_decide (castObjectId lectureId = None).

(** The frames between the statements of [completeLecture]. *)
Definition afterPush (lectureId : string) (timeSpent : option Z) (f : Frame) : Frame :=
  if findIndex (isLecture lectureId) (completedLectures (this f)) =? -1 then
    match castObjectId lectureId with
    | Some lecture =>
      mkFrame (_id f)
        (set_completedLectures
           (completedLectures (this f)
            ++ [CompletedLecture.mk lecture (clock (world f) (ticks (world f)))
                  (default 0 timeSpent)])
           (this f))
        (isNew f) (tick (world f))
    | None => f
    end
  else f.

Definition afterUpdateProgress (f : Frame) : Frame :=
  if 0 <? Z.of_nat (length (completedLectures (this f))) then
    set_this (set_progress
                (Z.min 100 (Z.of_nat (length (completedLectures (this f))) * 10))
                (this f)) f
  else f.

Definition afterAccess (f : Frame) : Frame :=
  mkFrame (_id f) (set_lastAccessed (clock (world f) (ticks (world f))) (this f))
    (isNew f) (tick (world f)).

(** The frame of [issueCertificate] just before its [save]. *)
Definition afterIssue (f : Frame) : Frame :=
  let issuedAt := clock (world f) (ticks (world f)) in
  let certificateId := certificateIdFor (_id f) (clock (world f) (S (ticks (world f)))) in
  mkFrame (_id f)
    (set_certificate
       (Certificate.mk true (Some issuedAt) (Some certificateId)
          (Some ("/certificates/" +:+ certificateId)))
       (this f))
    (isNew f) (tick (tick (world f))).

(** The frame of [requestRefund] just before its [save]. *)
Definition afterRequest (reason : string) (f : Frame) : Frame :=
  set_this (set_refundStatus RefundStatus.pending
              (set_refundReason (Some reason) (set_refundRequested true (this f)))) f.

(** The frame of the review block just before its [save]. *)
Definition afterReview (rating : Z) (review : option string) (f : Frame) : Frame :=
  mkFrame (_id f)
    (set_rating (Rating.mk true (Some rating) review
                   (Some (clock (world f) (ticks (world f)))))
       (this f))
    (isNew f) (tick (world f)).

(** The frame of the refund-status block just before its [save]. *)
Definition afterRefundStatus (refundStatus : RefundStatus.t) (refundAmount : option Qc)
    (f : Frame) : Frame :=
  mkFrame (_id f)
    (set_refundProcessedAt (Some (clock (world f) (ticks (world f))))
       (if truthyNumber refundAmount
        then set_refundAmount refundAmount (set_refundStatus refundStatus (this f))
        else set_refundStatus refundStatus (this f)))
    (isNew f) (tick (world f)).

(** * The operations on a stored enrollment

    The mutations the routes apply to a loaded document, and the guard a
    route checks itself before applying one. *)

Inductive Operation :=
| CompleteLecture (lectureId : string) (timeSpent : option Z)
| IssueCertificate
| RequestRefund (reason : string)
| AddReview (rating : Z) (review : option string)
| UpdateRefundStatus (refundStatus : RefundStatus.t) (refundAmount : option Qc).

Definition perform (op : Operation) : M Frame unit :=
  match op with
  | CompleteLecture lectureId timeSpent => completeLecture lectureId timeSpent
  | IssueCertificate => issueCertificate
  | RequestRefund reason => requestRefund reason
  | AddReview rating review => addReviewToEnrollment rating review
  | UpdateRefundStatus refundStatus refundAmount =>
      updateRefundStatus refundStatus refundAmount
  end.

Definition guard (op : Operation) (e : Enrollment) : Prop :=
  match op with
  | AddReview _ _ => Rating.given (rating e) = false
  | _ => True
  end.

(** Two frames that differ at most in [this] and in the clock. *)
Definition sameStore (f g : Frame) : Prop :=
  _id g = _id f ∧ isNew g = isNew f
  ∧ enrollments (world g) = enrollments (world f).

(** A stored document after one request: untouched, or the result of one
    operation whose guard held. *)
Definition evolved (id : ObjectId) (e e' : Enrollment) : Prop :=
  e' = e ∨ ∃ op w, guard op e ∧ e' = this (perform op (mkFrame id e false w)).2.

(** The shape of a record that the service created and has maintained
    since: progress follows the lecture count, and the completion status
    and date are there exactly at progress 100. *)
Definition lifecycle (e : Enrollment) : Prop :=
  progress e = Z.min 100 (Z.of_nat (length (completedLectures e)) * 10)
  ∧ (progress e = 100 → status e = completed ∧ is_Some (completionDate e))
  ∧ (progress e ≠ 100 → status e = active ∧ completionDate e = None).

(** * Sample data *)

Definition sampleClock (n : nat) : Date := 1700000000000 + Z.of_nat n.

Definition sampleOid (n : nat) : ObjectId := "65a1b2c3d4e5f6a7b8c9d0e" +:+ pretty (n mod 10)%nat.

Definition sampleCourseId : ObjectId := "65a1b2c3d4e5f6a7b8c9d0c1".

(** The users of the samples: two students and an administrator. *)
Definition sampleStudent : ObjectId := "65a1b2c3d4e5f6a7b8c9d0f1".
Definition otherStudent : ObjectId := "65a1b2c3d4e5f6a7b8c9d0f2".
Definition sampleAdmin : ObjectId := "65a1b2c3d4e5f6a7b8c9d0ad".

Definition sampleCourse : Course.t :=
  Course.mk "published" "65a1b2c3d4e5f6a7b8c9d0aa" (Q2Qc (4999 # 100)) "USD" 0.

Definition sampleWorld : World :=
  mkWorld ∅ {[ sampleCourseId := sampleCourse ]} sampleClock 0 sampleOid 0.

(** A freshly created enrollment of the sample student in the sample course. *)
Definition sampleEnrollment : Enrollment :=
  mkEnrollment sampleStudent sampleCourseId "65a1b2c3d4e5f6a7b8c9d0aa" 1699999999000 None active 0 []
    1699999999000 0 (Certificate.mk false None None None)
    (Payment.mk (Q2Qc (4999 # 100)) "USD" Payment.credit_card "txn-1"
       Payment.completed 1699999999000)
    None (Rating.mk false None None None) None true false None RefundStatus.none
    None None.

(** The same enrollment sold with access until a fixed date. *)
Definition timedEnrollment : Enrollment :=
  mkEnrollment sampleStudent sampleCourseId "65a1b2c3d4e5f6a7b8c9d0aa" 1699999999000 None active 0 []
    1699999999000 0 (Certificate.mk false None None None)
    (Payment.mk (Q2Qc (4999 # 100)) "USD" Payment.credit_card "txn-1"
       Payment.completed 1699999999000)
    None (Rating.mk false None None None) (Some 1700000000000) false false None
    RefundStatus.none None None.

Definition sampleId : ObjectId := "65a1b2c3d4e5f6a7b8c9d0e9".

(** The sample enrollment as stored, and loaded for a method call. *)
Definition storedWorld (e : Enrollment) : World :=
  set_enrollments {[ sampleId := e ]} sampleWorld.

Definition loaded (e : Enrollment) : Frame := mkFrame sampleId e false (storedWorld e).

Definition sampleLecture : ObjectId := "65a1b2c3d4e5f6a7b8c9d011".

(** The sample enrollment with all ten lectures' worth of progress, not
    yet saved. *)
Definition finishedEnrollment : Enrollment := set_progress 100 sampleEnrollment.

(** The sample enrollment with a refund that was requested and approved. *)
Definition approvedEnrollment : Enrollment :=
  set_refundStatus RefundStatus.approved (set_refundRequested true sampleEnrollment).

(** The sample enrollment after a four-star review. *)
Definition reviewedEnrollment : Enrollment :=
  set_rating (Rating.mk true (Some 4) (Some "clear and well paced") (Some 1699999999500))
    sampleEnrollment.

(** The sample enrollment after a refund request. *)
Definition afterRequested : Enrollment :=
  set_refundStatus RefundStatus.pending
    (set_refundReason (Some "not satisfied with pacing")
       (set_refundRequested true sampleEnrollment)).

Definition pendingRequest : Request RefundStatusBody.t :=
  mkRequest sampleAdmin sampleId (RefundStatusBody.mk "pending" None).

Definition approveRequest : Request RefundStatusBody.t :=
  mkRequest sampleAdmin sampleId (RefundStatusBody.mk "approved" (Some (Q2Qc (4999 # 100)))).

Definition reviewRequest : Request ReviewBody.t :=
  mkRequest sampleStudent sampleId (ReviewBody.mk 5 (Some "excellent")).

Definition enrollRequest : Request EnrollBody.t :=
  mkRequest sampleStudent "" (EnrollBody.mk sampleCourseId "credit_card" "txn-1").

(** A store that takes every course write and serves every populate. *)
Definition courseSaved : ObjectId → Course.t → gmap string Course.t → option string :=
  λ _ _ _, None.

Definition populated : ObjectId → Enrollment → World → option string :=
  λ _ _ _, None.

(** A course collaborator that accepts every review. *)
Definition acceptReview
  : ObjectId → string → Z → option string → M (gmap string Course.t) unit :=
  λ _ _ _ _, ret tt.

(** * Further auxiliary definitions *)

(** A run of [completeLecture] calls on one loaded document. *)
Definition completeAll (calls : list (string * option Z)) (f : Frame) : Frame :=
  foldl (λ g c, (completeLecture c.1 c.2 g).2) f calls.

(** The lecture ids a document holds. *)
Definition lectureIds (e : Enrollment) : list ObjectId :=
  map CompletedLecture.lecture (completedLectures e).

(** The fields no operation of the service assigns. *)
Definition sameIdentity (e e' : Enrollment) : Prop :=
  student e' = student e ∧ course e' = course e ∧ instructor e' = instructor e
  ∧ enrollmentDate e' = enrollmentDate e ∧ payment e' = payment e
  ∧ totalTimeSpent e' = totalTimeSpent e ∧ notes e' = notes e
  ∧ accessExpiry e' = accessExpiry e ∧ isLifetime e' = isLifetime e.

(** A later state of a maintained record: progress has not gone down, and
    a completion, once reached, is kept with its date. *)
Definition advanced (e e' : Enrollment) : Prop :=
  lifecycle e'
  ∧ progress e ≤ progress e'
  ∧ (length (completedLectures e) ≤ length (completedLectures e'))%nat
  ∧ (status e = completed →
     status e' = completed ∧ completionDate e' = completionDate e).

(** A maintained record carries a certificate only when complete. *)
Definition certified (e : Enrollment) : Prop :=
  lifecycle e ∧ (Certificate.issued (certificate e) = true → progress e = 100).

Definition millisPerDay : Z := 1000 * 60 * 60 * 24.

(** A short session of the sample student: two lectures (one of them sent
    twice), a refund request and its approval. *)
Definition sampleSession : list Call :=
  [ PutProgress (mkRequest sampleStudent sampleId (ProgressBody.mk sampleLecture (Some 30)));
    PutProgress (mkRequest sampleStudent sampleId (ProgressBody.mk sampleLecture (Some 90)));
    PutProgress (mkRequest sampleStudent sampleId
                   (ProgressBody.mk "65a1b2c3d4e5f6a7b8c9d012" None));
    PostRefund (mkRequest sampleStudent sampleId (RefundBody.mk "not satisfied with pacing"));
    PutRefundStatus approveRequest ].

(** A course collaborator that is down. *)
Definition refuseReview
  : ObjectId → string → Z → option string → M (gmap string Course.t) unit :=
  λ _ _ _ _, throw "course.addReview is not a function".

(** A request string that is an id in printed form: it casts to itself. *)
Definition canonical (s : string) : Prop := castObjectId s = Some s.

(** The id a request string names, where it names one. *)
Definition named (s : string) : ObjectId := default s (castObjectId s).

(** The id under which a call stores the record it answers with. *)
Definition target (c : Call) (w : World) : ObjectId :=
  match c with
  | PostEnrollments _ => oidgen w (oids w)
  | PutProgress req => named (paramsId req)
  | PostReview req => named (paramsId req)
  | PostCertificate req => named (paramsId req)
  | PostRefund req => named (paramsId req)
  | PutRefundStatus req => named (paramsId req)
  end.

(** A store whose course collection is down. *)
Definition courseStoreDown : ObjectId → Course.t → gmap string Course.t → option string :=
  λ _ _ _, Some "connection lost".

(** A whole number that a JS number holds exactly. *)
Definition safeInteger (n : Z) : Prop := Z.abs n ≤ 2 ^ 53.

(** No two stored enrollments share a (student, course) pair. *)
Definition uniquePairs (m : gmap string Enrollment) : Prop :=
  ∀ i j a b, m !! i = Some a → m !! j = Some b →
             student a = student b → course a = course b → i = j.

(** What a request to a stored enrollment can do to the collection:
    nothing, or an update in place that keeps student and course. *)
Inductive updated (m m' : gmap string Enrollment) : Prop :=
| updated_nothing : m' = m → updated m m'
| updated_in_place id e e' :
    m !! id = Some e → student e' = student e → course e' = course e →
    m' = <[id := e']> m → updated m m'.

(** What any request can do to it: that, or the insertion of an active
    record under an unused id for a pair that was not yet enrolled. *)
Inductive written (m m' : gmap string Enrollment) : Prop :=
| written_updated : updated m m' → written m m'
| written_insert id e' :
    m !! id = None → pairTaken (student e') (course e') m = false →
    status e' = active →
    m' = <[id := e']> m → written m m'.

(** The number of stored enrollments in a course. *)
Definition enrolledIn (courseId : ObjectId) (m : gmap string Enrollment) : nat :=
  length (filter (λ kv, course kv.2 = courseId) (map_to_list m)).

(** Every stored course counts its stored enrollments. *)
Definition countsAgree (w : World) : Prop :=
  ∀ courseId c, courses w !! courseId = Some c →
                Course.enrollmentCount c = Z.of_nat (enrolledIn courseId (enrollments w)).

(** No stored course counts more than its stored enrollments. *)
Definition countsWithin (w : World) : Prop :=
  ∀ courseId c, courses w !! courseId = Some c →
                Course.enrollmentCount c ≤ Z.of_nat (enrolledIn courseId (enrollments w)).

(** A course collaborator that adds no course and leaves the enrollment
    counts alone. *)
Definition keepsCounts
    (addReview : ObjectId → string → Z → option string → M (gmap string Course.t) unit)
  : Prop :=
  ∀ courseRef user rating review cs courseId c',
    (addReview courseRef user rating review cs).2 !! courseId = Some c' →
    ∃ c, cs !! courseId = Some c ∧ Course.enrollmentCount c' = Course.enrollmentCount c.

(** The group [getStats] reports, with zeros standing for the group that
    an empty collection does not produce. *)
Definition statsOf (sumAmounts : list Qc → Qc) (w : World) : Stats.t :=
  match (getStats sumAmounts w).1 with
  | Returned (s :: _) => s
  | _ => Stats.mk 0 0 0 0%Qc
  end.

(** An accumulator that adds exactly. *)
Definition exactSum (amounts : list Qc) : Qc := foldr Qcplus 0%Qc amounts.

(** The number of stored enrollments with a given status. *)
Definition countStatus (s : Status) (w : World) : Z :=
  Z.of_nat (length (filter (λ kv, status kv.2 = s) (map_to_list (enrollments w)))).

(** What a query returns on a world. *)
Definition listedBy {A} (query : M World (list A)) (w : World) : list A :=
  match (query w).1 with
  | Returned l => l
  | Thrown _ => []
  end.

(** A store cursor: it refuses a negative skip and otherwise skips and
    limits as asked. *)
Definition sampleCursor (skip limit : Z) (l : list (ObjectId * Enrollment))
  : Outcome (list (ObjectId * Enrollment)) :=
  if skip <? 0 then Thrown "Skip value must be non-negative"
  else Returned (take (Z.to_nat limit) (drop (Z.to_nat skip) l)).

Definition sampleUsers : gset string := {[ sampleStudent; otherStudent ]}.

(** The student's progress requests for a run of request bodies, and the
    method calls they lead to. *)
Definition progressRequests (user id : string) (bodies : list ProgressBody.t) : list Call :=
  map (λ b, PutProgress (mkRequest user id b)) bodies.

Definition progressCalls (bodies : list ProgressBody.t) : list (string * option Z) :=
  map (λ b, (ProgressBody.lectureId b, Some (default 0 (ProgressBody.timeSpent b)))) bodies.

Definition tenLectures : list ProgressBody.t :=
  map (λ n, ProgressBody.mk ("65a1b2c3d4e5f6a7b8c9d00" +:+ pretty n) (Some 60))
    (seq 0 10).


(** * Equations of the persistence layer and of the methods *)

Ltac unfold_js :=
  unfold save, preSave, persist, updateProgress, assignCertificate, assignRating,
    newDate, inWorld, newDate_world, getThis, assign, modify, get, throw, bind, ret.

Lemma preSave_eq f : preSave f = (Returned tt, afterPreSave f).
Proof.
  unfold_js. unfold afterPreSave.
  destruct ((progress (this f) =? 100) && bool_decide (status (this f) ≠ completed));
    reflexivity.
Qed.

Lemma afterPreSave_id f : _id (afterPreSave f) = _id f.
Proof. unfold afterPreSave. by destruct (_ && _). Qed.

Lemma afterPreSave_isNew f : isNew (afterPreSave f) = isNew f.
Proof. unfold afterPreSave. by destruct (_ && _). Qed.

Lemma afterPreSave_enrollments f :
  enrollments (world (afterPreSave f)) = enrollments (world f).
Proof. unfold afterPreSave. by destruct (_ && _). Qed.

Lemma save_eq f : isNew f = false → save f = (Returned tt, afterPersist (afterPreSave f)).
Proof.
  intros Hnew. unfold save, bind. rewrite preSave_eq. unfold persist.
  by rewrite afterPreSave_isNew, Hnew.
Qed.

Lemma save_this f : this (save f).2 = this (afterPreSave f).
Proof.
  unfold save, bind. rewrite preSave_eq. unfold persist.
  destruct (isNew (afterPreSave f)); [destruct (_ || _)|]; reflexivity.
Qed.

Lemma save_stored f :
  isNew f = false →
  enrollments (world (save f).2)
  = <[_id f := this (afterPreSave f)]> (enrollments (world f)).
Proof.
  intros Hnew. rewrite save_eq by done. cbn.
  by rewrite afterPreSave_id, afterPreSave_enrollments.
Qed.

(** What the hook does to a document, read off [afterPreSave]. *)
Lemma afterPreSave_fires f :
  progress (this f) = 100 → status (this f) ≠ completed →
  this (afterPreSave f)
  = set_completionDate (Some (clock (world f) (ticks (world f))))
      (set_status completed (this f)).
Proof.
  intros Hp Hs. unfold afterPreSave.
  by rewrite Hp, bool_decide_true.
Qed.

Lemma afterPreSave_idle f :
  progress (this f) ≠ 100 ∨ status (this f) = completed → afterPreSave f = f.
Proof.
  intros H. unfold afterPreSave.
  destruct H as [H|H].
  - apply Z.eqb_neq in H. by rewrite H.
  - rewrite (bool_decide_false (status (this f) ≠ completed)) by (intros ?; done).
    by rewrite andb_false_r.
Qed.

Lemma afterPreSave_progress f : progress (this (afterPreSave f)) = progress (this f).
Proof. unfold afterPreSave. by destruct (_ && _). Qed.

Lemma afterPreSave_completedLectures f :
  completedLectures (this (afterPreSave f)) = completedLectures (this f).
Proof. unfold afterPreSave. by destruct (_ && _). Qed.



(** ** [completeLecture] *)

Lemma findIndexFrom_spec {A} (p : A → bool) l i :
  0 ≤ i →
  (findIndexFrom p l i = -1 ∧ Forall (λ x, p x = false) l)
  ∨ (i ≤ findIndexFrom p l i ∧ Exists (λ x, p x = true) l).
Proof.
  revert i. induction l as [|x l IH]; intros i Hi; cbn.
  - left. split; [done | constructor].
  - destruct (p x) eqn:Hx.
    + right. split; [lia | by constructor].
    + destruct (IH (i + 1)) as [[-> Hall] | [Hle Hex]]; [lia | |].
      * left. split; [done | by constructor].
      * right. split; [lia | by constructor 2].
Qed.

Lemma findIndex_absent {A} (p : A → bool) l :
  findIndex p l = -1 ↔ Forall (λ x, p x = false) l.
Proof.
  unfold findIndex. destruct (findIndexFrom_spec p l 0) as [[-> Hall] | [Hle Hex]]; [lia | |].
  - done.
  - split; [lia |]. intros Hall. exfalso.
    apply Exists_exists in Hex as (x & Hin & Hx).
    rewrite Forall_forall in Hall. specialize (Hall x Hin). congruence.
Qed.

Lemma findIndex_lecture lectureId (cls : list CompletedLecture.t) :
  findIndex (isLecture lectureId) cls = -1
  ↔ lectureId ∉ map CompletedLecture.lecture cls.
Proof.
  rewrite findIndex_absent, Forall_forall, list_elem_of_fmap. split.
  - intros H (cl & -> & Hin). specialize (H cl Hin).
    unfold isLecture, toString in H. by rewrite String.eqb_refl in H.
  - intros H cl Hin. unfold isLecture, toString.
    apply String.eqb_neq. intros Heq. apply H. exists cl. by split.
Qed.

(** ** The cast of request strings *)

Lemma lowerHexDigit_hex c : isHexDigit c = true → isHexDigit (lowerHexDigit c) = true.
Proof. by destruct c as [[] [] [] [] [] [] [] []]; vm_compute. Qed.

Lemma lowerHexDigit_idemp c : lowerHexDigit (lowerHexDigit c) = lowerHexDigit c.
Proof. by destruct c as [[] [] [] [] [] [] [] []]; vm_compute. Qed.

Lemma lowerHex_length s : String.length (lowerHex s) = String.length s.
Proof. induction s as [|c s IH]; cbn; [done | by rewrite IH]. Qed.

Lemma lowerHex_idemp s : lowerHex (lowerHex s) = lowerHex s.
Proof.
  induction s as [|c s IH]; cbn; [done |]. by rewrite lowerHexDigit_idemp, IH.
Qed.

Lemma lowerHex_hex s :
  forallb isHexDigit (String.list_ascii_of_string s) = true →
  forallb isHexDigit (String.list_ascii_of_string (lowerHex s)) = true.
Proof.
  induction s as [|c s IH]; cbn; [done |].
  intros [Hc Hs]%andb_true_iff. by rewrite lowerHexDigit_hex, IH.
Qed.

(** The validator [isMongoId] accepts exactly the strings that cast. *)
Lemma isMongoId_cast s : isMongoId s = true ↔ is_Some (castObjectId s).
Proof.
  unfold castObjectId. change (isHex24 s) with (isMongoId s).
  destruct (isMongoId s); split; first [done | by intros [? ?] | by eexists].
Qed.

(** A cast id is in printed form: it casts to itself. *)
Lemma castObjectId_canonical s id : castObjectId s = Some id → castObjectId id = Some id.
Proof.
  unfold castObjectId, isHex24.
  destruct (_ && _) eqn:H; [| done]. intros [= <-].
  apply andb_true_iff in H as [Hhex Hlen].
  rewrite lowerHex_hex, lowerHex_length, Hlen, lowerHex_idemp by done. done.
Qed.

Lemma findById_eq raw w :
  Enrollment_findById raw w
  = match castObjectId raw with
    | Some id => (Returned (pair id <$> enrollments w !! id), w)
    | None => (Thrown (castError raw "_id"), w)
    end.
Proof. unfold Enrollment_findById. by destruct (castObjectId raw). Qed.

Lemma Course_findById_eq raw w :
  Course_findById raw w
  = match castObjectId raw with
    | Some id => (Returned (pair id <$> courses w !! id), w)
    | None => (Thrown (castError raw "_id"), w)
    end.
Proof. unfold Course_findById. by destruct (castObjectId raw). Qed.

Lemma updateProgress_eq f : updateProgress f = (Returned tt, afterUpdateProgress f).
Proof.
  unfold_js. unfold afterUpdateProgress.
  by destruct (0 <? Z.of_nat (length (completedLectures (this f)))).
Qed.

Lemma completeLecture_eq lectureId timeSpent f :
  completeLecture lectureId timeSpent f
  = if refused lectureId (this f) then (Thrown completeLecture_error, f)
    else save (afterAccess (afterUpdateProgress (afterPush lectureId timeSpent f))).
Proof.
  unfold completeLecture, refused, afterPush. fold (isLecture lectureId).
  unfold bind at 1. unfold getThis at 1. unfold bind at 1.
  destruct (findIndex (isLecture lectureId) (completedLectures (this f)) =? -1).
  - destruct (castObjectId lectureId) as [lecture|]; cbn [andb].
    + rewrite bool_decide_false by done.
      unfold bind at 1. unfold newDate, inWorld, newDate_world at 1.
      cbn -[save updateProgress]. unfold bind at 1. rewrite updateProgress_eq.
      reflexivity.
    + by rewrite bool_decide_true.
  - cbn [andb]. unfold ret at 1. unfold bind at 1. rewrite updateProgress_eq.
    reflexivity.
Qed.

(** A string that casts is never refused. *)
Lemma refused_cast lectureId lecture e :
  castObjectId lectureId = Some lecture → refused lectureId e = false.
Proof.
  intros H. unfold refused. rewrite H, bool_decide_false by done.
  apply andb_false_r.
Qed.

Lemma refused_afterPush lectureId timeSpent f :
  refused lectureId (this f) = true → afterPush lectureId timeSpent f = f.
Proof.
  unfold refused, afterPush. intros [-> Hc%bool_decide_eq_true]%andb_true_iff.
  by rewrite Hc.
Qed.

Lemma afterPush_nonempty lectureId timeSpent f :
  refused lectureId (this f) = false →
  (0 < length (completedLectures (this (afterPush lectureId timeSpent f))))%nat.
Proof.
  unfold refused, afterPush. destruct (_ =? -1) eqn:Hidx; cbn.
  - destruct (castObjectId lectureId); cbn.
    + intros _. rewrite length_app. cbn. lia.
    + done.
  - intros _. apply Z.eqb_neq in Hidx.
    destruct (completedLectures (this f)); [done | cbn; lia].
Qed.

Lemma afterPush_grows lectureId timeSpent f :
  (length (completedLectures (this f))
   ≤ length (completedLectures (this (afterPush lectureId timeSpent f))))%nat.
Proof.
  unfold afterPush. destruct (_ =? -1); [| done].
  destruct (castObjectId lectureId); cbn; [rewrite length_app; lia | done].
Qed.

Lemma completeLecture_lectures lectureId timeSpent f :
  completedLectures (this (completeLecture lectureId timeSpent f).2)
  = completedLectures (this (afterPush lectureId timeSpent f)).
Proof.
  rewrite completeLecture_eq.
  destruct (refused lectureId (this f)) eqn:Hr.
  - by rewrite refused_afterPush.
  - rewrite save_this, afterPreSave_completedLectures. cbn.
    unfold afterUpdateProgress. by destruct (0 <? _).
Qed.

Lemma completeLecture_progress lectureId timeSpent f :
  refused lectureId (this f) = false →
  progress (this (completeLecture lectureId timeSpent f).2)
  = Z.min 100
      (Z.of_nat (length (completedLectures (this (afterPush lectureId timeSpent f)))) * 10).
Proof.
  intros Hr. rewrite completeLecture_eq, Hr, save_this, afterPreSave_progress. cbn.
  pose proof (afterPush_nonempty lectureId timeSpent f Hr) as Hlen.
  unfold afterUpdateProgress.
  destruct (0 <? _) eqn:Hpos; [done |].
  apply Z.ltb_ge in Hpos. lia.
Qed.

Lemma afterPush_this lectureId timeSpent f :
  status (this (afterPush lectureId timeSpent f)) = status (this f)
  ∧ completionDate (this (afterPush lectureId timeSpent f)) = completionDate (this f)
  ∧ progress (this (afterPush lectureId timeSpent f)) = progress (this f)
  ∧ _id (afterPush lectureId timeSpent f) = _id f
  ∧ isNew (afterPush lectureId timeSpent f) = isNew f
  ∧ enrollments (world (afterPush lectureId timeSpent f)) = enrollments (world f).
Proof.
  unfold afterPush. destruct (_ =? -1); [| done].
  by destruct (castObjectId lectureId).
Qed.

Lemma completeLecture_status lectureId timeSpent f :
  let g := afterAccess (afterUpdateProgress (afterPush lectureId timeSpent f)) in
  status (this g) = status (this f) ∧ completionDate (this g) = completionDate (this f).
Proof.
  cbn. destruct (afterPush_this lectureId timeSpent f) as (Hs & Hc & _).
  unfold afterUpdateProgress. destruct (0 <? _); cbn; by rewrite ?Hs, ?Hc.
Qed.

(** ** The other mutations *)

Lemma issueCertificate_eq f :
  issueCertificate f
  = if (progress (this f) =? 100) && negb (Certificate.issued (certificate (this f)))
    then save (afterIssue f)
    else (Thrown issueCertificate_error, f).
Proof.
  unfold issueCertificate. unfold bind at 1. unfold getThis at 1.
  destruct (_ && _); reflexivity.
Qed.

Lemma requestRefund_eq reason f :
  requestRefund reason f
  = if refundRequested (this f) then (Thrown requestRefund_error, f)
    else save (afterRequest reason f).
Proof.
  unfold requestRefund. unfold bind at 1. unfold getThis at 1.
  destruct (refundRequested (this f)); reflexivity.
Qed.

Lemma addReviewToEnrollment_eq rating review f :
  addReviewToEnrollment rating review f = save (afterReview rating review f).
Proof. reflexivity. Qed.

Lemma updateRefundStatus_eq refundStatus refundAmount f :
  updateRefundStatus refundStatus refundAmount f
  = save (afterRefundStatus refundStatus refundAmount f).
Proof.
  unfold updateRefundStatus, afterRefundStatus.
  destruct (truthyNumber refundAmount); reflexivity.
Qed.

(** Strings: a prefix of known length splits off uniquely. *)
Lemma append_inj_length (a a' b b' : string) :
  String.length a = String.length a' → a +:+ b = a' +:+ b' → a = a' ∧ b = b'.
Proof.
  revert a'. induction a as [|c a IH]; intros [|c' a'] Hlen Heq; try done.
  cbn in Hlen, Heq. injection Heq as -> Heq.
  destruct (IH a') as [-> ->]; [lia | done | done].
Qed.

Lemma certificateIdFor_inj id id' now now' :
  String.length id = String.length id' →
  certificateIdFor id now = certificateIdFor id' now' → id = id' ∧ now = now'.
Proof.
  unfold certificateIdFor, toString. intros Hlen Heq.
  apply (append_inj_length "CERT-" "CERT-") in Heq as [_ Heq]; [| done].
  apply append_inj_length in Heq as [-> Heq]; [| done].
  apply (append_inj_length "-" "-") in Heq as [_ Heq]; [| done].
  split; [done |]. by apply (inj pretty).
Qed.

(** ** What an operation leaves in the store *)

Lemma afterPreSave_cases f :
  this (afterPreSave f) = this f
  ∨ this (afterPreSave f)
    = set_completionDate (Some (clock (world f) (ticks (world f))))
        (set_status completed (this f)).
Proof. unfold afterPreSave. destruct (_ && _); [by right | by left]. Qed.

Lemma save_store f g :
  sameStore f g → isNew f = false →
  enrollments (world (save g).2) = <[_id f := this (save g).2]> (enrollments (world f)).
Proof.
  intros (Hid & Hnew & Hen) Hf.
  rewrite save_stored, save_this by congruence. by rewrite Hid, Hen.
Qed.

Lemma sameStore_completeLecture lectureId timeSpent f :
  sameStore f (afterAccess (afterUpdateProgress (afterPush lectureId timeSpent f))).
Proof.
  destruct (afterPush_this lectureId timeSpent f) as (_ & _ & _ & Hid & Hnew & Hen).
  unfold sameStore, afterUpdateProgress. destruct (0 <? _); cbn; done.
Qed.

Lemma sameStore_issue f : sameStore f (afterIssue f).
Proof. done. Qed.

Lemma sameStore_request reason f : sameStore f (afterRequest reason f).
Proof. done. Qed.

Lemma sameStore_review rating review f : sameStore f (afterReview rating review f).
Proof. done. Qed.

Lemma sameStore_refundStatus st amount f : sameStore f (afterRefundStatus st amount f).
Proof. done. Qed.

(** An operation on a stored document either throws and leaves the frame
    as it was, or returns with the document written back. *)
Lemma perform_outcome op f :
  isNew f = false →
  (∃ msg, perform op f = (Thrown msg, f))
  ∨ ((perform op f).1 = Returned tt
     ∧ enrollments (world (perform op f).2)
       = <[_id f := this (perform op f).2]> (enrollments (world f))).
Proof.
  intros Hnew.
  assert (∀ g, sameStore f g →
               (save g).1 = Returned tt
               ∧ enrollments (world (save g).2)
                 = <[_id f := this (save g).2]> (enrollments (world f))) as Hsave.
  { intros g Hg. split; [| by apply save_store].
    rewrite save_eq; [done |]. destruct Hg as (_ & -> & _). done. }
  destruct op; cbn [perform].
  - rewrite completeLecture_eq. destruct (refused lectureId (this f)).
    + left. by eexists.
    + right. apply Hsave, sameStore_completeLecture.
  - rewrite issueCertificate_eq. destruct (_ && _).
    + right. apply Hsave, sameStore_issue.
    + left. by eexists.
  - rewrite requestRefund_eq. destruct (refundRequested (this f)).
    + left. by eexists.
    + right. apply Hsave, sameStore_request.
  - right. rewrite addReviewToEnrollment_eq. apply Hsave, sameStore_review.
  - right. rewrite updateRefundStatus_eq. apply Hsave, sameStore_refundStatus.
Qed.

Lemma call_eq {A} id e new (m : M Frame A) w :
  call id e new m w
  = match (m (mkFrame id e new w)).1 with
    | Returned _ => (Returned (this (m (mkFrame id e new w)).2),
                     world (m (mkFrame id e new w)).2)
    | Thrown msg => (Thrown msg, world (m (mkFrame id e new w)).2)
    end.
Proof. unfold call. by destruct (m _) as [[] ?]. Qed.

(** The store after a route has applied an operation to the document
    stored under [id]. *)
Lemma call_perform_lookup op id e w id' e' :
  enrollments w !! id' = Some e' →
  enrollments w !! id = Some e →
  enrollments (call id e false (perform op) w).2 !! id'
  = Some (if decide (id = id') then this (perform op (mkFrame id e false w)).2 else e').
Proof.
  intros Hl' Hl. rewrite call_eq.
  destruct (perform_outcome op (mkFrame id e false w) eq_refl) as [[msg Hthrow] | [Hret Hst]].
  - rewrite Hthrow. cbn. rewrite Hl'. case_decide; [| done]. congruence.
  - rewrite Hret. cbn. rewrite Hst. cbn. rewrite lookup_insert. by case_decide.
Qed.

(** ** Enrolling *)

Lemma check_nil holds msg : check holds msg = [] ↔ holds = true.
Proof. by destruct holds. Qed.

Lemma EnrollBody_valid b :
  EnrollBody.validationResult b = [] →
  isMongoId (EnrollBody.courseId b) = true
  ∧ (∃ method, Payment.methodOfString (EnrollBody.paymentMethod b) = Some method)
  ∧ notEmpty (EnrollBody.transactionId b) = true.
Proof.
  unfold EnrollBody.validationResult. rewrite !app_nil, !check_nil.
  intros (Hid & Hpm & Htx). split_and!; [done | | done].
  unfold isIn in Hpm. apply bool_decide_eq_true in Hpm.
  repeat (apply elem_of_cons in Hpm as [-> | Hpm]; [by eexists |]).
  by apply elem_of_nil in Hpm.
Qed.

Lemma findOne_cast s c courseRef w :
  castObjectId c = Some courseRef →
  Enrollment_findOne s c w
  = (Returned ((λ r, r.2.2) <$> list_find (λ kv, samePair s courseRef kv.2)
                                  (map_to_list (enrollments w))), w).
Proof. intros H. unfold Enrollment_findOne. by rewrite H. Qed.

Lemma pairTaken_find s c m :
  pairTaken s c m = false
  ↔ list_find (λ kv, samePair s c kv.2) (map_to_list m) = None.
Proof.
  unfold pairTaken. rewrite bool_decide_eq_false, map_Exists_to_list.
  destruct (list_find _ _) as [[i [k e]]|] eqn:Hfind.
  - split; [| done]. intros Hno. exfalso. apply Hno.
    apply list_find_Some in Hfind as (Hin & HP & _).
    apply Exists_exists. exists (k, e). split; [| done].
    by eapply list_elem_of_lookup_2.
  - split; [done |]. intros _ Hex.
    apply list_find_None in Hfind.
    apply Exists_exists in Hex as ([k e] & Hin & HP).
    rewrite Forall_forall in Hfind. by apply (Hfind (k, e)).
Qed.

Lemma pairTaken_true s c m :
  pairTaken s c m = true ↔ ∃ id e, m !! id = Some e ∧ student e = s ∧ course e = c.
Proof. unfold pairTaken. by rewrite bool_decide_eq_true. Qed.

Lemma findOne_eq s c courseRef w :
  castObjectId c = Some courseRef →
  pairTaken s courseRef (enrollments w) = false →
  Enrollment_findOne s c w = (Returned None, w).
Proof.
  intros Hc H. rewrite (findOne_cast s c courseRef) by done.
  apply pairTaken_find in H. by rewrite H.
Qed.

Lemma findOne_found s c courseRef w :
  castObjectId c = Some courseRef →
  pairTaken s courseRef (enrollments w) = true →
  ∃ e, Enrollment_findOne s c w = (Returned (Some e), w).
Proof.
  intros Hc H. rewrite (findOne_cast s c courseRef) by done.
  destruct (list_find _ _) as [x|] eqn:Hfind; [by eexists |].
  apply pairTaken_find in Hfind. congruence.
Qed.

Lemma call_save_new id e w :
  progress e ≠ 100 →
  enrollments w !! id = None →
  pairTaken (student e) (course e) (enrollments w) = false →
  call id e true save w
  = (Returned e, set_enrollments (<[id := e]> (enrollments w)) w).
Proof.
  intros Hp Hid Hpair. rewrite call_eq.
  unfold save, bind. rewrite preSave_eq.
  rewrite afterPreSave_idle by (by left).
  unfold persist. cbn. rewrite Hid, Hpair.
  rewrite bool_decide_false by (by intros [? ?]). cbn. reflexivity.
Qed.

Lemma call_save_new_lookup id e w id' e' :
  enrollments w !! id' = Some e' →
  enrollments (call id e true save w).2 !! id' = Some e'.
Proof.
  intros Hl. rewrite call_eq. unfold save, bind. rewrite preSave_eq.
  unfold persist. rewrite afterPreSave_isNew. cbn [isNew].
  rewrite afterPreSave_id, afterPreSave_enrollments. cbn [_id world].
  destruct (bool_decide (is_Some (enrollments w !! id))) eqn:Hid; cbn.
  - by rewrite afterPreSave_enrollments.
  - destruct (pairTaken _ _ _); cbn.
    + by rewrite afterPreSave_enrollments.
    + apply bool_decide_eq_false in Hid.
      rewrite lookup_insert_ne; [done |]. intros ->. apply Hid. by eexists.
Qed.

(** ** The routes, seen from one stored document *)

Section RouteFacts.
Variable courseSaveFails : ObjectId → Course.t → gmap string Course.t → option string.
Variable populateFails : ObjectId → Enrollment → World → option string.
Variable Course_addReview :
  ObjectId → string → Z → option string → M (gmap string Course.t) unit.

Lemma Course_save_eq id c w :
  Course_save courseSaveFails id c w
  = match courseSaveFails id c (courses w) with
    | Some msg => (Thrown msg, w)
    | None => (Returned tt, set_courses (<[id := c]> (courses w)) w)
    end.
Proof. reflexivity. Qed.

Lemma Course_save_enrollments id c w :
  enrollments (Course_save courseSaveFails id c w).2 = enrollments w.
Proof. rewrite Course_save_eq. by destruct (courseSaveFails _ _ _). Qed.

Lemma populate_world id e w : (populate populateFails id e w).2 = w.
Proof. unfold populate. by destruct (populateFails _ _ _). Qed.

(** The enroll route from the point where its checks have passed: the
    enrollment is written, then the course, then the references are
    populated, and each of the two later steps may fail. *)
Lemma postEnrollments_created req w courseRef c :
  EnrollBody.validationResult (body req) = [] →
  castObjectId (EnrollBody.courseId (body req)) = Some courseRef →
  courses w !! courseRef = Some c →
  Course.status c = "published" →
  pairTaken (userId req) courseRef (enrollments w) = false →
  enrollments w !! oidgen w (oids w) = None →
  ∃ method e,
    Payment.methodOfString (EnrollBody.paymentMethod (body req)) = Some method
    ∧ e = mkEnrollment (userId req) courseRef (Course.instructor c)
            (clock w (S (ticks w))) None active 0 [] (clock w (S (S (ticks w)))) 0
            (Certificate.mk false None None None)
            (Payment.mk (Course.price c) (Course.currency c) method
               (EnrollBody.transactionId (body req)) Payment.completed
               (clock w (ticks w)))
            None (Rating.mk false None None None) None true false None
            RefundStatus.none None None
    ∧ postEnrollments courseSaveFails populateFails req w
      = let w1 := mkWorld (<[oidgen w (oids w) := e]> (enrollments w)) (courses w)
                    (clock w) (S (S (S (ticks w)))) (oidgen w) (S (oids w)) in
        let c' := Course.set_enrollmentCount (Course.enrollmentCount c + 1) c in
        match courseSaveFails courseRef c' (courses w) with
        | Some _ => (fail 500 "Server error while enrolling in course", w1)
        | None =>
          let w2 := set_courses (<[courseRef := c']> (courses w)) w1 in
          match populateFails (oidgen w (oids w)) e w2 with
          | Some _ => (fail 500 "Server error while enrolling in course", w2)
          | None => (ok 201 "Successfully enrolled in course" e, w2)
          end
        end.
Proof.
  intros Hvalid Hcast Hc Hpub Hpair Hfresh.
  destruct (EnrollBody_valid _ Hvalid) as (_ & [method Hm] & _).
  eexists method, _. split_and!; [done | reflexivity |].
  unfold postEnrollments, tryCatch. rewrite Hvalid. cbn [isEmpty negb].
  unfold bind at 1. rewrite Course_findById_eq, Hcast, Hc.
  cbn [fmap option_fmap option_map]. rewrite Hpub.
  change (negb ("published" =? "published")%string) with false. cbn iota.
  unfold bind at 1. rewrite (findOne_eq _ _ courseRef) by done.
  unfold bind at 1. unfold newDate_world at 1. rewrite Hm.
  unfold bind at 1. unfold newEnrollment. rewrite Hcast.
  unfold newObjectId, newDate_world.
  cbn -[call String.eqb Course_save populate].
  unfold bind at 1. rewrite call_save_new; [| done | done | done].
  unfold bind at 1. rewrite Course_save_eq. cbn [courses set_enrollments].
  destruct (courseSaveFails _ _ _); [reflexivity |].
  unfold bind at 1. unfold populate at 1.
  destruct (populateFails _ _ _); reflexivity.
Qed.

Lemma postEnrollments_lookup req w id e :
  enrollments w !! id = Some e →
  enrollments (postEnrollments courseSaveFails populateFails req w).2 !! id = Some e.
Proof.
  intros H. unfold postEnrollments, tryCatch.
  destruct (negb (isEmpty _)); [done |].
  unfold bind at 1. rewrite Course_findById_eq.
  destruct (castObjectId _) as [courseRef|] eqn:Hcast; [| done].
  destruct (courses w !! _) as [c|]; cbn [fmap option_fmap option_map]; [| done].
  destruct (negb _); [done |].
  unfold bind at 1. rewrite (findOne_cast _ _ courseRef) by done.
  destruct (_ <$> _); [done |].
  unfold bind at 1. unfold newDate_world at 1.
  destruct (Payment.methodOfString _) as [method|]; [| done].
  unfold bind at 1. unfold newEnrollment. rewrite Hcast.
  unfold newObjectId, newDate_world.
  cbn -[call Course_save populate]. unfold bind at 1.
  match goal with
  | |- context [call ?i ?d true save ?v] =>
      pose proof (call_save_new_lookup i d v id e H) as Hc;
      destruct (call i d true save v) as [[e1|?] w1]
  end; cbn [fst snd] in *; [| exact Hc].
  unfold bind at 1.
  pose proof (Course_save_enrollments courseRef
                (Course.set_enrollmentCount (Course.enrollmentCount c + 1) c) w1) as Hs.
  destruct (Course_save _ _ _ _) as [[[]|?] w2]; cbn [fst snd] in *;
    [| by rewrite Hs].
  unfold bind at 1.
  pose proof (populate_world (oidgen w (oids w)) e1 w2) as Hp.
  destruct (populate _ _ _ _) as [[[]|?] w3]; cbn [fst snd] in *; subst w3;
    cbn; by rewrite Hs.
Qed.

(** ** What the operations keep *)

Lemma save_fields g :
  let e := this g in
  let e' := this (save g).2 in
  progress e' = progress e
  ∧ completedLectures e' = completedLectures e
  ∧ certificate e' = certificate e
  ∧ rating e' = rating e
  ∧ refundRequested e' = refundRequested e
  ∧ refundReason e' = refundReason e
  ∧ refundStatus e' = refundStatus e
  ∧ refundProcessedAt e' = refundProcessedAt e
  ∧ refundAmount e' = refundAmount e.
Proof. cbn zeta. rewrite save_this. by destruct (afterPreSave_cases g) as [-> | ->]. Qed.

Lemma save_owner g :
  student (this (save g).2) = student (this g) ∧ course (this (save g).2) = course (this g).
Proof. rewrite save_this. by destruct (afterPreSave_cases g) as [-> | ->]. Qed.

Lemma completeLecture_fields lectureId timeSpent f :
  let e := this f in
  let e' := this (completeLecture lectureId timeSpent f).2 in
  certificate e' = certificate e
  ∧ rating e' = rating e
  ∧ refundRequested e' = refundRequested e
  ∧ refundReason e' = refundReason e
  ∧ refundStatus e' = refundStatus e
  ∧ refundProcessedAt e' = refundProcessedAt e
  ∧ refundAmount e' = refundAmount e.
Proof.
  cbn zeta. rewrite completeLecture_eq.
  destruct (refused lectureId (this f)); [done |].
  destruct (save_fields (afterAccess (afterUpdateProgress (afterPush lectureId timeSpent f))))
    as (_ & _ & -> & -> & -> & -> & -> & -> & ->).
  cbn. unfold afterUpdateProgress, afterPush.
  destruct (_ =? -1); [destruct (castObjectId lectureId) |]; cbn;
    destruct (0 <? _); done.
Qed.

Lemma completeLecture_present lectureId timeSpent f :
  lectureId ∈ map CompletedLecture.lecture (completedLectures (this f)) →
  completedLectures (this (completeLecture lectureId timeSpent f).2)
  = completedLectures (this f).
Proof.
  intros Hin. rewrite completeLecture_lectures. unfold afterPush.
  destruct (_ =? -1) eqn:Hidx; [| done].
  by apply Z.eqb_eq, findIndex_lecture in Hidx.
Qed.

(** A string that no stored lecture prints as is appended, as the id it
    casts to. *)
Lemma completeLecture_absent lectureId lecture timeSpent f :
  castObjectId lectureId = Some lecture →
  lectureId ∉ map CompletedLecture.lecture (completedLectures (this f)) →
  completedLectures (this (completeLecture lectureId timeSpent f).2)
  = completedLectures (this f)
    ++ [CompletedLecture.mk lecture (clock (world f) (ticks (world f)))
          (default 0 timeSpent)].
Proof.
  intros Hcast Hout. rewrite completeLecture_lectures. unfold afterPush.
  apply findIndex_lecture in Hout. by rewrite Hout, Hcast.
Qed.

Lemma completeLecture_member lectureId timeSpent f :
  castObjectId lectureId = Some lectureId →
  lectureId ∈ map CompletedLecture.lecture
    (completedLectures (this (completeLecture lectureId timeSpent f).2)).
Proof.
  intros Hcast. rewrite completeLecture_lectures. unfold afterPush.
  destruct (_ =? -1) eqn:Hidx; cbn.
  - rewrite Hcast. cbn. rewrite map_app. cbn. apply elem_of_app. right. by left.
  - apply Z.eqb_neq in Hidx. rewrite findIndex_lecture in Hidx.
    by apply dec_stable in Hidx.
Qed.

Lemma completeLecture_nodup lectureId timeSpent f :
  castObjectId lectureId = Some lectureId →
  NoDup (map CompletedLecture.lecture (completedLectures (this f))) →
  NoDup (map CompletedLecture.lecture
           (completedLectures (this (completeLecture lectureId timeSpent f).2))).
Proof.
  intros Hcast Hnd. rewrite completeLecture_lectures. unfold afterPush.
  destruct (_ =? -1) eqn:Hidx; [| done]. rewrite Hcast. cbn.
  apply Z.eqb_eq, findIndex_lecture in Hidx.
  rewrite map_app. cbn. apply NoDup_app. split_and!; [done | | apply NoDup_singleton].
  intros x Hx Hx'. by apply list_elem_of_singleton in Hx' as ->.
Qed.

Lemma completeLecture_bounds lectureId timeSpent f :
  0 ≤ progress (this f) ≤ 100 →
  0 ≤ progress (this (completeLecture lectureId timeSpent f).2) ≤ 100.
Proof.
  intros Hp. destruct (refused lectureId (this f)) eqn:Hr.
  - by rewrite completeLecture_eq, Hr.
  - rewrite completeLecture_progress by done. lia.
Qed.

(** Everything an operation is guaranteed to keep of the document it
    runs on. *)
Lemma perform_keeps op f :
  guard op (this f) →
  let e := this f in
  let e' := this (perform op f).2 in
  (refundRequested e = true → refundRequested e' = true)
  ∧ (Rating.given (rating e) = true → rating e' = rating e)
  ∧ (Certificate.issued (certificate e) = true → certificate e' = certificate e)
  ∧ (0 ≤ progress e ≤ 100 → 0 ≤ progress e' ≤ 100).
Proof.
  intros Hguard. cbn zeta.
  destruct op as [lectureId timeSpent | | reason | stars text | st amount];
    cbn [perform guard] in *.
  - destruct (completeLecture_fields lectureId timeSpent f)
      as (-> & -> & -> & _).
    split_and!; try done. apply completeLecture_bounds.
  - rewrite issueCertificate_eq.
    destruct (progress (this f) =? 100); cbn [andb]; [| done].
    destruct (Certificate.issued (certificate (this f))) eqn:Hissued; cbn [negb]; [done |].
    destruct (save_fields (afterIssue f)) as (-> & _ & _ & -> & -> & _).
    done.
  - rewrite requestRefund_eq.
    destruct (refundRequested (this f)) eqn:Hreq; [done |].
    destruct (save_fields (afterRequest reason f)) as (-> & _ & -> & -> & _).
    done.
  - rewrite addReviewToEnrollment_eq.
    destruct (save_fields (afterReview stars text f)) as (-> & _ & -> & _ & -> & _).
    split_and!; try done. intros Hgiven. congruence.
  - rewrite updateRefundStatus_eq.
    destruct (save_fields (afterRefundStatus st amount f))
      as (-> & _ & -> & -> & -> & _).
    cbn. by destruct (truthyNumber amount).
Qed.

Lemma RefundStatusBody_valid b :
  RefundStatusBody.validationResult b = [] →
  ∃ new, RefundStatus.ofString (RefundStatusBody.refundStatus b) = Some new
         ∧ (new = RefundStatus.pending ∨ new = RefundStatus.approved
            ∨ new = RefundStatus.rejected).
Proof.
  unfold RefundStatusBody.validationResult. rewrite !app_nil, !check_nil.
  intros (Hst & _). unfold isIn in Hst. apply bool_decide_eq_true in Hst.
  repeat (apply elem_of_cons in Hst as [-> | Hst]; [eexists; split; [done | tauto] |]).
  by apply elem_of_nil in Hst.
Qed.

(** ** The lifecycle invariant *)

Lemma lifecycle_save g :
  lifecycle (this g) → this (save g).2 = this g.
Proof.
  intros (_ & Hdone & _). rewrite save_this.
  destruct (decide (progress (this g) = 100)) as [Hp|Hp].
  - rewrite afterPreSave_idle; [done |]. right. by apply Hdone.
  - rewrite afterPreSave_idle; [done |]. by left.
Qed.

Lemma lifecycle_completeLecture lectureId timeSpent f :
  lifecycle (this f) → lifecycle (this (completeLecture lectureId timeSpent f).2).
Proof.
  intros Hlife.
  destruct (refused lectureId (this f)) eqn:Hr;
    [by rewrite completeLecture_eq, Hr |].
  destruct Hlife as (Hrule & Hdone & Hopen).
  pose proof (completeLecture_progress lectureId timeSpent f Hr) as Hp.
  pose proof (completeLecture_lectures lectureId timeSpent f) as Hl.
  destruct (completeLecture_status lectureId timeSpent f) as [Hst Hcd].
  pose proof (afterPush_grows lectureId timeSpent f) as Hgrow.
  split; [by rewrite Hp, Hl |].
  rewrite Hp. rewrite completeLecture_eq, Hr in *. rewrite save_this in *.
  set (h := afterAccess (afterUpdateProgress (afterPush lectureId timeSpent f))) in *.
  rewrite afterPreSave_progress in Hp.
  split.
  - intros H100.
    destruct (decide (status (this h) = completed)) as [Hs|Hs].
    + rewrite afterPreSave_idle by (by right). split; [done |].
      rewrite Hcd. apply Hdone. destruct (decide (progress (this f) = 100)); [done |].
      destruct (Hopen n). congruence.
    + rewrite afterPreSave_fires by congruence. by split.
  - intros H100. rewrite afterPreSave_idle by (left; lia).
    rewrite Hst, Hcd. apply Hopen. lia.
Qed.

Lemma lifecycle_perform op f :
  guard op (this f) → lifecycle (this f) → lifecycle (this (perform op f).2).
Proof.
  intros _ Hlife.
  assert (∀ g, progress (this g) = progress (this f) →
               completedLectures (this g) = completedLectures (this f) →
               status (this g) = status (this f) →
               completionDate (this g) = completionDate (this f) →
               lifecycle (this (save g).2)) as Hsave.
  { intros g Hp Hl Hs Hc.
    assert (lifecycle (this g)) as Hg
      by (unfold lifecycle in *; by rewrite Hp, Hl, Hs, Hc).
    by rewrite lifecycle_save. }
  destruct op as [lectureId timeSpent | | reason | stars text | st amount];
    cbn [perform].
  - by apply lifecycle_completeLecture.
  - rewrite issueCertificate_eq. destruct (_ && _); [by apply Hsave | done].
  - rewrite requestRefund_eq.
    destruct (refundRequested (this f)); [done | by apply Hsave].
  - rewrite addReviewToEnrollment_eq. by apply Hsave.
  - rewrite updateRefundStatus_eq.
    apply Hsave; cbn; by destruct (truthyNumber amount).
Qed.

Lemma inCourses_enrollments {A} (m : M (gmap string Course.t) A) w :
  enrollments (inCourses m w).2 = enrollments w.
Proof. unfold inCourses. by destruct (m (courses w)). Qed.

Lemma call_evolved op id0 e0 w id e :
  enrollments w !! id0 = Some e0 →
  enrollments w !! id = Some e →
  guard op e0 →
  ∃ e', enrollments (call id0 e0 false (perform op) w).2 !! id = Some e'
        ∧ evolved id e e'.
Proof.
  intros H0 H Hg. rewrite (call_perform_lookup op id0 e0 w id e) by done.
  eexists. split; [done |]. case_decide as Hid; [| by left].
  subst id0. assert (e0 = e) as -> by congruence.
  right. by exists op, w.
Qed.

Ltac untouched e := exists e; split; [done | by left].

Ltac by_call op H0 H Hg :=
  let Hc := fresh "Hc" in
  pose proof (call_evolved op _ _ _ _ _ H0 H Hg) as Hc; cbn [perform] in Hc;
  unfold bind;
  destruct (call _ _ _ _ _) as [[?|?] ?]; cbn in *; exact Hc.

Lemma putProgress_lookup req w id e :
  enrollments w !! id = Some e →
  ∃ e', enrollments (putProgress req w).2 !! id = Some e' ∧ evolved id e e'.
Proof.
  intros H. unfold putProgress, tryCatch.
  destruct (negb _); [untouched e |].
  unfold bind at 1. rewrite findById_eq.
  destruct (castObjectId (paramsId req)) as [id0|]; [| untouched e].
  destruct (enrollments w !! id0) as [e0|] eqn:H0;
    cbn [fmap option_fmap option_map]; [| untouched e].
  destruct (negb _); [untouched e |].
  by_call (CompleteLecture (ProgressBody.lectureId (body req))
             (Some (default 0 (ProgressBody.timeSpent (body req))))) H0 H I.
Qed.

Lemma postCertificate_lookup req w id e :
  enrollments w !! id = Some e →
  ∃ e', enrollments (postCertificate req w).2 !! id = Some e' ∧ evolved id e e'.
Proof.
  intros H. unfold postCertificate, tryCatch.
  unfold bind at 1. rewrite findById_eq.
  destruct (castObjectId (paramsId req)) as [id0|]; [| untouched e].
  destruct (enrollments w !! id0) as [e0|] eqn:H0;
    cbn [fmap option_fmap option_map]; [| untouched e].
  destruct (negb _); [untouched e |].
  by_call IssueCertificate H0 H I.
Qed.

Lemma postRefund_lookup req w id e :
  enrollments w !! id = Some e →
  ∃ e', enrollments (postRefund req w).2 !! id = Some e' ∧ evolved id e e'.
Proof.
  intros H. unfold postRefund, tryCatch.
  destruct (negb _); [untouched e |].
  unfold bind at 1. rewrite findById_eq.
  destruct (castObjectId (paramsId req)) as [id0|]; [| untouched e].
  destruct (enrollments w !! id0) as [e0|] eqn:H0;
    cbn [fmap option_fmap option_map]; [| untouched e].
  destruct (negb _); [untouched e |].
  by_call (RequestRefund (RefundBody.reason (body req))) H0 H I.
Qed.

Lemma putRefundStatus_lookup req w id e :
  enrollments w !! id = Some e →
  ∃ e', enrollments (putRefundStatus req w).2 !! id = Some e' ∧ evolved id e e'.
Proof.
  intros H. unfold putRefundStatus, tryCatch.
  destruct (negb _); [untouched e |].
  unfold bind at 1. rewrite findById_eq.
  destruct (castObjectId (paramsId req)) as [id0|]; [| untouched e].
  destruct (enrollments w !! id0) as [e0|] eqn:H0;
    cbn [fmap option_fmap option_map]; [| untouched e].
  destruct (RefundStatus.ofString _) as [st|]; [| untouched e].
  by_call (UpdateRefundStatus st (RefundStatusBody.refundAmount (body req))) H0 H I.
Qed.

Lemma postReview_lookup req w id e :
  enrollments w !! id = Some e →
  ∃ e', enrollments (postReview Course_addReview req w).2 !! id = Some e'
        ∧ evolved id e e'.
Proof.
  intros H. unfold postReview, tryCatch.
  destruct (negb _); [untouched e |].
  unfold bind at 1. rewrite findById_eq.
  destruct (castObjectId (paramsId req)) as [id0|]; [| untouched e].
  destruct (enrollments w !! id0) as [e0|] eqn:H0;
    cbn [fmap option_fmap option_map]; [| untouched e].
  destruct (negb _); [untouched e |].
  destruct (Rating.given (rating e0)) eqn:Hgiven; [untouched e |].
  pose proof (call_evolved (AddReview (ReviewBody.rating (body req))
                              (ReviewBody.review (body req))) _ _ _ _ _ H0 H Hgiven) as Hc.
  cbn [perform] in Hc. unfold bind.
  destruct (call _ _ _ _ _) as [[e1|?] w1]; cbn in *; [| exact Hc].
  pose proof (inCourses_enrollments
                (Course_addReview (course e1) (userId req) (ReviewBody.rating (body req))
                   (ReviewBody.review (body req))) w1) as Hen.
  destruct (inCourses _ _) as [[?|?] w2]; cbn in *; by rewrite Hen.
Qed.

Lemma postReview_given req w id e :
  ReviewBody.validationResult (body req) = [] →
  castObjectId (paramsId req) = Some id →
  enrollments w !! id = Some e →
  student e = userId req →
  Rating.given (rating e) = true →
  postReview Course_addReview req w
  = (fail 400 "You have already reviewed this course", w).
Proof.
  intros Hvalid Hid Hfound Howner Hgiven.
  unfold postReview, tryCatch. rewrite Hvalid. cbn [isEmpty negb].
  unfold bind at 1. rewrite findById_eq, Hid, Hfound.
  cbn [fmap option_fmap option_map].
  unfold toString. rewrite Howner, String.eqb_refl. cbn [negb].
  by rewrite Hgiven.
Qed.

Lemma postReview_stored req w id e :
  ReviewBody.validationResult (body req) = [] →
  castObjectId (paramsId req) = Some id →
  enrollments w !! id = Some e →
  student e = userId req →
  Rating.given (rating e) = false →
  enrollments (postReview Course_addReview req w).2 !! id
  = Some (this (save (afterReview (ReviewBody.rating (body req))
                        (ReviewBody.review (body req))
                        (mkFrame id e false w))).2).
Proof.
  intros Hvalid Hid Hfound Howner Hgiven.
  unfold postReview, tryCatch. rewrite Hvalid. cbn [isEmpty negb].
  unfold bind at 1. rewrite findById_eq, Hid, Hfound.
  cbn [fmap option_fmap option_map].
  unfold toString. rewrite Howner, String.eqb_refl. cbn [negb].
  rewrite Hgiven. unfold bind.
  pose proof (call_perform_lookup
                (AddReview (ReviewBody.rating (body req)) (ReviewBody.review (body req)))
                id e w id e Hfound Hfound) as Hc.
  cbn [perform] in Hc. rewrite decide_True in Hc by done.
  rewrite addReviewToEnrollment_eq in Hc.
  destruct (call _ _ _ _ _) as [[e1|?] w1]; cbn in *; [| exact Hc].
  pose proof (inCourses_enrollments
                (Course_addReview (course e1) (userId req) (ReviewBody.rating (body req))
                   (ReviewBody.review (body req))) w1) as Hen.
  destruct (inCourses _ _) as [[?|?] w2]; cbn in *; by rewrite Hen.
Qed.

Lemma handle_lookup c w id e :
  enrollments w !! id = Some e →
  ∃ e', enrollments (handle courseSaveFails populateFails Course_addReview c w).2 !! id
        = Some e'
        ∧ evolved id e e'.
Proof.
  intros H. destruct c; cbn [handle].
  - exists e. split; [by apply postEnrollments_lookup | by left].
  - by apply putProgress_lookup.
  - by apply postReview_lookup.
  - by apply postCertificate_lookup.
  - by apply postRefund_lookup.
  - by apply putRefundStatus_lookup.
Qed.

(** A property of a stored document that every guarded operation keeps
    holds after any sequence of requests. *)
Lemma run_preserves (P : Enrollment → Prop) :
  (∀ op f, guard op (this f) → P (this f) → P (this (perform op f).2)) →
  ∀ cs w id e,
    enrollments w !! id = Some e → P e →
    ∃ e', enrollments (run courseSaveFails populateFails Course_addReview cs w) !! id
          = Some e' ∧ P e'.
Proof.
  intros Hkeep cs. induction cs as [|c cs IH]; intros w id e Hl HP; cbn [run].
  - by exists e.
  - destruct (handle_lookup c w id e Hl) as (e1 & Hl1 & [-> | (op & w1 & Hg & ->)]).
    + by apply (IH _ _ e).
    + eapply IH; [done |]. by apply (Hkeep op (mkFrame id e false w1)).
Qed.

End RouteFacts.


(** * Further facts about the methods *)

Lemma ceilDiv_bounds a b :
  0 < b → b * (ceilDiv a b - 1) < a ≤ b * ceilDiv a b.
Proof.
  intros Hb. unfold ceilDiv.
  pose proof (Z.div_mod (- a) b ltac:(lia)) as Hdm.
  pose proof (Z.mod_pos_bound (- a) b Hb) as Hm.
  nia.
Qed.

Lemma completeLecture_ids lectureId timeSpent f :
  lectureIds (this (completeLecture lectureId timeSpent f).2)
  = if decide (lectureId ∈ lectureIds (this f)) then lectureIds (this f)
    else match castObjectId lectureId with
         | Some lecture => lectureIds (this f) ++ [lecture]
         | None => lectureIds (this f)
         end.
Proof.
  unfold lectureIds. rewrite completeLecture_lectures. unfold afterPush.
  destruct (_ =? -1) eqn:Hidx.
  - apply Z.eqb_eq, findIndex_lecture in Hidx.
    rewrite decide_False by done.
    destruct (castObjectId lectureId); cbn; [by rewrite map_app | done].
  - apply Z.eqb_neq in Hidx. rewrite findIndex_lecture in Hidx.
    apply dec_stable in Hidx. by rewrite decide_True.
Qed.

Lemma completeAll_cons c calls f :
  completeAll (c :: calls) f = completeAll calls (completeLecture c.1 c.2 f).2.
Proof. reflexivity. Qed.

Lemma completeAll_lifecycle calls f :
  lifecycle (this f) → lifecycle (this (completeAll calls f)).
Proof.
  revert f. induction calls as [|c calls IH]; intros f Hf; [done |].
  rewrite completeAll_cons. apply IH. by apply lifecycle_completeLecture.
Qed.

Lemma completeAll_ids calls f :
  Forall (λ c, canonical c.1) calls →
  NoDup (lectureIds (this f)) →
  NoDup (lectureIds (this (completeAll calls f)))
  ∧ ∀ x, x ∈ lectureIds (this (completeAll calls f))
         ↔ x ∈ lectureIds (this f) ∨ x ∈ calls.*1.
Proof.
  intros Hcanon. revert f.
  induction Hcanon as [|[lectureId timeSpent] calls Hc _ IH]; intros f Hnd.
  - cbn. split; [done |]. intros x. rewrite elem_of_nil. tauto.
  - rewrite completeAll_cons. cbn [fst snd] in *.
    destruct (IH (completeLecture lectureId timeSpent f).2) as [Hnd' Hin].
    { by apply completeLecture_nodup. }
    split; [exact Hnd' |]. intros x. rewrite Hin.
    rewrite completeLecture_ids, Hc. cbn. rewrite elem_of_cons.
    case_decide as Hmem.
    + split; [tauto |]. intros [? | [-> | ?]]; tauto.
    + rewrite elem_of_app, list_elem_of_singleton. tauto.
Qed.

Lemma perform_identity op f : sameIdentity (this f) (this (perform op f).2).
Proof.
  assert (∀ g, sameIdentity (this f) (this g) →
               sameIdentity (this f) (this (save g).2)) as Hsave.
  { intros g Hg. rewrite save_this.
    by destruct (afterPreSave_cases g) as [-> | ->]. }
  destruct op as [lectureId timeSpent | | reason | stars text | st amount];
    cbn [perform].
  - rewrite completeLecture_eq. destruct (refused lectureId (this f)); [done |].
    apply Hsave. cbn. unfold afterUpdateProgress, afterPush.
    destruct (_ =? -1); [destruct (castObjectId lectureId) |]; cbn;
      destruct (0 <? _); done.
  - rewrite issueCertificate_eq. destruct (_ && _); [by apply Hsave | done].
  - rewrite requestRefund_eq.
    destruct (refundRequested (this f)); [done | by apply Hsave].
  - rewrite addReviewToEnrollment_eq. by apply Hsave.
  - rewrite updateRefundStatus_eq. apply Hsave. cbn.
    by destruct (truthyNumber amount).
Qed.

Lemma sameIdentity_trans a b c : sameIdentity a b → sameIdentity b c → sameIdentity a c.
Proof. unfold sameIdentity. intros ? ?. destruct_and!. split_and!; congruence. Qed.

Lemma lifecycle_completed e :
  lifecycle e → (status e = completed ↔ progress e = 100).
Proof.
  intros (_ & Hdone & Hopen). split.
  - intros Hs. destruct (decide (progress e = 100)) as [|Hp]; [done |].
    destruct (Hopen Hp). congruence.
  - intros Hp. by apply Hdone.
Qed.

(** Under the lifecycle shape every operation other than a lecture
    completion leaves progress, lectures, status and completion date. *)
Lemma perform_advanced op f :
  lifecycle (this f) → advanced (this f) (this (perform op f).2).
Proof.
  intros Hlife.
  assert (advanced (this f) (this f)) as Hrefl by (by split_and!).
  assert (∀ g, progress (this g) = progress (this f) →
               completedLectures (this g) = completedLectures (this f) →
               status (this g) = status (this f) →
               completionDate (this g) = completionDate (this f) →
               advanced (this f) (this (save g).2)) as Hsave.
  { intros g Hp Hl Hs Hc.
    assert (lifecycle (this g)) as Hg
      by (unfold lifecycle in *; by rewrite Hp, Hl, Hs, Hc).
    rewrite lifecycle_save by done.
    split_and!; [done | lia | by rewrite Hl | by rewrite Hs, Hc]. }
  destruct op as [lectureId timeSpent | | reason | stars text | st amount];
    cbn [perform].
  - destruct (refused lectureId (this f)) eqn:Hr;
      [by rewrite completeLecture_eq, Hr |].
    pose proof (lifecycle_completeLecture lectureId timeSpent f Hlife) as Hlife'.
    pose proof (completeLecture_progress lectureId timeSpent f Hr) as Hp.
    pose proof (completeLecture_lectures lectureId timeSpent f) as Hl.
    pose proof (afterPush_grows lectureId timeSpent f) as Hgrow.
    destruct Hlife as (Hrule & Hdone & Hopen).
    split_and!; [done | lia | by rewrite Hl |].
    intros Hs.
    assert (progress (this f) = 100) as H100.
    { destruct (decide (progress (this f) = 100)) as [|Hne]; [done |].
      destruct (Hopen Hne). congruence. }
    rewrite completeLecture_eq, Hr, save_this.
    destruct (completeLecture_status lectureId timeSpent f) as [Hst Hcd].
    rewrite afterPreSave_idle by (right; congruence). by rewrite Hst, Hcd.
  - rewrite issueCertificate_eq. destruct (_ && _); [by apply Hsave | done].
  - rewrite requestRefund_eq.
    destruct (refundRequested (this f)); [done | by apply Hsave].
  - rewrite addReviewToEnrollment_eq. by apply Hsave.
  - rewrite updateRefundStatus_eq.
    apply Hsave; cbn; by destruct (truthyNumber amount).
Qed.

Lemma advanced_trans a b c : advanced a b → advanced b c → advanced a c.
Proof.
  intros (_ & Hp & Hl & Hs) (Hlife & Hp' & Hl' & Hs').
  split_and!; [done | lia | lia |].
  intros Ha. destruct (Hs Ha) as [Hb Hd]. destruct (Hs' Hb) as [Hc Hd'].
  split; congruence.
Qed.

Lemma perform_certified op f : certified (this f) → certified (this (perform op f).2).
Proof.
  intros [Hlife Hcert].
  destruct (perform_advanced op f Hlife) as (Hlife' & Hmono & _).
  split; [done |].
  assert (progress (this (perform op f).2) ≤ 100) as Hle.
  { destruct Hlife' as (-> & _). lia. }
  destruct op as [lectureId timeSpent | | reason | stars text | st amount];
    cbn [perform] in *.
  - destruct (completeLecture_fields lectureId timeSpent f) as (-> & _).
    intros Hi. specialize (Hcert Hi). lia.
  - rewrite issueCertificate_eq in *.
    destruct (progress (this f) =? 100) eqn:Hp; cbn [andb] in *; [| done].
    apply Z.eqb_eq in Hp. intros _. lia.
  - rewrite requestRefund_eq in *.
    destruct (refundRequested (this f)); [done |].
    destruct (save_fields (afterRequest reason f)) as (_ & _ & -> & _).
    intros Hi. specialize (Hcert Hi). lia.
  - rewrite addReviewToEnrollment_eq in *.
    destruct (save_fields (afterReview stars text f)) as (_ & _ & -> & _).
    intros Hi. specialize (Hcert Hi). lia.
  - rewrite updateRefundStatus_eq in *.
    destruct (save_fields (afterRefundStatus st amount f)) as (_ & _ & -> & _).
    intros Hi. cbn in Hi.
    assert (Certificate.issued (certificate (this f)) = true) as Hi'
      by (by destruct (truthyNumber amount)).
    specialize (Hcert Hi'). lia.
Qed.

(** * Further facts about the routes *)

Lemma call_outcome op id e w :
  (∃ msg, call id e false (perform op) w = (Thrown msg, w))
  ∨ (call id e false (perform op) w
     = (Returned (this (perform op (mkFrame id e false w)).2),
        world (perform op (mkFrame id e false w)).2)
     ∧ enrollments (world (perform op (mkFrame id e false w)).2)
       = <[id := this (perform op (mkFrame id e false w)).2]> (enrollments w)).
Proof.
  rewrite call_eq.
  destruct (perform_outcome op (mkFrame id e false w) eq_refl) as [[msg Ht] | [Hret Hst]].
  - left. exists msg. by rewrite Ht.
  - right. by rewrite Hret.
Qed.

Lemma perform_courses op f : courses (world (perform op f).2) = courses (world f).
Proof.
  assert (∀ g, courses (world (save g).2) = courses (world g)) as Hsave.
  { intros g. unfold save, bind. rewrite preSave_eq. unfold persist.
    assert (courses (world (afterPreSave g)) = courses (world g)) as Hc
      by (unfold afterPreSave; by destruct (_ && _)).
    destruct (isNew (afterPreSave g)); [destruct (_ || _) |]; cbn; by rewrite ?Hc. }
  destruct op as [lectureId timeSpent | | reason | stars text | st amount];
    cbn [perform].
  - rewrite completeLecture_eq. destruct (refused lectureId (this f)); [done |].
    rewrite Hsave. cbn. unfold afterUpdateProgress, afterPush.
    destruct (_ =? -1); [destruct (castObjectId lectureId) |]; cbn;
      destruct (0 <? _); done.
  - rewrite issueCertificate_eq. destruct (_ && _); [by rewrite Hsave | done].
  - rewrite requestRefund_eq.
    destruct (refundRequested (this f)); [done | by rewrite Hsave].
  - rewrite addReviewToEnrollment_eq. by rewrite Hsave.
  - rewrite updateRefundStatus_eq. by rewrite Hsave.
Qed.

Ltac route_result route :=
  let r := fresh "r" in
  let w' := fresh "w'" in
  let Heq := fresh "Heq" in
  destruct route as [r w'] eqn:Heq; cbn [fst snd]; revert Heq.

Ltac answered := by intros [= <- <-].
Ltac declined := by intros [= <- <-].

Lemma putProgress_failure req w :
  success (putProgress req w).1 = false → (putProgress req w).2 = w.
Proof.
  route_result (putProgress req w). unfold putProgress, tryCatch.
  destruct (negb _); [answered |].
  unfold bind at 1. rewrite findById_eq.
  destruct (castObjectId (paramsId req)) as [id|]; [| answered].
  destruct (enrollments w !! id) as [e|];
    cbn [fmap option_fmap option_map]; [| answered].
  destruct (negb _); [answered |].
  destruct (call_outcome (CompleteLecture (ProgressBody.lectureId (body req))
                            (Some (default 0 (ProgressBody.timeSpent (body req)))))
              id e w) as [[msg Hcall] | [Hcall _]];
    cbn [perform] in Hcall; unfold bind; rewrite Hcall; answered.
Qed.

Lemma postCertificate_failure req w :
  success (postCertificate req w).1 = false → (postCertificate req w).2 = w.
Proof.
  route_result (postCertificate req w). unfold postCertificate, tryCatch.
  unfold bind at 1. rewrite findById_eq.
  destruct (castObjectId (paramsId req)) as [id|]; [| answered].
  destruct (enrollments w !! id) as [e|];
    cbn [fmap option_fmap option_map]; [| answered].
  destruct (negb _); [answered |].
  destruct (call_outcome IssueCertificate id e w)
    as [[msg Hcall] | [Hcall _]];
    cbn [perform] in Hcall; unfold bind; rewrite Hcall; answered.
Qed.

Lemma postRefund_failure req w :
  success (postRefund req w).1 = false → (postRefund req w).2 = w.
Proof.
  route_result (postRefund req w). unfold postRefund, tryCatch.
  destruct (negb _); [answered |].
  unfold bind at 1. rewrite findById_eq.
  destruct (castObjectId (paramsId req)) as [id|]; [| answered].
  destruct (enrollments w !! id) as [e|];
    cbn [fmap option_fmap option_map]; [| answered].
  destruct (negb _); [answered |].
  destruct (call_outcome (RequestRefund (RefundBody.reason (body req)))
              id e w) as [[msg Hcall] | [Hcall _]];
    cbn [perform] in Hcall; unfold bind; rewrite Hcall; answered.
Qed.

Lemma putRefundStatus_failure req w :
  success (putRefundStatus req w).1 = false → (putRefundStatus req w).2 = w.
Proof.
  route_result (putRefundStatus req w). unfold putRefundStatus, tryCatch.
  destruct (negb _); [answered |].
  unfold bind at 1. rewrite findById_eq.
  destruct (castObjectId (paramsId req)) as [id|]; [| answered].
  destruct (enrollments w !! id) as [e|];
    cbn [fmap option_fmap option_map]; [| answered].
  destruct (RefundStatus.ofString _) as [st|]; [| answered].
  destruct (call_outcome (UpdateRefundStatus st (RefundStatusBody.refundAmount (body req)))
              id e w) as [[msg Hcall] | [Hcall _]];
    cbn [perform] in Hcall; unfold bind; rewrite Hcall; answered.
Qed.

Section RouteFacts2.
Variable courseSaveFails : ObjectId → Course.t → gmap string Course.t → option string.
Variable populateFails : ObjectId → Enrollment → World → option string.
Variable Course_addReview :
  ObjectId → string → Z → option string → M (gmap string Course.t) unit.

Lemma postEnrollments_conflict req w courseRef c :
  EnrollBody.validationResult (body req) = [] →
  castObjectId (EnrollBody.courseId (body req)) = Some courseRef →
  courses w !! courseRef = Some c →
  Course.status c = "published" →
  pairTaken (userId req) courseRef (enrollments w) = true →
  postEnrollments courseSaveFails populateFails req w
  = (fail 400 "You are already enrolled in this course", w).
Proof.
  intros Hvalid Hcast Hc Hpub Hen. unfold postEnrollments, tryCatch. rewrite Hvalid.
  cbn [isEmpty negb].
  unfold bind at 1. rewrite Course_findById_eq, Hcast, Hc.
  cbn [fmap option_fmap option_map]. rewrite Hpub.
  change (negb ("published" =? "published")%string) with false. cbn iota.
  apply (findOne_found _ _ _ _ Hcast) in Hen as [e He].
  unfold bind at 1. by rewrite He.
Qed.

(** The enroll route either answers a failure that has written nothing,
    or has passed every check and reached the write of the enrollment. *)
Lemma postEnrollments_cases req w :
  let r := postEnrollments courseSaveFails populateFails req w in
  (success r.1 = false ∧ enrollments r.2 = enrollments w ∧ courses r.2 = courses w)
  ∨ ∃ courseRef c,
      EnrollBody.validationResult (body req) = []
      ∧ castObjectId (EnrollBody.courseId (body req)) = Some courseRef
      ∧ courses w !! courseRef = Some c
      ∧ Course.status c = "published"
      ∧ pairTaken (userId req) courseRef (enrollments w) = false
      ∧ enrollments w !! oidgen w (oids w) = None.
Proof.
  cbn zeta.
  destruct (EnrollBody.validationResult (body req)) as [|err errs] eqn:Hvalid; cycle 1.
  { left.
    assert (postEnrollments courseSaveFails populateFails req w
            = (validationFailed (err :: errs), w)) as ->; [| done].
    unfold postEnrollments, tryCatch. by rewrite Hvalid. }
  destruct (castObjectId (EnrollBody.courseId (body req))) as [courseRef|] eqn:Hcast;
    cycle 1.
  { left.
    assert (postEnrollments courseSaveFails populateFails req w
            = (fail 500 "Server error while enrolling in course", w)) as ->; [| done].
    unfold postEnrollments, tryCatch. rewrite Hvalid. cbn [isEmpty negb].
    unfold bind at 1. by rewrite Course_findById_eq, Hcast. }
  destruct (courses w !! courseRef) as [c|] eqn:Hc; cycle 1.
  { left.
    assert (postEnrollments courseSaveFails populateFails req w
            = (fail 404 "Course not found", w)) as ->; [| done].
    unfold postEnrollments, tryCatch. rewrite Hvalid. cbn [isEmpty negb].
    unfold bind at 1. by rewrite Course_findById_eq, Hcast, Hc. }
  destruct (decide (Course.status c = "published")) as [Hpub|Hpub]; cycle 1.
  { left.
    assert (postEnrollments courseSaveFails populateFails req w
            = (fail 400 "Course is not available for enrollment", w)) as ->; [| done].
    unfold postEnrollments, tryCatch. rewrite Hvalid. cbn [isEmpty negb].
    unfold bind at 1. rewrite Course_findById_eq, Hcast, Hc.
    cbn [fmap option_fmap option_map].
    apply String.eqb_neq in Hpub. by rewrite Hpub. }
  destruct (pairTaken (userId req) courseRef (enrollments w)) eqn:Hpair.
  { left. by rewrite (postEnrollments_conflict req w courseRef c). }
  destruct (enrollments w !! oidgen w (oids w)) as [old|] eqn:Hfresh;
    [| right; by exists courseRef, c].
  left.
  assert (postEnrollments courseSaveFails populateFails req w
          = (fail 500 "Server error while enrolling in course",
             mkWorld (enrollments w) (courses w) (clock w) (S (S (S (ticks w))))
               (oidgen w) (S (oids w)))) as ->; [| done].
  unfold postEnrollments, tryCatch. rewrite Hvalid. cbn [isEmpty negb].
  unfold bind at 1. rewrite Course_findById_eq, Hcast, Hc.
  cbn [fmap option_fmap option_map]. rewrite Hpub.
  change (negb ("published" =? "published")%string) with false. cbn iota.
  unfold bind at 1. rewrite (findOne_eq _ _ courseRef) by done.
  unfold bind at 1. unfold newDate_world at 1.
  destruct (EnrollBody_valid _ Hvalid) as (_ & [method ->] & _).
  unfold bind at 1. unfold newEnrollment. rewrite Hcast.
  unfold newObjectId, newDate_world.
  cbn -[call Course_save populate]. unfold bind at 1.
  rewrite call_eq. unfold save, bind. rewrite preSave_eq.
  rewrite afterPreSave_idle by (by left). unfold persist. cbn.
  rewrite Hfresh. by rewrite bool_decide_true by (by eexists).
Qed.

(** A failure of the enroll route other than a 500 has written nothing. *)
Lemma postEnrollments_failure req w :
  let r := postEnrollments courseSaveFails populateFails req w in
  success r.1 = false → code r.1 ≠ 500%nat →
  enrollments r.2 = enrollments w ∧ courses r.2 = courses w.
Proof.
  cbn zeta.
  destruct (postEnrollments_cases req w)
    as [(_ & Hen & Hcs) | (courseRef & c & Hvalid & Hcast & Hc & Hpub & Hpair & Hfresh)];
    [done |].
  destruct (postEnrollments_created courseSaveFails populateFails req w courseRef c
              Hvalid Hcast Hc Hpub Hpair Hfresh) as (method & e & _ & _ & ->).
  cbn zeta. destruct (courseSaveFails _ _ _); [done |].
  by destruct (populateFails _ _ _).
Qed.

(** A successful enrollment went through every check of the route, and
    neither step after the write of the enrollment failed. *)
Lemma postEnrollments_success req w :
  success (postEnrollments courseSaveFails populateFails req w).1 = true →
  ∃ courseRef c,
    EnrollBody.validationResult (body req) = []
    ∧ castObjectId (EnrollBody.courseId (body req)) = Some courseRef
    ∧ courses w !! courseRef = Some c
    ∧ Course.status c = "published"
    ∧ pairTaken (userId req) courseRef (enrollments w) = false
    ∧ enrollments w !! oidgen w (oids w) = None
    ∧ courseSaveFails courseRef
        (Course.set_enrollmentCount (Course.enrollmentCount c + 1) c) (courses w) = None.
Proof.
  intros Hok.
  destruct (postEnrollments_cases req w)
    as [(Hno & _) | (courseRef & c & Hvalid & Hcast & Hc & Hpub & Hpair & Hfresh)];
    [congruence |].
  exists courseRef, c. split_and!; try done.
  destruct (postEnrollments_created courseSaveFails populateFails req w courseRef c
              Hvalid Hcast Hc Hpub Hpair Hfresh) as (method & e & _ & _ & Heq).
  rewrite Heq in Hok. cbn zeta in Hok.
  by destruct (courseSaveFails _ _ _).
Qed.

(** The review route on the owner's not yet reviewed enrollment: the
    review is saved, and the answer depends on the course collaborator. *)
Lemma postReview_eq req w id e :
  ReviewBody.validationResult (body req) = [] →
  castObjectId (paramsId req) = Some id →
  enrollments w !! id = Some e →
  student e = userId req →
  Rating.given (rating e) = false →
  let saved := (save (afterReview (ReviewBody.rating (body req))
                        (ReviewBody.review (body req))
                        (mkFrame id e false w))).2 in
  let told := Course_addReview (course e) (userId req) (ReviewBody.rating (body req))
                (ReviewBody.review (body req)) (courses w) in
  postReview Course_addReview req w
  = (match told.1 with
     | Returned _ => ok 200 "Review added successfully" (this saved)
     | Thrown _ => fail 500 "Server error while adding review"
     end,
     set_courses told.2 (world saved)).
Proof.
  intros Hvalid Hid Hfound Howner Hgiven. cbn zeta.
  unfold postReview, tryCatch. rewrite Hvalid. cbn [isEmpty negb].
  unfold bind at 1. rewrite findById_eq, Hid, Hfound.
  cbn [fmap option_fmap option_map].
  unfold toString. rewrite Howner, String.eqb_refl. cbn [negb].
  rewrite Hgiven. unfold bind at 1.
  rewrite call_eq, addReviewToEnrollment_eq.
  set (g := afterReview (ReviewBody.rating (body req)) (ReviewBody.review (body req))
              (mkFrame id e false w)).
  rewrite (save_eq g) by done. cbn [fst snd].
  destruct (save_owner g) as [_ Hcourse]. rewrite save_eq in Hcourse by done.
  cbn [snd] in Hcourse. unfold bind, inCourses.
  assert (courses (world (afterPersist (afterPreSave g))) = courses w) as Hcs.
  { pose proof (perform_courses (AddReview (ReviewBody.rating (body req))
                                   (ReviewBody.review (body req)))
                  (mkFrame id e false w)) as Hpc.
    cbn [perform] in Hpc. rewrite addReviewToEnrollment_eq in Hpc.
    fold g in Hpc. by rewrite save_eq in Hpc by done. }
  rewrite Hcourse, Hcs. cbn [course afterReview this set_rating].
  by destruct (Course_addReview _ _ _ _ _) as [[[]|msg] cs].
Qed.

Lemma call_updated op id e w :
  enrollments w !! id = Some e →
  updated (enrollments w) (enrollments (call id e false (perform op) w).2).
Proof.
  intros Hl.
  destruct (call_outcome op id e w) as [[msg Hcall] | [Hcall Hst]]; rewrite Hcall.
  - by constructor 1.
  - destruct (perform_identity op (mkFrame id e false w)) as (Hs & Hc & _).
    by econstructor 2.
Qed.

Ltac nothing_updated := intros [= <- <-]; by constructor 1.
Ltac via_call op Hl :=
  let Hw := fresh "Hw" in
  pose proof (call_updated op _ _ _ Hl) as Hw; cbn [perform] in Hw;
  unfold bind;
  destruct (call _ _ _ _ _) as [[?|?] ?]; cbn in *; intros [= <- <-]; exact Hw.

(** A request to any route but the enroll route updates in place. *)
Lemma handle_updated c w :
  (∀ req, c ≠ PostEnrollments req) →
  updated (enrollments w)
    (enrollments (handle courseSaveFails populateFails Course_addReview c w).2).
Proof.
  intros Hroute. destruct c as [req | req | req | req | req | req]; cbn [handle].
  - by destruct (Hroute req).
  - route_result (putProgress req w). unfold putProgress, tryCatch.
    destruct (negb _); [nothing_updated |].
    unfold bind at 1. rewrite findById_eq.
    destruct (castObjectId (paramsId req)) as [id|] eqn:Hid; [| nothing_updated].
    destruct (enrollments w !! id) as [e|] eqn:Hl;
      cbn [fmap option_fmap option_map]; [| nothing_updated].
    destruct (negb _); [nothing_updated |].
    via_call (CompleteLecture (ProgressBody.lectureId (body req))
                (Some (default 0 (ProgressBody.timeSpent (body req))))) Hl.
  - route_result (postReview Course_addReview req w). unfold postReview, tryCatch.
    destruct (negb _); [nothing_updated |].
    unfold bind at 1. rewrite findById_eq.
    destruct (castObjectId (paramsId req)) as [id|] eqn:Hid; [| nothing_updated].
    destruct (enrollments w !! id) as [e|] eqn:Hl;
      cbn [fmap option_fmap option_map]; [| nothing_updated].
    destruct (negb _); [nothing_updated |].
    destruct (Rating.given (rating e)); [nothing_updated |].
    pose proof (call_updated (AddReview (ReviewBody.rating (body req))
                                (ReviewBody.review (body req))) _ _ _ Hl) as Hw.
    cbn [perform] in Hw. unfold bind.
    destruct (call _ _ _ _ _) as [[e1|?] w1]; cbn in *; [| intros [= <- <-]; exact Hw].
    pose proof (inCourses_enrollments
                  (Course_addReview (course e1) (userId req) (ReviewBody.rating (body req))
                     (ReviewBody.review (body req))) w1) as Hen.
    destruct (inCourses _ _) as [[?|?] w2]; cbn in *; intros [= <- <-]; by rewrite Hen.
  - route_result (postCertificate req w). unfold postCertificate, tryCatch.
    unfold bind at 1. rewrite findById_eq.
    destruct (castObjectId (paramsId req)) as [id|] eqn:Hid; [| nothing_updated].
    destruct (enrollments w !! id) as [e|] eqn:Hl;
      cbn [fmap option_fmap option_map]; [| nothing_updated].
    destruct (negb _); [nothing_updated |].
    via_call IssueCertificate Hl.
  - route_result (postRefund req w). unfold postRefund, tryCatch.
    destruct (negb _); [nothing_updated |].
    unfold bind at 1. rewrite findById_eq.
    destruct (castObjectId (paramsId req)) as [id|] eqn:Hid; [| nothing_updated].
    destruct (enrollments w !! id) as [e|] eqn:Hl;
      cbn [fmap option_fmap option_map]; [| nothing_updated].
    destruct (negb _); [nothing_updated |].
    via_call (RequestRefund (RefundBody.reason (body req))) Hl.
  - route_result (putRefundStatus req w). unfold putRefundStatus, tryCatch.
    destruct (negb _); [nothing_updated |].
    unfold bind at 1. rewrite findById_eq.
    destruct (castObjectId (paramsId req)) as [id|] eqn:Hid; [| nothing_updated].
    destruct (enrollments w !! id) as [e|] eqn:Hl;
      cbn [fmap option_fmap option_map]; [| nothing_updated].
    destruct (RefundStatus.ofString _) as [st|]; [| nothing_updated].
    via_call (UpdateRefundStatus st (RefundStatusBody.refundAmount (body req))) Hl.
Qed.

Lemma postEnrollments_written req w :
  written (enrollments w)
    (enrollments (postEnrollments courseSaveFails populateFails req w).2).
Proof.
  destruct (postEnrollments_cases req w)
    as [(_ & Hen & _) | (courseRef & c & Hvalid & Hcast & Hc & Hpub & Hpair & Hfresh)].
  - by do 2 constructor 1.
  - destruct (postEnrollments_created courseSaveFails populateFails req w courseRef c
                Hvalid Hcast Hc Hpub Hpair Hfresh) as (method & e & _ & He & ->).
    assert (written (enrollments w) (<[oidgen w (oids w) := e]> (enrollments w))) as Hw.
    { econstructor 2; cycle 3; [reflexivity | done | by subst e | by subst e]. }
    cbn zeta. destruct (courseSaveFails _ _ _); [exact Hw |].
    by destruct (populateFails _ _ _).
Qed.

Lemma handle_written c w :
  written (enrollments w)
    (enrollments (handle courseSaveFails populateFails Course_addReview c w).2).
Proof.
  destruct c as [req | req | req | req | req | req];
    [apply postEnrollments_written | constructor 1; by apply handle_updated ..].
Qed.

Lemma call_courses op id e w :
  courses (call id e false (perform op) w).2 = courses w.
Proof.
  rewrite call_eq.
  pose proof (perform_courses op (mkFrame id e false w)) as Hc.
  by destruct (perform op (mkFrame id e false w)) as [[] ?].
Qed.

Ltac courses_via_call op :=
  let Hc := fresh "Hc" in
  unfold bind;
  match goal with
  | |- context [call ?id ?e false _ ?w] =>
      pose proof (call_courses op id e w) as Hc; cbn [perform] in Hc;
      destruct (call id e false _ w) as [[?|?] ?]; cbn in *; intros [= <- <-]; exact Hc
  end.

(** The course collection after a request: as it was, or, for a review,
    as the course collaborator left it. *)
Lemma handle_courses c w :
  (∀ req, c ≠ PostEnrollments req) →
  courses (handle courseSaveFails populateFails Course_addReview c w).2 = courses w
  ∨ ∃ courseRef user rating review,
      courses (handle courseSaveFails populateFails Course_addReview c w).2
      = (Course_addReview courseRef user rating review (courses w)).2.
Proof.
  intros Hroute. destruct c as [req | req | req | req | req | req]; cbn [handle].
  - by destruct (Hroute req).
  - left. route_result (putProgress req w). unfold putProgress, tryCatch.
    destruct (negb _); [declined |].
    unfold bind at 1. rewrite findById_eq.
    destruct (castObjectId (paramsId req)) as [id|] eqn:Hid; [| declined].
    destruct (enrollments w !! id) as [e|];
      cbn [fmap option_fmap option_map]; [| declined].
    destruct (negb _); [declined |].
    courses_via_call (CompleteLecture (ProgressBody.lectureId (body req))
                        (Some (default 0 (ProgressBody.timeSpent (body req))))).
  - route_result (postReview Course_addReview req w). unfold postReview, tryCatch.
    destruct (negb _); [intros [= <- <-]; by left |].
    unfold bind at 1. rewrite findById_eq.
    destruct (castObjectId (paramsId req)) as [id|] eqn:Hid; [| intros [= <- <-]; by left].
    destruct (enrollments w !! id) as [e|];
      cbn [fmap option_fmap option_map]; [| intros [= <- <-]; by left].
    destruct (negb _); [intros [= <- <-]; by left |].
    destruct (Rating.given (rating e)); [intros [= <- <-]; by left |].
    pose proof (call_courses (AddReview (ReviewBody.rating (body req))
                                (ReviewBody.review (body req))) id e w) as Hc.
    cbn [perform] in Hc. unfold bind.
    destruct (call _ _ _ _ _) as [[e1|?] w1]; cbn in *; [| intros [= <- <-]; by left].
    intros Heq. right.
    exists (course e1), (userId req), (ReviewBody.rating (body req)),
      (ReviewBody.review (body req)).
    revert Heq. unfold inCourses. rewrite Hc.
    destruct (Course_addReview _ _ _ _ _) as [[?|?] cs]; cbn; by intros [= <- <-].
  - left. route_result (postCertificate req w). unfold postCertificate, tryCatch.
    unfold bind at 1. rewrite findById_eq.
    destruct (castObjectId (paramsId req)) as [id|] eqn:Hid; [| declined].
    destruct (enrollments w !! id) as [e|];
      cbn [fmap option_fmap option_map]; [| declined].
    destruct (negb _); [declined |].
    courses_via_call IssueCertificate.
  - left. route_result (postRefund req w). unfold postRefund, tryCatch.
    destruct (negb _); [declined |].
    unfold bind at 1. rewrite findById_eq.
    destruct (castObjectId (paramsId req)) as [id|] eqn:Hid; [| declined].
    destruct (enrollments w !! id) as [e|];
      cbn [fmap option_fmap option_map]; [| declined].
    destruct (negb _); [declined |].
    courses_via_call (RequestRefund (RefundBody.reason (body req))).
  - left. route_result (putRefundStatus req w). unfold putRefundStatus, tryCatch.
    destruct (negb _); [declined |].
    unfold bind at 1. rewrite findById_eq.
    destruct (castObjectId (paramsId req)) as [id|] eqn:Hid; [| declined].
    destruct (enrollments w !! id) as [e|];
      cbn [fmap option_fmap option_map]; [| declined].
    destruct (RefundStatus.ofString _) as [st|]; [| declined].
    courses_via_call (UpdateRefundStatus st (RefundStatusBody.refundAmount (body req))).
Qed.

Lemma written_uniquePairs m m' : written m m' → uniquePairs m → uniquePairs m'.
Proof.
  intros [[-> | id e e' Hl Hs Hc ->] | id e' Hfresh Hpair _ ->] Huniq; [done | |].
  - intros i j a b Hi Hj Hsab Hcab.
    rewrite lookup_insert in Hi, Hj.
    destruct (decide (id = i)) as [<-|Hi'], (decide (id = j)) as [<-|Hj'];
      simplify_eq; [done | | |].
    + apply (Huniq id j e b); congruence.
    + apply (Huniq i id a e); congruence.
    + by apply (Huniq i j a b).
  - apply not_true_iff_false in Hpair. rewrite pairTaken_true in Hpair.
    intros i j a b Hi Hj Hsab Hcab.
    rewrite lookup_insert in Hi, Hj.
    destruct (decide (id = i)) as [<-|Hi'], (decide (id = j)) as [<-|Hj'];
      simplify_eq; [done | | |].
    + exfalso. apply Hpair. by exists j, b.
    + exfalso. apply Hpair. by exists i, a.
    + by apply (Huniq i j a b).
Qed.

Ltac stored_by op id e w :=
  let msg := fresh "msg" in
  let Hcall := fresh "Hcall" in
  let Hst := fresh "Hst" in
  destruct (call_outcome op id e w) as [[msg Hcall] | [Hcall Hst]];
  cbn [perform] in Hcall; unfold bind; rewrite Hcall; [declined |];
  intros [= <- <-] _; eexists; split; [reflexivity |];
  cbn [perform] in Hst; cbn [snd default]; rewrite Hst; apply lookup_insert_eq.

Lemma handle_answer c w :
  success (handle courseSaveFails populateFails Course_addReview c w).1 = true →
  ∃ e, data (handle courseSaveFails populateFails Course_addReview c w).1 = Some e
       ∧ enrollments (handle courseSaveFails populateFails Course_addReview c w).2
           !! target c w = Some e.
Proof.
  destruct c as [req | req | req | req | req | req]; cbn [handle target]; unfold named.
  - intros Hok.
    destruct (postEnrollments_success req w Hok)
      as (courseRef & c & Hvalid & Hcast & Hc & Hpub & Hpair & Hfresh & Hsaved).
    destruct (postEnrollments_created courseSaveFails populateFails req w courseRef c
                Hvalid Hcast Hc Hpub Hpair Hfresh) as (method & e & _ & _ & Heq).
    rewrite Heq in Hok |- *. cbn zeta in *. rewrite Hsaved in *.
    destruct (populateFails _ _ _); [done |].
    exists e. split; [done |]. apply lookup_insert_eq.
  - route_result (putProgress req w). unfold putProgress, tryCatch.
    destruct (negb _); [declined |].
    unfold bind at 1. rewrite findById_eq.
    destruct (castObjectId (paramsId req)) as [id|] eqn:Hid; [| declined].
    destruct (enrollments w !! id) as [e|] eqn:Hl;
      cbn [fmap option_fmap option_map]; [| declined].
    destruct (negb _); [declined |].
    stored_by (CompleteLecture (ProgressBody.lectureId (body req))
                 (Some (default 0 (ProgressBody.timeSpent (body req)))))
              id e w.
  - route_result (postReview Course_addReview req w). unfold postReview, tryCatch.
    destruct (negb _); [declined |].
    unfold bind at 1. rewrite findById_eq.
    destruct (castObjectId (paramsId req)) as [id|] eqn:Hid; [| declined].
    destruct (enrollments w !! id) as [e|] eqn:Hl;
      cbn [fmap option_fmap option_map]; [| declined].
    destruct (negb _); [declined |].
    destruct (Rating.given (rating e)); [declined |].
    destruct (call_outcome (AddReview (ReviewBody.rating (body req))
                              (ReviewBody.review (body req))) id e w)
      as [[msg Hcall] | [Hcall Hst]]; cbn [perform] in Hcall; unfold bind;
      rewrite Hcall; [declined |].
    cbn [perform] in Hst.
    set (f' := (addReviewToEnrollment (ReviewBody.rating (body req))
                  (ReviewBody.review (body req)) (mkFrame id e false w)).2) in *.
    pose proof (inCourses_enrollments
                  (Course_addReview (course (this f')) (userId req)
                     (ReviewBody.rating (body req)) (ReviewBody.review (body req)))
                  (world f')) as Hen.
    destruct (inCourses _ _) as [[?|?] w2]; cbn in *; [| declined].
    intros [= <- <-] _. eexists. split; [reflexivity |].
    rewrite Hen, Hst. apply lookup_insert_eq.
  - route_result (postCertificate req w). unfold postCertificate, tryCatch.
    unfold bind at 1. rewrite findById_eq.
    destruct (castObjectId (paramsId req)) as [id|] eqn:Hid; [| declined].
    destruct (enrollments w !! id) as [e|] eqn:Hl;
      cbn [fmap option_fmap option_map]; [| declined].
    destruct (negb _); [declined |].
    stored_by IssueCertificate id e w.
  - route_result (postRefund req w). unfold postRefund, tryCatch.
    destruct (negb _); [declined |].
    unfold bind at 1. rewrite findById_eq.
    destruct (castObjectId (paramsId req)) as [id|] eqn:Hid; [| declined].
    destruct (enrollments w !! id) as [e|] eqn:Hl;
      cbn [fmap option_fmap option_map]; [| declined].
    destruct (negb _); [declined |].
    stored_by (RequestRefund (RefundBody.reason (body req))) id e w.
  - route_result (putRefundStatus req w). unfold putRefundStatus, tryCatch.
    destruct (negb _); [declined |].
    unfold bind at 1. rewrite findById_eq.
    destruct (castObjectId (paramsId req)) as [id|] eqn:Hid; [| declined].
    destruct (enrollments w !! id) as [e|] eqn:Hl;
      cbn [fmap option_fmap option_map]; [| declined].
    destruct (RefundStatus.ofString _) as [st|]; [| declined].
    stored_by (UpdateRefundStatus st (RefundStatusBody.refundAmount (body req)))
              id e w.
Qed.

Lemma run_written cs w :
  uniquePairs (enrollments w) →
  uniquePairs (enrollments (run courseSaveFails populateFails Course_addReview cs w)).
Proof.
  revert w. induction cs as [|c cs IH]; intros w Hu; [done |].
  cbn [run]. apply IH. by eapply written_uniquePairs, Hu; apply handle_written.
Qed.

End RouteFacts2.

Lemma putRefundStatus_eq req w id e new :
  RefundStatusBody.validationResult (body req) = [] →
  castObjectId (paramsId req) = Some id →
  enrollments w !! id = Some e →
  RefundStatus.ofString (RefundStatusBody.refundStatus (body req)) = Some new →
  let saved := (save (afterRefundStatus new (RefundStatusBody.refundAmount (body req))
                        (mkFrame id e false w))).2 in
  putRefundStatus req w
  = (ok 200 "Refund status updated successfully" (this saved), world saved).
Proof.
  intros Hvalid Hid Hfound Hnew. cbn zeta.
  unfold putRefundStatus, tryCatch. rewrite Hvalid. cbn [isEmpty negb].
  unfold bind at 1. rewrite findById_eq, Hid, Hfound.
  cbn [fmap option_fmap option_map]. rewrite Hnew.
  unfold bind. rewrite call_eq, updateRefundStatus_eq. by rewrite save_eq.
Qed.

(** * Facts about the statics *)

Lemma sumZ_ones l : sumZ (λ _, 1) l = Z.of_nat (length l).
Proof. unfold sumZ. induction l as [|e l IH]; cbn [foldr length]; lia. Qed.

Lemma sumZ_condStatus s (l : list (ObjectId * Enrollment)) :
  sumZ (condStatus s) l.*2 = Z.of_nat (length (filter (λ kv, status kv.2 = s) l)).
Proof.
  induction l as [|[i e] l IH]; [done |].
  cbn [fmap list_fmap sumZ foldr snd]. fold (sumZ (condStatus s) l.*2). rewrite IH.
  rewrite filter_cons. cbn [snd]. unfold condStatus.
  case_bool_decide; case_decide; try done; cbn [length]; lia.
Qed.

Lemma statsOf_eq sumAmounts w :
  statsOf sumAmounts w
  = if decide (enrollments w = ∅) then Stats.mk 0 0 0 0%Qc
    else Stats.mk (Z.of_nat (size (enrollments w))) (countStatus active w)
           (countStatus completed w)
           (sumAmounts (map (λ e, Payment.amount (payment e))
                          (map_to_list (enrollments w)).*2)).
Proof.
  case_decide as Hempty.
  - unfold statsOf, getStats. cbn [fst]. by rewrite Hempty, map_to_list_empty.
  - unfold statsOf, getStats, countStatus. cbn [fst].
    rewrite <- !sumZ_condStatus.
    rewrite <- length_map_to_list, <- (length_fmap snd), <- sumZ_ones.
    destruct (map_to_list (enrollments w)) as [|kv l] eqn:Hl; [| done].
    by apply map_to_list_empty_iff in Hl.
Qed.

Lemma count_two_statuses (l : list (ObjectId * Enrollment)) :
  (length (filter (λ kv, status kv.2 = active) l)
   + length (filter (λ kv, status kv.2 = completed) l) ≤ length l)%nat.
Proof.
  induction l as [|[i e] l IH]; [done |].
  rewrite !filter_cons. cbn [snd]. destruct (status e); repeat case_decide; try done;
    cbn [length]; lia.
Qed.

Lemma countStatus_insert s w id e :
  enrollments w !! id = None →
  countStatus s (set_enrollments (<[id := e]> (enrollments w)) w)
  = countStatus s w + (if bool_decide (status e = s) then 1 else 0).
Proof.
  intros Hfresh. unfold countStatus. cbn [enrollments set_enrollments].
  rewrite (Permutation_length
             (filter_Permutation _ _ _ (map_to_list_insert _ _ e Hfresh))).
  rewrite filter_cons. cbn [snd]. case_decide; case_bool_decide; try done; cbn [length]; lia.
Qed.

Lemma elem_of_find (matches : Enrollment → Prop) `{∀ e, Decision (matches e)} w id e :
  (id, e) ∈ listedBy (Enrollment_find matches) w
  ↔ enrollments w !! id = Some e ∧ matches e.
Proof.
  unfold listedBy, Enrollment_find. cbn [fst].
  rewrite list_elem_of_filter, elem_of_map_to_list. cbn. tauto.
Qed.

Global Instance newerFirst_total : Total newerFirst.
Proof. intros a b. unfold newerFirst. lia. Qed.

Lemma lifecycle_active e : lifecycle e → (status e = active ↔ progress e ≠ 100).
Proof.
  intros (_ & Hdone & Hopen). split.
  - intros Hs Hp. destruct (Hdone Hp). congruence.
  - intros Hp. by apply Hopen.
Qed.

(** * The progress route, request after request *)

Lemma ProgressBody_valid b :
  ProgressBody.validationResult b = [] →
  ∃ lecture, castObjectId (ProgressBody.lectureId b) = Some lecture.
Proof.
  unfold ProgressBody.validationResult. rewrite !app_nil, !check_nil.
  intros [Hid _]. by apply isMongoId_cast in Hid as [lecture ?]; exists lecture.
Qed.

Lemma completeLecture_frame lectureId timeSpent f :
  isNew f = false →
  refused lectureId (this f) = false →
  let f' := (completeLecture lectureId timeSpent f).2 in
  completeLecture lectureId timeSpent f = (Returned tt, f')
  ∧ _id f' = _id f ∧ isNew f' = false
  ∧ enrollments (world f') !! _id f = Some (this f').
Proof.
  intros Hnew Hr. cbn zeta. rewrite completeLecture_eq, Hr.
  set (g := afterAccess (afterUpdateProgress (afterPush lectureId timeSpent f))).
  destruct (sameStore_completeLecture lectureId timeSpent f) as (Hid & Hn & Hen).
  fold g in Hid, Hn, Hen.
  rewrite save_eq by congruence. cbn [snd]. split_and!.
  - done.
  - cbn. by rewrite afterPreSave_id.
  - cbn. by rewrite afterPreSave_isNew, Hn.
  - cbn. rewrite afterPreSave_id, Hid. apply lookup_insert_eq.
Qed.

Lemma putProgress_eq req w id e :
  ProgressBody.validationResult (body req) = [] →
  castObjectId (paramsId req) = Some id →
  enrollments w !! id = Some e →
  student e = userId req →
  let f' := (completeLecture (ProgressBody.lectureId (body req))
               (Some (default 0 (ProgressBody.timeSpent (body req))))
               (mkFrame id e false w)).2 in
  putProgress req w = (ok 200 "Progress updated successfully" (this f'), world f').
Proof.
  intros Hvalid Hid Hfound Howner. cbn zeta.
  destruct (ProgressBody_valid _ Hvalid) as [lecture Hcast].
  unfold putProgress, tryCatch. rewrite Hvalid. cbn [isEmpty negb].
  unfold bind at 1. rewrite findById_eq, Hid, Hfound.
  cbn [fmap option_fmap option_map].
  unfold toString. rewrite Howner, String.eqb_refl. cbn [negb].
  unfold bind. rewrite call_eq.
  destruct (completeLecture_frame (ProgressBody.lectureId (body req))
              (Some (default 0 (ProgressBody.timeSpent (body req))))
              (mkFrame id e false w) eq_refl (refused_cast _ _ _ Hcast)) as (-> & _).
  done.
Qed.

Lemma completeAll_frame calls f :
  Forall (λ c, is_Some (castObjectId c.1)) calls →
  isNew f = false →
  enrollments (world f) !! _id f = Some (this f) →
  let g := completeAll calls f in
  _id g = _id f ∧ isNew g = false ∧ enrollments (world g) !! _id f = Some (this g)
  ∧ student (this g) = student (this f)
  ∧ certificate (this g) = certificate (this f).
Proof.
  intros Hcast. revert f.
  induction Hcast as [|[lectureId timeSpent] calls [lecture Hc] _ IH]; intros f Hnew Hst.
  - by split_and!.
  - rewrite completeAll_cons. cbn [fst snd] in *.
    destruct (completeLecture_frame lectureId timeSpent f Hnew (refused_cast _ _ _ Hc))
      as (_ & Hid & Hn & Hl).
    destruct (IH (completeLecture lectureId timeSpent f).2 Hn)
      as (Hid' & Hn' & Hl' & Hs' & Hc'); [by rewrite Hid |].
    destruct (perform_identity (CompleteLecture lectureId timeSpent) f) as (Hs & _).
    destruct (completeLecture_fields lectureId timeSpent f) as (Hcf & _).
    cbn [perform] in Hs. cbn zeta. rewrite Hid in *.
    split_and!; [done | done | done | congruence | congruence].
Qed.

Section ProgressRuns.
Variable courseSaveFails : ObjectId → Course.t → gmap string Course.t → option string.
Variable populateFails : ObjectId → Enrollment → World → option string.
Variable Course_addReview :
  ObjectId → string → Z → option string → M (gmap string Course.t) unit.

Lemma run_progressRequests user raw id bodies w e :
  Forall (λ b, ProgressBody.validationResult b = []) bodies →
  castObjectId raw = Some id →
  enrollments w !! id = Some e →
  student e = user →
  run courseSaveFails populateFails Course_addReview (progressRequests user raw bodies) w
  = world (completeAll (progressCalls bodies) (mkFrame id e false w)).
Proof.
  intros Hvalid Hraw. revert w e.
  induction Hvalid as [|b bodies Hb _ IH]; intros w e Hfound Howner; [done |].
  cbn [progressRequests progressCalls map run handle]. rewrite completeAll_cons.
  cbn [fst snd].
  rewrite (putProgress_eq (mkRequest user raw b) w id e) by done.
  cbn [snd body paramsId userId].
  set (f' := (completeLecture (ProgressBody.lectureId b)
                (Some (default 0 (ProgressBody.timeSpent b))) (mkFrame id e false w)).2).
  destruct (ProgressBody_valid _ Hb) as [lecture Hcast].
  destruct (completeLecture_frame (ProgressBody.lectureId b)
              (Some (default 0 (ProgressBody.timeSpent b))) (mkFrame id e false w) eq_refl
              (refused_cast _ _ _ Hcast))
    as (_ & Hid & Hn & Hl).
  fold f' in Hid, Hn, Hl. cbn [_id] in Hid, Hl.
  destruct (perform_identity (CompleteLecture (ProgressBody.lectureId b)
                                (Some (default 0 (ProgressBody.timeSpent b))))
              (mkFrame id e false w)) as (Hs & _).
  cbn [perform this] in Hs. fold f' in Hs.
  fold (progressRequests user raw bodies). fold (progressCalls bodies).
  rewrite (IH (world f') (this f')) by congruence.
  f_equal. f_equal. destruct f' as [i t n v]. cbn in *. by subst.
Qed.

End ProgressRuns.

Lemma postCertificate_eq req w id e :
  castObjectId (paramsId req) = Some id →
  enrollments w !! id = Some e →
  student e = userId req →
  progress e = 100 → Certificate.issued (certificate e) = false →
  let saved := (save (afterIssue (mkFrame id e false w))).2 in
  postCertificate req w
  = (ok 200 "Certificate issued successfully" (this saved), world saved).
Proof.
  intros Hid Hfound Howner Hp Hi. cbn zeta.
  unfold postCertificate, tryCatch.
  unfold bind at 1. rewrite findById_eq, Hid, Hfound.
  cbn [fmap option_fmap option_map].
  unfold toString. rewrite Howner, String.eqb_refl. cbn [negb].
  unfold bind. rewrite call_eq, issueCertificate_eq. cbn [this].
  rewrite Hp, Hi. cbn [Z.eqb Pos.eqb andb negb]. by rewrite save_eq.
Qed.

(** * Counting the enrollments of a course *)

Lemma enrolledIn_insert_fresh courseId m id e :
  m !! id = None →
  enrolledIn courseId (<[id := e]> m)
  = (enrolledIn courseId m + (if decide (course e = courseId) then 1 else 0))%nat.
Proof.
  intros Hfresh. unfold enrolledIn.
  rewrite (Permutation_length
             (filter_Permutation _ _ _ (map_to_list_insert _ _ e Hfresh))).
  rewrite filter_cons. cbn [snd]. repeat case_decide; try done; cbn [length]; lia.
Qed.

Lemma enrolledIn_update courseId m id e e' :
  m !! id = Some e → course e' = course e →
  enrolledIn courseId (<[id := e']> m) = enrolledIn courseId m.
Proof.
  intros Hl Hc.
  rewrite <- (insert_delete_eq m id e').
  rewrite <- (insert_delete_id m id e Hl) at 2.
  rewrite !enrolledIn_insert_fresh by apply lookup_delete_eq.
  by rewrite Hc.
Qed.

Lemma updated_enrolledIn courseId m m' :
  updated m m' → enrolledIn courseId m' = enrolledIn courseId m.
Proof.
  intros [-> | id e e' Hl _ Hc ->]; [done |]. by apply (enrolledIn_update _ _ _ e).
Qed.

Section Counting.
Variable courseSaveFails : ObjectId → Course.t → gmap string Course.t → option string.
Variable populateFails : ObjectId → Enrollment → World → option string.
Variable Course_addReview :
  ObjectId → string → Z → option string → M (gmap string Course.t) unit.
Hypothesis Hkeeps : keepsCounts Course_addReview.

(** What one request does to the counter of a course and to the number
    of its stored enrollments: both stay, or the number goes up by one
    and the counter by one or, when the course write failed, not at all. *)
Lemma handle_counts c w courseId c' :
  let w' := (handle courseSaveFails populateFails Course_addReview c w).2 in
  courses w' !! courseId = Some c' →
  ∃ c0, courses w !! courseId = Some c0
        ∧ ((Course.enrollmentCount c' = Course.enrollmentCount c0
            ∧ (enrolledIn courseId (enrollments w)
               ≤ enrolledIn courseId (enrollments w'))%nat
            ∧ ((∀ id d cs, courseSaveFails id d cs = None) →
               enrolledIn courseId (enrollments w')
               = enrolledIn courseId (enrollments w)))
           ∨ (Course.enrollmentCount c' = Course.enrollmentCount c0 + 1
              ∧ enrolledIn courseId (enrollments w')
                = S (enrolledIn courseId (enrollments w)))).
Proof.
  cbn zeta. intros Hl.
  assert ((∀ req, c ≠ PostEnrollments req) ∨ ∃ req, c = PostEnrollments req)
    as [Hroute | [req ->]].
  { destruct c; try (by left); right; by eexists. }
  - pose proof (handle_updated courseSaveFails populateFails Course_addReview c w Hroute)
      as Hup.
    rewrite (updated_enrolledIn _ _ _ Hup).
    destruct (handle_courses courseSaveFails populateFails Course_addReview c w Hroute)
      as [Hcs | (courseRef & user & rating & review & Hcs)]; rewrite Hcs in Hl.
    + exists c'. split; [done |]. left. by split_and!.
    + destruct (Hkeeps _ _ _ _ _ _ _ Hl) as (c0 & Hl0 & Heq).
      exists c0. split; [done |]. left. by split_and!.
  - cbn [handle] in *.
    destruct (postEnrollments_cases courseSaveFails populateFails req w)
      as [(_ & Hen & Hcs)
         | (courseRef & c & Hvalid & Hcast & Hc & Hpub & Hpair & Hfresh)].
    + rewrite Hen. rewrite Hcs in Hl. exists c'. split; [done |]. left. by split_and!.
    + destruct (postEnrollments_created courseSaveFails populateFails req w courseRef c
                  Hvalid Hcast Hc Hpub Hpair Hfresh) as (method & e & _ & He & Heq).
      rewrite Heq in Hl |- *. cbn zeta in *.
      assert (course e = courseRef) as Hcourse by (by subst e).
      destruct (courseSaveFails courseRef _ (courses w)) as [msg|] eqn:Hsave.
      * cbn [snd courses enrollments] in *.
        exists c'. split; [done |]. left.
        rewrite enrolledIn_insert_fresh by done.
        split_and!; [done | lia |].
        intros Hnever. by rewrite Hnever in Hsave.
      * revert Hl.
        destruct (populateFails _ _ _); cbn [snd courses enrollments set_courses];
          intros Hl'.
        all: rewrite enrolledIn_insert_fresh by done; rewrite Hcourse.
        all: rewrite lookup_insert in Hl'; case_decide as Hcid.
        all: try (injection Hl' as <-; subst courseId; exists c; split; [done |];
                  right; split; [done | lia]).
        all: exists c'; split; [done |]; left; split_and!; [done | lia | intros _; lia].
Qed.

Lemma handle_countsWithin c w :
  countsWithin w →
  countsWithin (handle courseSaveFails populateFails Course_addReview c w).2.
Proof.
  intros Hwithin courseId c' Hl.
  destruct (handle_counts c w courseId c' Hl) as (c0 & Hl0 & [(-> & Hle & _) | (-> & ->)]);
    specialize (Hwithin _ _ Hl0); lia.
Qed.

Lemma handle_countsAgree c w :
  (∀ id d cs, courseSaveFails id d cs = None) →
  countsAgree w →
  countsAgree (handle courseSaveFails populateFails Course_addReview c w).2.
Proof.
  intros Hnever Hagree courseId c' Hl.
  destruct (handle_counts c w courseId c' Hl)
    as (c0 & Hl0 & [(-> & _ & Heq) | (-> & ->)]); specialize (Hagree _ _ Hl0).
  - by rewrite Heq.
  - lia.
Qed.

Lemma run_countsWithin cs w :
  countsWithin w →
  countsWithin (run courseSaveFails populateFails Course_addReview cs w).
Proof.
  revert w. induction cs as [|c cs IH]; intros w Hwithin; [done |].
  cbn [run]. by apply IH, handle_countsWithin.
Qed.

Lemma run_countsAgree cs w :
  (∀ id d cs, courseSaveFails id d cs = None) →
  countsAgree w →
  countsAgree (run courseSaveFails populateFails Course_addReview cs w).
Proof.
  intros Hnever. revert w. induction cs as [|c cs IH]; intros w Hagree; [done |].
  cbn [run]. by apply IH, handle_countsAgree.
Qed.

End Counting.

(** * The refund route *)

Lemma postRefund_eq req w id e :
  RefundBody.validationResult (body req) = [] →
  castObjectId (paramsId req) = Some id →
  enrollments w !! id = Some e →
  student e = userId req →
  postRefund req w
  = if refundRequested e then (fail 500 requestRefund_error, w)
    else let saved := (save (afterRequest (RefundBody.reason (body req))
                               (mkFrame id e false w))).2 in
         (ok 200 "Refund request submitted successfully" (this saved), world saved).
Proof.
  intros Hvalid Hid Hfound Howner.
  unfold postRefund, tryCatch. rewrite Hvalid. cbn [isEmpty negb].
  unfold bind at 1. rewrite findById_eq, Hid, Hfound.
  cbn [fmap option_fmap option_map].
  unfold toString. rewrite Howner, String.eqb_refl. cbn [negb].
  unfold bind. rewrite call_eq, requestRefund_eq. cbn [this].
  destruct (refundRequested e); [reflexivity |].
  by rewrite save_eq.
Qed.

(** * Lecture ids in another spelling *)

(** A string that casts to an id other than itself is the printed form of
    no id, so no stored lecture prints as it. *)
Lemma other_spelling_absent lectureId lecture ids :
  castObjectId lectureId = Some lecture → lecture ≠ lectureId →
  Forall canonical ids → lectureId ∉ ids.
Proof.
  intros Hcast Hne Hcanon Hin.
  rewrite Forall_forall in Hcanon. specialize (Hcanon _ Hin).
  unfold canonical in Hcanon. congruence.
Qed.

(** * The counts of the statistics *)

Lemma countStatus_empty s w : enrollments w = ∅ → countStatus s w = 0.
Proof. intros He. unfold countStatus. by rewrite He, map_to_list_empty. Qed.

Lemma statsOf_counts sumAmounts w :
  Stats.totalEnrollments (statsOf sumAmounts w) = Z.of_nat (size (enrollments w))
  ∧ Stats.activeEnrollments (statsOf sumAmounts w) = countStatus active w
  ∧ Stats.completedEnrollments (statsOf sumAmounts w) = countStatus completed w.
Proof.
  rewrite statsOf_eq. case_decide as He; cbn.
  - rewrite !countStatus_empty by done. by rewrite He, map_size_empty.
  - done.
Qed.

(** * Runs of lecture completions *)

Lemma completeAll_counts calls f :
  Forall (λ c, canonical c.1) calls →
  completedLectures (this f) = [] →
  lifecycle (this f) →
  let e' := this (completeAll calls f) in
  let distinct := Z.of_nat (length (remove_dups calls.*1)) in
  NoDup (lectureIds e')
  ∧ (∀ x, x ∈ lectureIds e' ↔ x ∈ calls.*1)
  ∧ progress e' = Z.min 100 (distinct * 10)
  ∧ (status e' = completed ↔ 10 ≤ distinct).
Proof.
  intros Hprinted Hempty Hlife. cbn zeta.
  destruct (completeAll_ids calls f Hprinted) as [Hnd Hin].
  { unfold lectureIds. rewrite Hempty. constructor. }
  assert (∀ x, x ∈ lectureIds (this (completeAll calls f)) ↔ x ∈ calls.*1) as Hin'.
  { intros x. rewrite Hin.
    assert (lectureIds (this f) = []) as -> by (unfold lectureIds; by rewrite Hempty).
    rewrite elem_of_nil. tauto. }
  pose proof (completeAll_lifecycle calls f Hlife) as Hlife'.
  assert (length (completedLectures (this (completeAll calls f)))
          = length (remove_dups calls.*1)) as Hlen.
  { rewrite <- (length_map CompletedLecture.lecture). fold (lectureIds (this (completeAll calls f))).
    apply Permutation_length, NoDup_Permutation; [done | apply NoDup_remove_dups |].
    intros x. by rewrite Hin', elem_of_remove_dups. }
  split_and!; [done | done | |].
  - destruct Hlife' as (-> & _). by rewrite Hlen.
  - rewrite (lifecycle_completed _ Hlife').
    destruct Hlife' as (-> & _). rewrite Hlen. lia.
Qed.

Lemma canonical_cast s : canonical s → is_Some (castObjectId s).
Proof. intros Hs. by exists s. Qed.
(** * The claims *)

(** C1. A save of a record with progress 100 whose status is not yet
    completed turns the status to completed and stamps completionDate with
    the clock reading of that save. A save with any other progress leaves
    both fields alone, so the date is never set earlier; once a record
    with progress 100 has been saved, every later save leaves it as it is.
    Through [completeLecture], for a lecture id that casts, the transition
    happens in the very call that brings progress to 100, stamped with that
    call's last clock reading. A record created by the enroll route starts
    in the lifecycle shape (completed and dated exactly at progress 100),
    whatever becomes of the steps that follow its write, and no sequence of
    requests takes a stored record out of it. *)
Theorem save_completes_at_100
    (courseSaveFails : ObjectId → Course.t → gmap string Course.t → option string)
    (populateFails : ObjectId → Enrollment → World → option string)
    (Course_addReview : ObjectId → string → Z → option string
                        → M (gmap string Course.t) unit)
    (f : Frame) :
  let f' := (save f).2 in
  (isNew f = false →
   (save f).1 = Returned tt ∧ enrollments (world f') !! _id f = Some (this f'))
  ∧ (progress (this f) = 100 → status (this f) ≠ completed →
     status (this f') = completed
     ∧ completionDate (this f') = Some (clock (world f) (ticks (world f))))
  ∧ (progress (this f) ≠ 100 →
     status (this f') = status (this f)
     ∧ completionDate (this f') = completionDate (this f))
  ∧ (progress (this f) = 100 → ∀ g, this g = this f' → this (save g).2 = this f')
  ∧ (∀ lectureId lecture timeSpent,
       castObjectId lectureId = Some lecture →
       isNew f = false → status (this f) ≠ completed →
       let g := (completeLecture lectureId timeSpent f).2 in
       (progress (this g) = 100 →
        status (this g) = completed
        ∧ completionDate (this g) = Some (clock (world g) (pred (ticks (world g)))))
       ∧ (progress (this g) ≠ 100 →
          status (this g) = status (this f)
          ∧ completionDate (this g) = completionDate (this f)))
  ∧ (∀ req w courseRef c,
       EnrollBody.validationResult (body req) = [] →
       castObjectId (EnrollBody.courseId (body req)) = Some courseRef →
       courses w !! courseRef = Some c →
       Course.status c = "published" →
       pairTaken (userId req) courseRef (enrollments w) = false →
       enrollments w !! oidgen w (oids w) = None →
       ∃ e, enrollments (postEnrollments courseSaveFails populateFails req w).2
              !! oidgen w (oids w) = Some e
            ∧ lifecycle e)
  ∧ (∀ cs w id e,
       enrollments w !! id = Some e → lifecycle e →
       ∃ e', enrollments (run courseSaveFails populateFails Course_addReview cs w) !! id
             = Some e' ∧ lifecycle e').
Proof.
  cbn zeta. split_and!.
  - intros Hstored. split; [by rewrite save_eq |].
    rewrite save_stored by done. rewrite save_this. apply lookup_insert_eq.
  - intros Hp Hs. rewrite save_this, afterPreSave_fires by done. done.
  - intros Hp. rewrite save_this, afterPreSave_idle by (by left). done.
  - intros Hp g Hg. rewrite !save_this.
    rewrite (afterPreSave_idle g); [by rewrite Hg, save_this |].
    rewrite Hg, save_this.
    destruct (decide (status (this f) = completed)) as [Hs|Hs].
    + rewrite afterPreSave_idle by (by right). by right.
    + rewrite afterPreSave_fires by done. by right.
  - intros lectureId lecture timeSpent Hcast Hstored Hs.
    rewrite completeLecture_eq, (refused_cast _ _ _ Hcast).
    set (h := afterAccess (afterUpdateProgress (afterPush lectureId timeSpent f))).
    destruct (completeLecture_status lectureId timeSpent f) as [Hst Hcd].
    fold h in Hst, Hcd.
    assert (isNew h = false) as Hnew.
    { destruct (sameStore_completeLecture lectureId timeSpent f) as (_ & Hn & _).
      fold h in Hn. congruence. }
    rewrite save_this, afterPreSave_progress. split.
    + intros Hp. rewrite afterPreSave_fires by congruence.
      split; [done |]. rewrite save_eq by done. cbn.
      unfold afterPreSave. rewrite Hp, bool_decide_true by congruence. done.
    + intros Hp. rewrite afterPreSave_idle by (by left). done.
  - intros req w courseRef c Hvalid Hcast Hc Hpub Hpair Hfresh.
    destruct (postEnrollments_created courseSaveFails populateFails req w courseRef c
                Hvalid Hcast Hc Hpub Hpair Hfresh) as (method & e & _ & He & ->).
    exists e. split.
    + cbn zeta. destruct (courseSaveFails _ _ _); [apply lookup_insert_eq |].
      destruct (populateFails _ _ _); apply lookup_insert_eq.
    + subst e. split_and!; cbn; [done | done | done].
  - intros cs w id e. apply run_preserves, lifecycle_perform.
Qed.

Lemma save_completes_at_100_witness :
  status (this (save (loaded finishedEnrollment)).2) = completed
  ∧ completionDate (this (save (loaded finishedEnrollment)).2) = Some 1700000000000.
Proof.
  destruct (save_completes_at_100 courseSaved populated acceptReview
              (loaded finishedEnrollment))
    as (_ & H & _).
  apply H; [reflexivity | discriminate].
Defined.

(** C2. [issueCertificate] returns exactly when progress is 100 and no
    certificate has been issued. It then marks the certificate issued,
    stamps issuedAt, stores a certificateId built from the enrollment's id
    and the issuance time (distinct for distinct pairs) and a downloadUrl
    built from that id. In every other case it throws one and the same
    message, which ends in "course not completed or already issued", and
    changes nothing; so the call that follows a success throws, and an
    issued certificate stays as it is under every sequence of requests. *)
Theorem issueCertificate_once
    (courseSaveFails : ObjectId → Course.t → gmap string Course.t → option string)
    (populateFails : ObjectId → Enrollment → World → option string)
    (Course_addReview : ObjectId → string → Z → option string
                        → M (gmap string Course.t) unit)
    (f : Frame) (Hstored : isNew f = false) :
  let ready :=
    progress (this f) = 100 ∧ Certificate.issued (certificate (this f)) = false in
  let r := issueCertificate f in
  (r.1 = Returned tt ↔ ready)
  ∧ (ready →
     let certificateId :=
       certificateIdFor (_id f) (clock (world f) (S (ticks (world f)))) in
     certificate (this r.2)
     = Certificate.mk true (Some (clock (world f) (ticks (world f))))
         (Some certificateId) (Some ("/certificates/" +:+ certificateId))
     ∧ enrollments (world r.2) !! _id f = Some (this r.2)
     ∧ issueCertificate r.2 = (Thrown issueCertificate_error, r.2))
  ∧ (¬ ready → r = (Thrown issueCertificate_error, f))
  ∧ issueCertificate_error
    = "Cannot issue certificate: " +:+ "course not completed or already issued"
  ∧ (∀ id id' now now',
       String.length id = 24%nat → String.length id' = 24%nat →
       certificateIdFor id now = certificateIdFor id' now' → id = id' ∧ now = now')
  ∧ (∀ cs w id e,
       enrollments w !! id = Some e → Certificate.issued (certificate e) = true →
       ∃ e', enrollments (run courseSaveFails populateFails Course_addReview cs w) !! id
             = Some e'
             ∧ certificate e' = certificate e).
Proof.
  cbn zeta.
  assert (∀ g, (progress (this g) =? 100) && negb (Certificate.issued (certificate (this g)))
               = true
               ↔ progress (this g) = 100 ∧ Certificate.issued (certificate (this g)) = false)
    as Hready.
  { intros g. rewrite andb_true_iff, Z.eqb_eq, negb_true_iff. done. }
  split_and!.
  - rewrite issueCertificate_eq, <- Hready.
    destruct (_ && _); [| done].
    rewrite save_eq by done. done.
  - intros Hr. apply Hready in Hr. rewrite issueCertificate_eq, Hr.
    destruct (save_fields (afterIssue f)) as (Hp & _ & Hc & _).
    split_and!.
    + by rewrite Hc.
    + rewrite (save_store f) by done. apply lookup_insert_eq.
    + rewrite issueCertificate_eq. rewrite Hp, Hc. cbn.
      by rewrite andb_false_r.
  - intros Hr. rewrite issueCertificate_eq.
    destruct (_ && _) eqn:Hb; [| done]. by apply Hready in Hb.
  - reflexivity.
  - intros id id' now now' Hid Hid'. apply certificateIdFor_inj. congruence.
  - intros cs w id e Hl Hissued.
    refine (run_preserves courseSaveFails populateFails Course_addReview
              (λ d, certificate d = certificate e) _ cs w id e Hl eq_refl).
    intros op g Hg Hc.
    destruct (perform_keeps op g Hg) as (_ & _ & Hkeep & _).
    rewrite Hkeep; [done |]. by rewrite Hc.
Qed.

Lemma issueCertificate_once_witness :
  (issueCertificate (loaded finishedEnrollment)).1 = Returned tt
  ∧ issueCertificate (issueCertificate (loaded finishedEnrollment)).2
    = (Thrown issueCertificate_error, (issueCertificate (loaded finishedEnrollment)).2).
Proof.
  destruct (issueCertificate_once courseSaved populated acceptReview
              (loaded finishedEnrollment) eq_refl)
    as (Hiff & Hok & _).
  split; [apply Hiff | apply Hok]; split; reflexivity.
Defined.

(** C3. After every [completeLecture] call with a lecture id that casts,
    on any enrollment, progress is min(100, number of completed lectures *
    10), hence within [0, 100]; and a stored record whose progress is within
    [0, 100], as on creation, stays within it under every sequence of
    requests. *)
Theorem completeLecture_progress_rule
    (courseSaveFails : ObjectId → Course.t → gmap string Course.t → option string)
    (populateFails : ObjectId → Enrollment → World → option string)
    (Course_addReview : ObjectId → string → Z → option string
                        → M (gmap string Course.t) unit)
    (f : Frame) (lectureId : string) (lecture : ObjectId) (timeSpent : option Z)
    (Hcast : castObjectId lectureId = Some lecture) :
  let e' := this (completeLecture lectureId timeSpent f).2 in
  progress e' = Z.min 100 (Z.of_nat (length (completedLectures e')) * 10)
  ∧ 0 ≤ progress e' ≤ 100
  ∧ (∀ cs w id e,
       enrollments w !! id = Some e → 0 ≤ progress e ≤ 100 →
       ∃ e', enrollments (run courseSaveFails populateFails Course_addReview cs w) !! id
             = Some e'
             ∧ 0 ≤ progress e' ≤ 100).
Proof.
  cbn zeta.
  rewrite completeLecture_progress, completeLecture_lectures
    by (by apply (refused_cast _ lecture)).
  split; [done | split; [lia |]].
  intros cs w id e.
  apply (run_preserves courseSaveFails populateFails Course_addReview
           (λ d, 0 ≤ progress d ≤ 100)).
  intros op g Hg. apply (perform_keeps op g Hg).
Qed.

Lemma completeLecture_progress_rule_witness :
  ∃ e', enrollments
          (run courseSaved populated acceptReview
             [PutProgress (mkRequest sampleStudent sampleId
                             (ProgressBody.mk sampleLecture (Some 30)))]
             (storedWorld sampleEnrollment)) !! sampleId = Some e'
        ∧ 0 ≤ progress e' ≤ 100.
Proof.
  destruct (completeLecture_progress_rule courseSaved populated acceptReview
              (loaded sampleEnrollment) sampleLecture sampleLecture None eq_refl)
    as (_ & _ & Hrun).
  apply (Hrun _ _ _ sampleEnrollment); [reflexivity | cbn; lia].
Defined.

(** C4. The first refund request of the owner of a stored enrollment
    succeeds: the answer is 200 and the stored record has refundRequested
    set, the given reason and refundStatus pending. Every later request on
    that enrollment, whatever its reason, changes nothing and is answered
    with the message "Refund already requested" under status 500, the
    status of an internal error, and not under 400 as a conflict is. *)
Theorem postRefund_second_is_500 (req : Request RefundBody.t) (w : World)
    (id : ObjectId) (e : Enrollment)
    (Hvalid : RefundBody.validationResult (body req) = [])
    (Hid : castObjectId (paramsId req) = Some id)
    (Hfound : enrollments w !! id = Some e)
    (Howner : student e = userId req)
    (Hfirst : refundRequested e = false) :
  let first := postRefund req w in
  (∃ e', first.1 = ok 200 "Refund request submitted successfully" e'
         ∧ enrollments first.2 !! id = Some e'
         ∧ refundRequested e' = true
         ∧ refundReason e' = Some (RefundBody.reason (body req))
         ∧ refundStatus e' = RefundStatus.pending)
  ∧ ∀ again,
      RefundBody.validationResult again = [] →
      let second := postRefund (mkRequest (userId req) (paramsId req) again) first.2 in
      second = (fail 500 "Refund already requested", first.2)
      ∧ code second.1 ≠ 400%nat.
Proof.
  cbn zeta. rewrite (postRefund_eq req w id e) by done. rewrite Hfirst. cbn zeta.
  set (g := afterRequest (RefundBody.reason (body req)) (mkFrame id e false w)).
  destruct (save_fields g) as (_ & _ & _ & _ & Hrr & Hre & Hrs & _).
  destruct (save_owner g) as [Hs _].
  assert (enrollments (world (save g).2) !! id = Some (this (save g).2)) as Hstored.
  { rewrite (save_store (mkFrame id e false w) g) by done. apply lookup_insert_eq. }
  cbn [fst snd]. split.
  - exists (this (save g).2). by split_and!.
  - intros again Hagain.
    rewrite (postRefund_eq _ _ id (this (save g).2)); [| done | done | done | by rewrite Hs].
    by rewrite Hrr.
Qed.

Lemma postRefund_second_is_500_witness :
  postRefund (mkRequest sampleStudent sampleId (RefundBody.mk "still not satisfied"))
    (postRefund (mkRequest sampleStudent sampleId
                   (RefundBody.mk "not satisfied with pacing"))
       (storedWorld sampleEnrollment)).2
  = (fail 500 "Refund already requested",
     (postRefund (mkRequest sampleStudent sampleId
                    (RefundBody.mk "not satisfied with pacing"))
        (storedWorld sampleEnrollment)).2).
Proof.
  destruct (postRefund_second_is_500
              (mkRequest sampleStudent sampleId (RefundBody.mk "not satisfied with pacing"))
              (storedWorld sampleEnrollment) sampleId sampleEnrollment
              eq_refl eq_refl eq_refl eq_refl eq_refl) as [_ Hlater].
  apply (Hlater (RefundBody.mk "still not satisfied")). reflexivity.
Defined.

(** C5. With a well-formed request body, enrolling answers 404 when the
    course does not exist, 400 "not available" when it exists but is not
    published, and 400 "already enrolled" when the student already has an
    enrollment for the course, tested in this order. Otherwise it writes a
    new enrollment and succeeds exactly when neither the write of the course
    nor the populate that follows is rejected. On success it answers 201,
    the stored enrollment has status active, progress 0, payment.status
    completed, the student, the course and the course's instructor, and the
    stored course is the course with its enrollmentCount greater by one. *)
Theorem postEnrollments_outcomes
    (courseSaveFails : ObjectId → Course.t → gmap string Course.t → option string)
    (populateFails : ObjectId → Enrollment → World → option string)
    (req : Request EnrollBody.t) (w : World) (courseRef : ObjectId)
    (Hvalid : EnrollBody.validationResult (body req) = [])
    (Hcourse : castObjectId (EnrollBody.courseId (body req)) = Some courseRef) :
  let enroll := postEnrollments courseSaveFails populateFails req w in
  let enrolled :=
    ∃ id e, enrollments w !! id = Some e
            ∧ student e = userId req ∧ course e = courseRef in
  (courses w !! courseRef = None → enroll = (fail 404 "Course not found", w))
  ∧ (∀ c, courses w !! courseRef = Some c → Course.status c ≠ "published" →
          enroll = (fail 400 "Course is not available for enrollment", w))
  ∧ (∀ c, courses w !! courseRef = Some c → Course.status c = "published" →
          enrolled →
          enroll = (fail 400 "You are already enrolled in this course", w))
  ∧ (∀ c, courses w !! courseRef = Some c → Course.status c = "published" →
          ¬ enrolled →
          enrollments w !! oidgen w (oids w) = None →
          ∃ e,
            (success enroll.1 = true
             ↔ courseSaveFails courseRef
                 (Course.set_enrollmentCount (Course.enrollmentCount c + 1) c)
                 (courses w) = None
               ∧ populateFails (oidgen w (oids w)) e enroll.2 = None)
            ∧ (success enroll.1 = true →
               enroll.1 = ok 201 "Successfully enrolled in course" e
               ∧ enrollments enroll.2 = <[oidgen w (oids w) := e]> (enrollments w)
               ∧ student e = userId req
               ∧ course e = courseRef
               ∧ instructor e = Course.instructor c
               ∧ status e = active
               ∧ progress e = 0
               ∧ Payment.status (payment e) = Payment.completed
               ∧ ∃ c', courses enroll.2 = <[courseRef := c']> (courses w)
                       ∧ Course.enrollmentCount c' = Course.enrollmentCount c + 1
                       ∧ Course.status c' = Course.status c
                       ∧ Course.instructor c' = Course.instructor c
                       ∧ Course.price c' = Course.price c
                       ∧ Course.currency c' = Course.currency c)).
Proof.
  cbn zeta. split_and!.
  - intros Hc. unfold postEnrollments, tryCatch. rewrite Hvalid. cbn [isEmpty negb].
    unfold bind at 1. by rewrite Course_findById_eq, Hcourse, Hc.
  - intros c Hc Hpub. unfold postEnrollments, tryCatch. rewrite Hvalid. cbn [isEmpty negb].
    unfold bind at 1. rewrite Course_findById_eq, Hcourse, Hc.
    cbn [fmap option_fmap option_map].
    apply String.eqb_neq in Hpub. by rewrite Hpub.
  - intros c Hc Hpub Hen.
    apply (postEnrollments_conflict _ _ _ _ courseRef c); try done.
    by apply pairTaken_true.
  - intros c Hc Hpub Hen Hfresh.
    assert (pairTaken (userId req) courseRef (enrollments w) = false) as Hpair.
    { apply not_true_is_false. by rewrite pairTaken_true. }
    destruct (postEnrollments_created courseSaveFails populateFails req w courseRef c
                Hvalid Hcourse Hc Hpub Hpair Hfresh) as (method & e & _ & He & ->).
    exists e. cbn zeta.
    destruct (courseSaveFails _ _ _) as [msg|]; cbn [fst snd].
    { split; [split; [done | by intros [? _]] | done]. }
    destruct (populateFails _ _ _) as [msg|] eqn:Hpop; cbn [fst snd].
    { split; [split; [done | intros [_ H]; congruence] | done]. }
    split; [split; [done | done] |]. intros _. subst e.
    split_and!; try reflexivity.
    eexists. split; [reflexivity |]. by split_and!.
Qed.

Lemma postEnrollments_outcomes_witness :
  ∃ e c', (postEnrollments courseSaved populated enrollRequest sampleWorld).1
          = ok 201 "Successfully enrolled in course" e
          ∧ status e = active ∧ progress e = 0
          ∧ Payment.status (payment e) = Payment.completed
          ∧ courses (postEnrollments courseSaved populated enrollRequest sampleWorld).2
              !! sampleCourseId = Some c'
          ∧ Course.enrollmentCount c' = 1.
Proof.
  destruct (postEnrollments_outcomes courseSaved populated enrollRequest sampleWorld
              sampleCourseId eq_refl eq_refl) as (_ & _ & _ & Hcreate).
  destruct (Hcreate sampleCourse eq_refl eq_refl) as (e & Hiff & Hdone).
  - intros (id & e & Hl & _). cbn in Hl. by rewrite lookup_empty in Hl.
  - reflexivity.
  - destruct Hdone as (Hr & _ & _ & _ & _ & Hs & Hp & Hpay & c' & Hcs & Hcount & _).
    { apply Hiff. by split. }
    exists e, c'. split_and!; [done | done | done | done | | by rewrite Hcount].
    rewrite Hcs. apply lookup_insert_eq.
Defined.

(** C6. [completeLecture] looks for the lecture by comparing the string
    of the call with the printed ids of the stored lectures, and stores the
    string cast to an ObjectId. A lecture id that is spelled otherwise than
    it prints (a hexadecimal digit in upper case) is therefore never found:
    on a record whose stored lecture ids are in printed form, each call with
    it appends one more entry for the same lecture, so that after two calls
    the lecture appears twice and has been counted twice in progress. *)
Theorem completeLecture_repeats_other_spelling (f : Frame) (lectureId : string)
    (lecture : ObjectId) (timeSpent : option Z)
    (Hcast : castObjectId lectureId = Some lecture)
    (Hspelled : lecture ≠ lectureId)
    (Hprinted : Forall canonical (lectureIds (this f))) :
  let f' := (completeLecture lectureId timeSpent f).2 in
  completedLectures (this f')
  = completedLectures (this f)
    ++ [CompletedLecture.mk lecture (clock (world f) (ticks (world f)))
          (default 0 timeSpent)]
  ∧ ∀ timeSpent',
      let f'' := (completeLecture lectureId timeSpent' f').2 in
      completedLectures (this f'')
      = completedLectures (this f')
        ++ [CompletedLecture.mk lecture (clock (world f') (ticks (world f')))
              (default 0 timeSpent')]
      ∧ ¬ NoDup (lectureIds (this f''))
      ∧ progress (this f'')
        = Z.min 100 ((Z.of_nat (length (completedLectures (this f))) + 2) * 10).
Proof.
  cbn zeta.
  pose proof (other_spelling_absent _ _ _ Hcast Hspelled Hprinted) as Hout.
  pose proof (completeLecture_absent lectureId lecture timeSpent f Hcast Hout) as Hfirst.
  split; [exact Hfirst |]. intros timeSpent'.
  set (f' := (completeLecture lectureId timeSpent f).2) in *.
  assert (Forall canonical (lectureIds (this f'))) as Hprinted'.
  { unfold lectureIds. rewrite Hfirst, map_app. apply Forall_app. split; [done |].
    apply Forall_singleton. by apply (castObjectId_canonical lectureId). }
  pose proof (other_spelling_absent _ _ _ Hcast Hspelled Hprinted') as Hout'.
  pose proof (completeLecture_absent lectureId lecture timeSpent' f' Hcast Hout')
    as Hsecond.
  split_and!.
  - exact Hsecond.
  - unfold lectureIds. rewrite Hsecond, Hfirst, !map_app. cbn [map CompletedLecture.lecture].
    rewrite <- app_assoc. intros [_ [_ Hnd]]%NoDup_app.
    apply NoDup_cons in Hnd as [Hnot _]. apply Hnot. by left.
  - rewrite completeLecture_progress by (by apply (refused_cast _ lecture)).
    rewrite <- completeLecture_lectures, Hsecond, Hfirst, !length_app.
    cbn [length]. f_equal. lia.
Qed.

Lemma completeLecture_repeats_other_spelling_witness :
  lectureIds
    (this (completeLecture "65A1B2C3D4E5F6A7B8C9D011" (Some 90)
             (completeLecture "65A1B2C3D4E5F6A7B8C9D011" (Some 30)
                (loaded sampleEnrollment)).2).2)
  = [sampleLecture; sampleLecture]
  ∧ progress
      (this (completeLecture "65A1B2C3D4E5F6A7B8C9D011" (Some 90)
               (completeLecture "65A1B2C3D4E5F6A7B8C9D011" (Some 30)
                  (loaded sampleEnrollment)).2).2)
    = 20.
Proof.
  destruct (completeLecture_repeats_other_spelling (loaded sampleEnrollment)
              "65A1B2C3D4E5F6A7B8C9D011" sampleLecture (Some 30) eq_refl)
    as [Hfirst Hlater].
  - discriminate.
  - apply Forall_nil_2.
  - destruct (Hlater (Some 90)) as (Hsecond & _ & Hprogress).
    split.
    + unfold lectureIds. rewrite Hsecond, Hfirst. reflexivity.
    + rewrite Hprogress. reflexivity.
Defined.

(** C7. For the owner of a stored enrollment and a well-formed body, the
    review route stores given = true, the rating, the review text and the
    time of the request when no review was given yet, whatever the course
    collaborator then does; the owner's next review request on that
    enrollment is answered 400 "already reviewed" and changes nothing. The
    same answer meets every request on an enrollment whose review was
    given, and a given rating survives every sequence of requests. *)
Theorem postReview_once
    (courseSaveFails : ObjectId → Course.t → gmap string Course.t → option string)
    (populateFails : ObjectId → Enrollment → World → option string)
    (Course_addReview : ObjectId → string → Z → option string
                        → M (gmap string Course.t) unit)
    (req : Request ReviewBody.t) (w : World) (id : ObjectId) (e : Enrollment)
    (Hvalid : ReviewBody.validationResult (body req) = [])
    (Hid : castObjectId (paramsId req) = Some id)
    (Hfound : enrollments w !! id = Some e)
    (Howner : student e = userId req) :
  let w1 := (postReview Course_addReview req w).2 in
  (Rating.given (rating e) = false →
   (∃ e', enrollments w1 !! id = Some e'
          ∧ rating e'
            = Rating.mk true (Some (ReviewBody.rating (body req)))
                (ReviewBody.review (body req)) (Some (clock w (ticks w))))
   ∧ ∀ again,
       ReviewBody.validationResult again = [] →
       postReview Course_addReview (mkRequest (userId req) (paramsId req) again) w1
       = (fail 400 "You have already reviewed this course", w1))
  ∧ (Rating.given (rating e) = true →
     postReview Course_addReview req w
     = (fail 400 "You have already reviewed this course", w))
  ∧ (Rating.given (rating e) = true →
     ∀ cs, ∃ e', enrollments (run courseSaveFails populateFails Course_addReview cs w)
                   !! id = Some e'
                 ∧ rating e' = rating e).
Proof.
  cbn zeta. split_and!.
  - intros Hgiven.
    pose proof (postReview_stored Course_addReview req w id e Hvalid Hid Hfound Howner
                  Hgiven) as Hstored.
    set (g := afterReview (ReviewBody.rating (body req)) (ReviewBody.review (body req))
                (mkFrame id e false w)) in *.
    destruct (save_fields g) as (_ & _ & _ & Hr & _).
    destruct (save_owner g) as [Hs _].
    split.
    + eexists. split; [exact Hstored | exact Hr].
    + intros again Hagain.
      apply (postReview_given Course_addReview _ _ id (this (save g).2));
        [done | done | done | by rewrite Hs | by rewrite Hr].
  - by apply (postReview_given _ _ _ id).
  - intros Hgiven cs.
    refine (run_preserves courseSaveFails populateFails Course_addReview
              (λ d, rating d = rating e) _ cs w id e Hfound eq_refl).
    intros op g Hg Hr.
    destruct (perform_keeps op g Hg) as (_ & Hkeep & _).
    rewrite Hkeep; [done |]. by rewrite Hr.
Qed.

Lemma postReview_once_witness :
  (∃ e', enrollments (postReview acceptReview reviewRequest (storedWorld sampleEnrollment)).2
           !! sampleId = Some e'
         ∧ rating e' = Rating.mk true (Some 5) (Some "excellent") (Some 1700000000000))
  ∧ postReview acceptReview reviewRequest (storedWorld reviewedEnrollment)
    = (fail 400 "You have already reviewed this course", storedWorld reviewedEnrollment).
Proof.
  split.
  - apply (postReview_once courseSaved populated acceptReview reviewRequest
             (storedWorld sampleEnrollment) sampleId sampleEnrollment
             eq_refl eq_refl eq_refl eq_refl).
    reflexivity.
  - apply (postReview_once courseSaved populated acceptReview reviewRequest
             (storedWorld reviewedEnrollment) sampleId reviewedEnrollment
             eq_refl eq_refl eq_refl eq_refl).
    reflexivity.
Defined.

(** C8 as stated does not hold: the route also accepts the status
    "pending", so the stored refundStatus need not be approved or rejected.
    Here an approved refund is set back to pending. *)
Lemma putRefundStatus_not_only_decisions :
  ¬ (∀ (req : Request RefundStatusBody.t) (w : World) (id : ObjectId) (e : Enrollment),
       RefundStatusBody.validationResult (body req) = [] →
       castObjectId (paramsId req) = Some id →
       enrollments w !! id = Some e →
       ∃ e', enrollments (putRefundStatus req w).2 !! id = Some e'
             ∧ (refundStatus e' = RefundStatus.approved
                ∨ refundStatus e' = RefundStatus.rejected)).
Proof.
  intros H.
  destruct (H pendingRequest (storedWorld approvedEnrollment) sampleId approvedEnrollment
              eq_refl eq_refl eq_refl) as (e' & Hl & Hst).
  vm_compute in Hl. injection Hl as <-.
  by destruct Hst.
Qed.

(** C8, amended. With a well-formed body the refund-status route sets
    refundStatus to the requested status, which is pending, approved or
    rejected, whatever the status was before; it stamps refundProcessedAt
    with the time of the request, records a given non-zero refundAmount and
    keeps the stored amount when none is given; and it answers 200 with the
    stored record. *)
Theorem putRefundStatus_any_transition (req : Request RefundStatusBody.t) (w : World)
    (id : ObjectId) (e : Enrollment)
    (Hvalid : RefundStatusBody.validationResult (body req) = [])
    (Hid : castObjectId (paramsId req) = Some id)
    (Hfound : enrollments w !! id = Some e) :
  ∃ new e',
    RefundStatus.ofString (RefundStatusBody.refundStatus (body req)) = Some new
    ∧ (new = RefundStatus.pending ∨ new = RefundStatus.approved
       ∨ new = RefundStatus.rejected)
    ∧ (putRefundStatus req w).1 = ok 200 "Refund status updated successfully" e'
    ∧ enrollments (putRefundStatus req w).2 !! id = Some e'
    ∧ refundStatus e' = new
    ∧ refundProcessedAt e' = Some (clock w (ticks w))
    ∧ (∀ a, RefundStatusBody.refundAmount (body req) = Some a → a ≠ 0%Qc →
            refundAmount e' = Some a)
    ∧ (RefundStatusBody.refundAmount (body req) = None →
       refundAmount e' = refundAmount e).
Proof.
  destruct (RefundStatusBody_valid _ Hvalid) as (new & Hnew & Hcases).
  set (f := mkFrame id e false w).
  set (amount := RefundStatusBody.refundAmount (body req)).
  exists new, (this (save (afterRefundStatus new amount f)).2).
  rewrite (putRefundStatus_eq req w id e new) by done. cbn zeta. fold f amount.
  destruct (save_fields (afterRefundStatus new amount f))
    as (_ & _ & _ & _ & _ & _ & Hst & Hat & Ham).
  cbn [fst snd]. split_and!.
  - done.
  - done.
  - done.
  - rewrite (save_store f) by done. apply lookup_insert_eq.
  - rewrite Hst. cbn. by destruct (truthyNumber amount).
  - rewrite Hat. cbn. by destruct (truthyNumber amount).
  - intros a Ha Hnz. rewrite Ham. cbn. rewrite Ha. cbn.
    by rewrite bool_decide_false.
  - intros Ha. rewrite Ham. cbn. by rewrite Ha.
Qed.

Lemma putRefundStatus_any_transition_witness :
  ∃ e', (putRefundStatus approveRequest (storedWorld (afterRequested))).1
        = ok 200 "Refund status updated successfully" e'
        ∧ refundStatus e' = RefundStatus.approved
        ∧ refundProcessedAt e' = Some 1700000000000
        ∧ refundAmount e' = Some (Q2Qc (4999 # 100)).
Proof.
  destruct (putRefundStatus_any_transition approveRequest (storedWorld afterRequested)
              sampleId afterRequested eq_refl eq_refl eq_refl)
    as (new & e' & Hnew & _ & Hr & _ & Hst & Hat & Ham & _).
  exists e'. split_and!; [done | | done |].
  - rewrite Hst. by injection Hnew as <-.
  - apply Ham; [reflexivity | done].
Defined.

(** C9. [isExpired] is false on a lifetime enrollment. On any other
    enrollment it is true exactly when an access expiry is set and the
    current time is past it; with no expiry set the getter yields
    [undefined], which is falsy. *)
Theorem isExpired_spec (now : Date) (e : Enrollment) :
  (isLifetime e = true → isExpired now e = Some false)
  ∧ (isLifetime e = false →
     (isExpired now e = Some true ↔ ∃ expiry, accessExpiry e = Some expiry ∧ expiry < now)
     ∧ (accessExpiry e = None → isExpired now e = None ∧ truthy (isExpired now e) = false)).
Proof.
  unfold isExpired. split.
  - by intros ->.
  - intros ->. split.
    + destruct (accessExpiry e) as [expiry|]; split.
      * intros [= Ht]. exists expiry. split; [done | by apply Z.ltb_lt].
      * intros (x & [= <-] & Hlt). f_equal. by apply Z.ltb_lt.
      * done.
      * by intros (x & ? & _).
    + by intros ->.
Qed.

Lemma isExpired_spec_witness :
  isExpired 1700000000001 sampleEnrollment = Some false
  ∧ isExpired 1700000000001 timedEnrollment = Some true.
Proof.
  destruct (isExpired_spec 1700000000001 sampleEnrollment) as [Hlife _].
  destruct (isExpired_spec 1700000000001 timedEnrollment) as [_ Htimed].
  split; [by apply Hlife |].
  apply (Htimed eq_refl). by exists 1700000000000.
Defined.

(** C10. A failed precondition changes nothing. [issueCertificate] on a
    record that is not at progress 100 or already has a certificate, and
    [requestRefund] on a record with a refund already requested, throw
    with the frame (the document and the store) exactly as it was; the
    certificate and refund routes then answer with the thrown message and
    the review route answers "already reviewed" when a review was given,
    each leaving the world as it was. *)
Theorem failed_precondition_changes_nothing
    (Course_addReview : ObjectId → string → Z → option string
                        → M (gmap string Course.t) unit) :
  (∀ f, ¬ (progress (this f) = 100 ∧ Certificate.issued (certificate (this f)) = false) →
        issueCertificate f = (Thrown issueCertificate_error, f))
  ∧ (∀ f reason, refundRequested (this f) = true →
                 requestRefund reason f = (Thrown requestRefund_error, f))
  ∧ (∀ req w id e,
       castObjectId (paramsId req) = Some id →
       enrollments w !! id = Some e → student e = userId req →
       ¬ (progress e = 100 ∧ Certificate.issued (certificate e) = false) →
       postCertificate req w = (fail 500 issueCertificate_error, w))
  ∧ (∀ req w id e,
       RefundBody.validationResult (body req) = [] →
       castObjectId (paramsId req) = Some id →
       enrollments w !! id = Some e → student e = userId req →
       refundRequested e = true →
       postRefund req w = (fail 500 requestRefund_error, w))
  ∧ (∀ req w id e,
       ReviewBody.validationResult (body req) = [] →
       castObjectId (paramsId req) = Some id →
       enrollments w !! id = Some e → student e = userId req →
       Rating.given (rating e) = true →
       postReview Course_addReview req w
       = (fail 400 "You have already reviewed this course", w)).
Proof.
  assert (∀ f, ¬ (progress (this f) = 100
                  ∧ Certificate.issued (certificate (this f)) = false) →
               issueCertificate f = (Thrown issueCertificate_error, f)) as Hissue.
  { intros f Hnot. rewrite issueCertificate_eq.
    destruct (_ && _) eqn:Hb; [| done].
    apply andb_true_iff in Hb as [Hp Hi]. exfalso. apply Hnot.
    split; [by apply Z.eqb_eq | by apply negb_true_iff]. }
  assert (∀ f reason, refundRequested (this f) = true →
                      requestRefund reason f = (Thrown requestRefund_error, f)) as Hrefund.
  { intros f reason Hreq. by rewrite requestRefund_eq, Hreq. }
  split_and!; [done | done | | |].
  - intros req w id e Hid Hfound Howner Hnot.
    unfold postCertificate, tryCatch.
    unfold bind at 1. rewrite findById_eq, Hid, Hfound.
    cbn [fmap option_fmap option_map].
    unfold toString. rewrite Howner, String.eqb_refl. cbn [negb].
    unfold bind. rewrite call_eq, Hissue by done. reflexivity.
  - intros req w id e Hvalid Hid Hfound Howner Hreq.
    rewrite (postRefund_eq req w id e) by done. by rewrite Hreq.
  - intros req w id e. apply postReview_given.
Qed.

Lemma failed_precondition_changes_nothing_witness :
  issueCertificate (loaded sampleEnrollment)
  = (Thrown issueCertificate_error, loaded sampleEnrollment)
  ∧ postRefund (mkRequest sampleStudent sampleId (RefundBody.mk "still not satisfied"))
      (storedWorld afterRequested)
    = (fail 500 requestRefund_error, storedWorld afterRequested).
Proof.
  destruct (failed_precondition_changes_nothing acceptReview) as (Hissue & _ & _ & Hrefund & _).
  split.
  - apply Hissue. intros [Hp _]. discriminate Hp.
  - apply (Hrefund _ _ sampleId afterRequested); reflexivity.
Defined.
(** * Further properties of the model and of the routes *)

(** X1. [enrollmentDuration] is the number of started days between the
    enrollment date and the completion date, or the current time while the
    enrollment is not completed: the least count of whole days that covers
    the span, non-negative when the span is, and no longer dependent on the
    current time once a completion date is set. *)
Theorem enrollmentDuration_days (now : Date) (e : Enrollment) :
  let span := default now (completionDate e) - enrollmentDate e in
  let days := enrollmentDuration now e in
  millisPerDay * (days - 1) < span ≤ millisPerDay * days
  ∧ (0 ≤ span → 0 ≤ days)
  ∧ (is_Some (completionDate e) → ∀ now', enrollmentDuration now' e = days).
Proof.
  cbn zeta. unfold enrollmentDuration.
  pose proof (ceilDiv_bounds (default now (completionDate e) - enrollmentDate e)
                millisPerDay ltac:(done)) as Hb.
  change (1000 * 60 * 60 * 24) with millisPerDay.
  split_and!; [lia | lia | |].
  - intros Hspan. unfold millisPerDay in *. lia.
  - intros [t Ht] now'. by rewrite Ht.
Qed.

Lemma enrollmentDuration_days_witness :
  0 ≤ enrollmentDuration 1700000000000 sampleEnrollment
  ∧ ∀ now', enrollmentDuration now'
              (set_completionDate (Some 1700086400001) sampleEnrollment)
            = enrollmentDuration 0 (set_completionDate (Some 1700086400001) sampleEnrollment).
Proof.
  split.
  - apply (enrollmentDuration_days 1700000000000 sampleEnrollment). cbn. lia.
  - apply (enrollmentDuration_days 0
             (set_completionDate (Some 1700086400001) sampleEnrollment)).
    by eexists.
Defined.

(** X2. On every record a save leaves behind, the two ways [isCompleted]
    can hold agree: it is true exactly when the status is completed, since
    the pre-save hook has completed every record with progress 100. *)
Theorem isCompleted_after_save (f : Frame) :
  isCompleted (this (save f).2) = true ↔ status (this (save f).2) = completed.
Proof.
  rewrite save_this. unfold isCompleted.
  rewrite orb_true_iff, bool_decide_eq_true, Z.eqb_eq.
  split; [| tauto]. intros [Hs | Hp]; [done |].
  rewrite afterPreSave_progress in Hp.
  destruct (decide (status (this f) = completed)) as [Hc|Hc].
  - by rewrite afterPreSave_idle by (by right).
  - by rewrite afterPreSave_fires.
Qed.

Lemma isCompleted_after_save_witness :
  isCompleted (this (save (loaded finishedEnrollment)).2) = true.
Proof. apply (isCompleted_after_save (loaded finishedEnrollment)). reflexivity. Defined.

(** X3. For a lecture id that casts to an ObjectId and a timeSpent that a
    JS number holds exactly, a completion whose id no stored lecture prints
    as appends exactly one entry, holding the cast id, the time of the call
    and the given timeSpent (0 when none is given), and sets lastAccessed to
    the clock reading that follows; a completion whose id a stored lecture
    prints as leaves the list alone and still refreshes lastAccessed. *)
Theorem completeLecture_entry (f : Frame) (lectureId : string) (lecture : ObjectId)
    (timeSpent : option Z)
    (Hcast : castObjectId lectureId = Some lecture)
    (Hsafe : ∀ t, timeSpent = Some t → safeInteger t) :
  let e' := this (completeLecture lectureId timeSpent f).2 in
  let t := clock (world f) (ticks (world f)) in
  (lectureId ∉ lectureIds (this f) →
   completedLectures e'
   = completedLectures (this f) ++ [CompletedLecture.mk lecture t (default 0 timeSpent)]
   ∧ lastAccessed e' = clock (world f) (S (ticks (world f))))
  ∧ (lectureId ∈ lectureIds (this f) →
     completedLectures e' = completedLectures (this f) ∧ lastAccessed e' = t).
Proof.
  cbn zeta.
  assert (lastAccessed (this (completeLecture lectureId timeSpent f).2)
          = lastAccessed
              (this (afterAccess (afterUpdateProgress (afterPush lectureId timeSpent f)))))
    as Hla.
  { rewrite completeLecture_eq, (refused_cast _ _ _ Hcast), save_this.
    by destruct (afterPreSave_cases
                   (afterAccess (afterUpdateProgress (afterPush lectureId timeSpent f))))
      as [-> | ->]. }
  rewrite Hla, completeLecture_lectures. unfold lectureIds.
  split; intros Hmem.
  - apply findIndex_lecture in Hmem. unfold afterUpdateProgress, afterPush.
    rewrite Hmem, Hcast. cbn. by destruct (0 <? _).
  - assert (findIndex (isLecture lectureId) (completedLectures (this f)) ≠ -1) as Hidx
      by (by rewrite findIndex_lecture; intros Hn).
    apply Z.eqb_neq in Hidx. unfold afterUpdateProgress, afterPush.
    rewrite Hidx. cbn. by destruct (0 <? _).
Qed.

Lemma completeLecture_entry_witness :
  completedLectures
    (this (completeLecture "65A1B2C3D4E5F6A7B8C9D011" (Some 30)
             (loaded sampleEnrollment)).2)
  = [CompletedLecture.mk sampleLecture 1700000000000 30].
Proof.
  apply (completeLecture_entry (loaded sampleEnrollment) "65A1B2C3D4E5F6A7B8C9D011"
           sampleLecture (Some 30) eq_refl).
  - intros t [= <-]. unfold safeInteger. cbn. lia.
  - cbn. apply not_elem_of_nil.
Defined.

(** X4. After any run of lecture completions with lecture ids in printed
    form (24 hexadecimal digits, lower case) on a maintained record that
    held no lectures, the record holds each lecture id received exactly
    once, progress is min(100, 10 * number of distinct ids received), and
    the status is completed exactly when at least ten distinct ids were
    received. *)
Theorem completeAll_distinct (calls : list (string * option Z)) (f : Frame)
    (Hprinted : Forall (λ c, canonical c.1) calls)
    (Hempty : completedLectures (this f) = [])
    (Hlife : lifecycle (this f)) :
  let e' := this (completeAll calls f) in
  let distinct := Z.of_nat (length (remove_dups calls.*1)) in
  NoDup (lectureIds e')
  ∧ (∀ x, x ∈ lectureIds e' ↔ x ∈ calls.*1)
  ∧ progress e' = Z.min 100 (distinct * 10)
  ∧ (status e' = completed ↔ 10 ≤ distinct).
Proof. by apply completeAll_counts. Qed.

Lemma completeAll_distinct_witness :
  progress (this (completeAll [(sampleLecture, Some 30); (sampleLecture, None)]
                    (loaded sampleEnrollment))) = 10.
Proof.
  destruct (completeAll_distinct [(sampleLecture, Some 30); (sampleLecture, None)]
              (loaded sampleEnrollment)) as (_ & _ & Hp & _).
  - repeat (apply Forall_cons; split; [reflexivity |]). apply Forall_nil_2.
  - reflexivity.
  - split_and!; cbn; [done | done | done].
  - rewrite Hp. reflexivity.
Defined.

(** X5. Under every sequence of requests a maintained stored record only
    moves forward: it stays in the lifecycle shape, its progress and its
    number of completed lectures never go down, and once its status is
    completed, the status and the completion date stay as they are. *)
Theorem run_advances
    (courseSaveFails : ObjectId → Course.t → gmap string Course.t → option string)
    (populateFails : ObjectId → Enrollment → World → option string)
    (Course_addReview : ObjectId → string → Z → option string
                        → M (gmap string Course.t) unit)
    (cs : list Call) (w : World) (id : ObjectId) (e : Enrollment)
    (Hstored : enrollments w !! id = Some e)
    (Hlife : lifecycle e) :
  ∃ e', enrollments (run courseSaveFails populateFails Course_addReview cs w) !! id = Some e'
        ∧ lifecycle e'
        ∧ progress e ≤ progress e'
        ∧ (length (completedLectures e) ≤ length (completedLectures e'))%nat
        ∧ (status e = completed →
           status e' = completed ∧ completionDate e' = completionDate e).
Proof.
  refine (run_preserves courseSaveFails populateFails Course_addReview (advanced e) _ cs w id e Hstored _);
    [| by split_and!].
  intros op f _ Hadv. apply (advanced_trans _ (this f)); [done |].
  apply perform_advanced. by destruct Hadv.
Qed.

Lemma run_advances_witness :
  ∃ e', enrollments (run courseSaved populated acceptReview sampleSession (storedWorld sampleEnrollment))
          !! sampleId = Some e'
        ∧ 0 ≤ progress e'.
Proof.
  destruct (run_advances courseSaved populated acceptReview sampleSession (storedWorld sampleEnrollment)
              sampleId sampleEnrollment eq_refl) as (e' & Hl & _ & Hp & _).
  - split_and!; cbn; [done | done | done].
  - exists e'. split; [exact Hl | exact Hp].
Defined.

(** X6. No request ever changes who an enrollment belongs to or what was
    paid for it: student, course, instructor, enrollment date, the payment
    record with its transaction id, total time spent, notes and the access
    terms of a stored record are the same after every sequence of requests,
    and the record is never removed. *)
Theorem run_keeps_identity
    (courseSaveFails : ObjectId → Course.t → gmap string Course.t → option string)
    (populateFails : ObjectId → Enrollment → World → option string)
    (Course_addReview : ObjectId → string → Z → option string
                        → M (gmap string Course.t) unit)
    (cs : list Call) (w : World) (id : ObjectId) (e : Enrollment)
    (Hstored : enrollments w !! id = Some e) :
  ∃ e', enrollments (run courseSaveFails populateFails Course_addReview cs w) !! id = Some e'
        ∧ student e' = student e ∧ course e' = course e
        ∧ instructor e' = instructor e ∧ enrollmentDate e' = enrollmentDate e
        ∧ payment e' = payment e ∧ totalTimeSpent e' = totalTimeSpent e
        ∧ notes e' = notes e ∧ accessExpiry e' = accessExpiry e
        ∧ isLifetime e' = isLifetime e.
Proof.
  refine (run_preserves courseSaveFails populateFails Course_addReview (sameIdentity e) _ cs w id e Hstored _);
    [| by split_and!].
  intros op f _ Hsame. apply (sameIdentity_trans _ (this f)); [done |].
  apply perform_identity.
Qed.

Lemma run_keeps_identity_witness :
  ∃ e', enrollments (run courseSaved populated acceptReview sampleSession (storedWorld sampleEnrollment))
          !! sampleId = Some e'
        ∧ payment e' = payment sampleEnrollment.
Proof.
  destruct (run_keeps_identity courseSaved populated acceptReview sampleSession (storedWorld sampleEnrollment)
              sampleId sampleEnrollment eq_refl)
    as (e' & Hl & _ & _ & _ & _ & Hp & _).
  exists e'. split; [exact Hl | exact Hp].
Defined.

(** X7. A maintained stored record that carries a certificate only when
    its progress is 100, as a new record does, still does so after every
    sequence of requests: the service never certifies an incomplete
    enrollment. *)
Theorem run_certifies_only_complete
    (courseSaveFails : ObjectId → Course.t → gmap string Course.t → option string)
    (populateFails : ObjectId → Enrollment → World → option string)
    (Course_addReview : ObjectId → string → Z → option string
                        → M (gmap string Course.t) unit)
    (cs : list Call) (w : World) (id : ObjectId) (e : Enrollment)
    (Hstored : enrollments w !! id = Some e)
    (Hlife : lifecycle e)
    (Hcert : Certificate.issued (certificate e) = true → progress e = 100) :
  ∃ e', enrollments (run courseSaveFails populateFails Course_addReview cs w) !! id = Some e'
        ∧ (Certificate.issued (certificate e') = true →
           progress e' = 100 ∧ status e' = completed).
Proof.
  destruct (run_preserves courseSaveFails populateFails Course_addReview certified
              ltac:(intros op f _; apply perform_certified) cs w id e Hstored)
    as (e' & Hl & Hlife' & Hcert'); [by split |].
  exists e'. split; [done |]. intros Hi. split; [by apply Hcert' |].
  apply (lifecycle_completed _ Hlife'). by apply Hcert'.
Qed.

Lemma run_certifies_only_complete_witness :
  ∃ e', enrollments
          (run courseSaved populated acceptReview
             (progressRequests sampleStudent sampleId tenLectures
              ++ [PostCertificate (mkRequest sampleStudent sampleId tt)])
             (storedWorld sampleEnrollment)) !! sampleId = Some e'
        ∧ Certificate.issued (certificate e') = true
        ∧ progress e' = 100 ∧ status e' = completed.
Proof.
  destruct (run_certifies_only_complete courseSaved populated acceptReview
              (progressRequests sampleStudent sampleId tenLectures
               ++ [PostCertificate (mkRequest sampleStudent sampleId tt)])
              (storedWorld sampleEnrollment) sampleId sampleEnrollment eq_refl)
    as (e' & Hl & Hcomplete).
  - split_and!; cbn; [done | done | done].
  - cbn. discriminate.
  - assert (Certificate.issued (certificate e') = true) as Hissued.
    { pose proof Hl as Hl'. vm_compute in Hl'. by injection Hl' as <-. }
    exists e'. split; [exact Hl |]. split; [exact Hissued |]. by apply Hcomplete.
Defined.

(** X8. A route other than the review route that answers with a
    failure has written nothing: the enrollment and course collections are
    the same after the request as before it. The one exception is the 500
    of the enroll route, which can follow the write of the enrollment. *)
Theorem failure_writes_nothing
    (courseSaveFails : ObjectId → Course.t → gmap string Course.t → option string)
    (populateFails : ObjectId → Enrollment → World → option string)
    (Course_addReview : ObjectId → string → Z → option string
                        → M (gmap string Course.t) unit)
    (c : Call) (w : World)
    (Hroute : ∀ req, c ≠ PostReview req)
    (Hfailed : success (handle courseSaveFails populateFails Course_addReview c w).1
               = false)
    (Hanswer : ∀ req, c = PostEnrollments req →
                      code (handle courseSaveFails populateFails Course_addReview c w).1
                      ≠ 500%nat) :
  enrollments (handle courseSaveFails populateFails Course_addReview c w).2
  = enrollments w
  ∧ courses (handle courseSaveFails populateFails Course_addReview c w).2 = courses w.
Proof.
  destruct c as [req | req | req | req | req | req]; cbn [handle] in *.
  - apply postEnrollments_failure; [done | by apply (Hanswer req)].
  - by rewrite putProgress_failure.
  - by destruct (Hroute req).
  - by rewrite postCertificate_failure.
  - by rewrite postRefund_failure.
  - by rewrite putRefundStatus_failure.
Qed.

Lemma failure_writes_nothing_witness :
  enrollments (handle courseSaved populated acceptReview
                 (PostEnrollments enrollRequest)
                 (handle courseSaved populated acceptReview
                    (PostEnrollments enrollRequest) sampleWorld).2).2
  = enrollments (handle courseSaved populated acceptReview
                   (PostEnrollments enrollRequest) sampleWorld).2.
Proof.
  apply (failure_writes_nothing courseSaved populated acceptReview
           (PostEnrollments enrollRequest)
           (handle courseSaved populated acceptReview
              (PostEnrollments enrollRequest) sampleWorld).2).
  - intros req. discriminate.
  - reflexivity.
  - intros req _. by vm_compute.
Defined.

(** X9. The review route is not atomic. For the owner of a stored, not yet
    reviewed enrollment and a well-formed body, the review is saved first;
    when the course collaborator then throws, the route answers 500 and the
    review stays stored with given = true, and when it returns, the route
    answers 200 with the stored record. *)
Theorem postReview_not_atomic
    (Course_addReview : ObjectId → string → Z → option string
                        → M (gmap string Course.t) unit)
    (req : Request ReviewBody.t) (w : World) (id : ObjectId) (e : Enrollment)
    (Hvalid : ReviewBody.validationResult (body req) = [])
    (Hid : castObjectId (paramsId req) = Some id)
    (Hfound : enrollments w !! id = Some e)
    (Howner : student e = userId req)
    (Hfirst : Rating.given (rating e) = false) :
  let told := Course_addReview (course e) (userId req) (ReviewBody.rating (body req))
                (ReviewBody.review (body req)) (courses w) in
  let r := postReview Course_addReview req w in
  ∃ e', enrollments r.2 !! id = Some e'
        ∧ Rating.given (rating e') = true
        ∧ courses r.2 = told.2
        ∧ (∀ msg, told.1 = Thrown msg →
                  r.1 = fail 500 "Server error while adding review")
        ∧ (told.1 = Returned tt → r.1 = ok 200 "Review added successfully" e').
Proof.
  cbn zeta. rewrite (postReview_eq Course_addReview req w id e) by done.
  set (g := afterReview (ReviewBody.rating (body req)) (ReviewBody.review (body req))
              (mkFrame id e false w)).
  destruct (save_fields g) as (_ & _ & _ & Hr & _).
  exists (this (save g).2). cbn [fst snd]. split_and!.
  - cbn. rewrite (save_store (mkFrame id e false w) g) by done.
    apply lookup_insert_eq.
  - by rewrite Hr.
  - done.
  - by intros msg ->.
  - by intros ->.
Qed.

Lemma postReview_not_atomic_witness :
  (postReview refuseReview reviewRequest (storedWorld sampleEnrollment)).1
  = fail 500 "Server error while adding review"
  ∧ ∃ e', enrollments (postReview refuseReview reviewRequest
                         (storedWorld sampleEnrollment)).2 !! sampleId = Some e'
          ∧ Rating.given (rating e') = true.
Proof.
  destruct (postReview_not_atomic refuseReview reviewRequest (storedWorld sampleEnrollment)
              sampleId sampleEnrollment eq_refl eq_refl eq_refl eq_refl eq_refl)
    as (e' & Hl & Hg & _ & Hthrow & _).
  split; [by eapply Hthrow | by exists e'].
Defined.

(** X10. Only the enrolled student can act on an enrollment. A request on
    a stored enrollment, named by its id in any spelling, by any other user
    to the progress, review, certificate or refund route is refused and
    leaves the world exactly as it was; with a well-formed body the answer
    is 403. *)
Theorem only_the_owner_writes
    (Course_addReview : ObjectId → string → Z → option string
                        → M (gmap string Course.t) unit)
    (w : World) (raw : string) (id user : ObjectId) (e : Enrollment)
    (Hid : castObjectId raw = Some id)
    (Hstored : enrollments w !! id = Some e)
    (Hother : student e ≠ user) :
  (∀ b, let r := putProgress (mkRequest user raw b) w in
        r.2 = w ∧ success r.1 = false
        ∧ (ProgressBody.validationResult b = [] → code r.1 = 403%nat))
  ∧ (∀ b, let r := postReview Course_addReview (mkRequest user raw b) w in
          r.2 = w ∧ success r.1 = false
          ∧ (ReviewBody.validationResult b = [] → code r.1 = 403%nat))
  ∧ (let r := postCertificate (mkRequest user raw tt) w in
     r = (fail 403 "Not authorized to access this certificate", w))
  ∧ (∀ b, let r := postRefund (mkRequest user raw b) w in
          r.2 = w ∧ success r.1 = false
          ∧ (RefundBody.validationResult b = [] → code r.1 = 403%nat)).
Proof.
  assert ((toString (student e) =? user)%string = false) as Hneq
    by (by apply String.eqb_neq).
  split_and!.
  - intros b.
    assert (putProgress (mkRequest user raw b) w
            = (if isEmpty (ProgressBody.validationResult b)
               then fail 403 "Not authorized to update this enrollment"
               else validationFailed (ProgressBody.validationResult b), w)) as ->.
    { unfold putProgress, tryCatch. cbn [body paramsId userId].
      destruct (isEmpty _); cbn [negb]; [| done].
      unfold bind at 1. rewrite findById_eq, Hid, Hstored.
      cbn [fmap option_fmap option_map]. by rewrite Hneq. }
    cbn zeta. split_and!; [done | by destruct (isEmpty _) | by intros ->].
  - intros b.
    assert (postReview Course_addReview (mkRequest user raw b) w
            = (if isEmpty (ReviewBody.validationResult b)
               then fail 403 "Not authorized to review this course"
               else validationFailed (ReviewBody.validationResult b), w)) as ->.
    { unfold postReview, tryCatch. cbn [body paramsId userId].
      destruct (isEmpty _); cbn [negb]; [| done].
      unfold bind at 1. rewrite findById_eq, Hid, Hstored.
      cbn [fmap option_fmap option_map]. by rewrite Hneq. }
    cbn zeta. split_and!; [done | by destruct (isEmpty _) | by intros ->].
  - cbn zeta. unfold postCertificate, tryCatch. cbn [body paramsId userId].
    unfold bind at 1. rewrite findById_eq, Hid, Hstored.
    cbn [fmap option_fmap option_map]. by rewrite Hneq.
  - intros b.
    assert (postRefund (mkRequest user raw b) w
            = (if isEmpty (RefundBody.validationResult b)
               then fail 403 "Not authorized to request refund for this enrollment"
               else validationFailed (RefundBody.validationResult b), w)) as ->.
    { unfold postRefund, tryCatch. cbn [body paramsId userId].
      destruct (isEmpty _); cbn [negb]; [| done].
      unfold bind at 1. rewrite findById_eq, Hid, Hstored.
      cbn [fmap option_fmap option_map]. by rewrite Hneq. }
    cbn zeta. split_and!; [done | by destruct (isEmpty _) | by intros ->].
Qed.

Lemma only_the_owner_writes_witness :
  postCertificate (mkRequest otherStudent "65A1B2C3D4E5F6A7B8C9D0E9" tt)
    (storedWorld finishedEnrollment)
  = (fail 403 "Not authorized to access this certificate", storedWorld finishedEnrollment).
Proof.
  apply (only_the_owner_writes acceptReview (storedWorld finishedEnrollment)
           "65A1B2C3D4E5F6A7B8C9D0E9" sampleId otherStudent finishedEnrollment
           eq_refl eq_refl).
  discriminate.
Defined.

(** X11. A well-formed request to the progress, review, certificate,
    refund or refund-status route changes nothing when it names no stored
    enrollment: it is answered 404 "Enrollment not found" when its id casts
    to an ObjectId under which nothing is stored, and 500 when its id does
    not cast. *)
Theorem missing_enrollment_is_404
    (Course_addReview : ObjectId → string → Z → option string
                        → M (gmap string Course.t) unit)
    (w : World) (raw : string) (user : ObjectId) :
  let refusal (r : Response * World) :=
    r.2 = w ∧ code r.1 = 500%nat ∧ success r.1 = false in
  (∀ id, castObjectId raw = Some id → enrollments w !! id = None →
     (∀ b, ProgressBody.validationResult b = [] →
           putProgress (mkRequest user raw b) w = (fail 404 "Enrollment not found", w))
     ∧ (∀ b, ReviewBody.validationResult b = [] →
             postReview Course_addReview (mkRequest user raw b) w
             = (fail 404 "Enrollment not found", w))
     ∧ postCertificate (mkRequest user raw tt) w = (fail 404 "Enrollment not found", w)
     ∧ (∀ b, RefundBody.validationResult b = [] →
             postRefund (mkRequest user raw b) w = (fail 404 "Enrollment not found", w))
     ∧ (∀ b, RefundStatusBody.validationResult b = [] →
             putRefundStatus (mkRequest user raw b) w
             = (fail 404 "Enrollment not found", w)))
  ∧ (castObjectId raw = None →
     (∀ b, ProgressBody.validationResult b = [] →
           refusal (putProgress (mkRequest user raw b) w))
     ∧ (∀ b, ReviewBody.validationResult b = [] →
             refusal (postReview Course_addReview (mkRequest user raw b) w))
     ∧ refusal (postCertificate (mkRequest user raw tt) w)
     ∧ (∀ b, RefundBody.validationResult b = [] →
             refusal (postRefund (mkRequest user raw b) w))
     ∧ (∀ b, RefundStatusBody.validationResult b = [] →
             refusal (putRefundStatus (mkRequest user raw b) w))).
Proof.
  cbn zeta. split.
  - intros id Hid Hmissing. split_and!.
    + intros b Hb. unfold putProgress, tryCatch. cbn [body paramsId userId].
      rewrite Hb. cbn [isEmpty negb].
      unfold bind at 1. by rewrite findById_eq, Hid, Hmissing.
    + intros b Hb. unfold postReview, tryCatch. cbn [body paramsId userId].
      rewrite Hb. cbn [isEmpty negb].
      unfold bind at 1. by rewrite findById_eq, Hid, Hmissing.
    + unfold postCertificate, tryCatch. cbn [body paramsId userId].
      unfold bind at 1. by rewrite findById_eq, Hid, Hmissing.
    + intros b Hb. unfold postRefund, tryCatch. cbn [body paramsId userId].
      rewrite Hb. cbn [isEmpty negb].
      unfold bind at 1. by rewrite findById_eq, Hid, Hmissing.
    + intros b Hb. unfold putRefundStatus, tryCatch. cbn [body paramsId userId].
      rewrite Hb. cbn [isEmpty negb].
      unfold bind at 1. by rewrite findById_eq, Hid, Hmissing.
  - intros Hid. refine (conj _ (conj _ (conj _ (conj _ _)))).
    + intros b Hb.
      assert (putProgress (mkRequest user raw b) w
              = (fail 500 "Server error while updating progress", w)) as ->; [| done].
      unfold putProgress, tryCatch. cbn [body paramsId userId].
      rewrite Hb. cbn [isEmpty negb].
      unfold bind at 1. by rewrite findById_eq, Hid.
    + intros b Hb.
      assert (postReview Course_addReview (mkRequest user raw b) w
              = (fail 500 "Server error while adding review", w)) as ->; [| done].
      unfold postReview, tryCatch. cbn [body paramsId userId].
      rewrite Hb. cbn [isEmpty negb].
      unfold bind at 1. by rewrite findById_eq, Hid.
    + assert (postCertificate (mkRequest user raw tt) w
              = (fail 500 (orElse (castError raw "_id")
                             "Server error while issuing certificate"), w)) as ->;
        [| done].
      unfold postCertificate, tryCatch. cbn [body paramsId userId].
      unfold bind at 1. by rewrite findById_eq, Hid.
    + intros b Hb.
      assert (postRefund (mkRequest user raw b) w
              = (fail 500 (orElse (castError raw "_id")
                             "Server error while requesting refund"), w)) as ->;
        [| done].
      unfold postRefund, tryCatch. cbn [body paramsId userId].
      rewrite Hb. cbn [isEmpty negb].
      unfold bind at 1. by rewrite findById_eq, Hid.
    + intros b Hb.
      assert (putRefundStatus (mkRequest user raw b) w
              = (fail 500 "Server error while updating refund status", w)) as ->;
        [| done].
      unfold putRefundStatus, tryCatch. cbn [body paramsId userId].
      rewrite Hb. cbn [isEmpty negb].
      unfold bind at 1. by rewrite findById_eq, Hid.
Qed.

Lemma missing_enrollment_is_404_witness :
  putRefundStatus approveRequest sampleWorld = (fail 404 "Enrollment not found", sampleWorld)
  ∧ code (postCertificate (mkRequest sampleStudent "not-an-id" tt)
             (storedWorld sampleEnrollment)).1 = 500%nat.
Proof.
  destruct (missing_enrollment_is_404 acceptReview sampleWorld sampleId sampleAdmin)
    as [Hmissing _].
  destruct (missing_enrollment_is_404 acceptReview (storedWorld sampleEnrollment)
              "not-an-id" sampleStudent) as [_ Hmalformed].
  split.
  - destruct (Hmissing sampleId eq_refl eq_refl) as (_ & _ & _ & _ & Hstatus).
    by apply Hstatus.
  - destruct (Hmalformed eq_refl) as (_ & _ & (_ & Hcode & _) & _).
    exact Hcode.
Defined.

(** X12. Whenever a route answers with success, the enrollment in the
    answer is the one now stored: under the id of the request, or under
    the newly generated id for an enrollment just created. *)
Theorem answer_is_stored
    (courseSaveFails : ObjectId → Course.t → gmap string Course.t → option string)
    (populateFails : ObjectId → Enrollment → World → option string)
    (Course_addReview : ObjectId → string → Z → option string
                        → M (gmap string Course.t) unit)
    (c : Call) (w : World)
    (Hok : success (handle courseSaveFails populateFails Course_addReview c w).1 = true) :
  ∃ e, data (handle courseSaveFails populateFails Course_addReview c w).1 = Some e
       ∧ enrollments (handle courseSaveFails populateFails Course_addReview c w).2 !! target c w = Some e.
Proof. by apply handle_answer. Qed.

Lemma answer_is_stored_witness :
  ∃ e, data (handle courseSaved populated acceptReview (PostEnrollments enrollRequest) sampleWorld).1 = Some e
       ∧ enrollments (handle courseSaved populated acceptReview (PostEnrollments enrollRequest) sampleWorld).2
           !! sampleOid 0 = Some e.
Proof.
  apply (answer_is_stored courseSaved populated acceptReview (PostEnrollments enrollRequest) sampleWorld).
  reflexivity.
Defined.

(** X13. A student cannot enroll twice. After a successful enrollment, a
    further well-formed enroll request by the same student for the same
    course, whatever its payment details, is answered 400 "already
    enrolled" and changes nothing: no second record and no second count. *)
Theorem second_enrollment_refused
    (courseSaveFails : ObjectId → Course.t → gmap string Course.t → option string)
    (populateFails : ObjectId → Enrollment → World → option string)
    (req : Request EnrollBody.t) (w : World)
    (Hvalid : EnrollBody.validationResult (body req) = [])
    (Hok : success (postEnrollments courseSaveFails populateFails req w).1 = true) :
  ∀ paymentMethod transactionId,
    let again := mkRequest (userId req) ""
                   (EnrollBody.mk (EnrollBody.courseId (body req)) paymentMethod
                      transactionId) in
    EnrollBody.validationResult (body again) = [] →
    postEnrollments courseSaveFails populateFails again
      (postEnrollments courseSaveFails populateFails req w).2
    = (fail 400 "You are already enrolled in this course",
       (postEnrollments courseSaveFails populateFails req w).2).
Proof.
  intros paymentMethod transactionId again Hagain.
  destruct (postEnrollments_success courseSaveFails populateFails req w Hok)
    as (courseRef & c & _ & Hcast & Hc & Hpub & Hpair & Hfresh & Hsaved).
  destruct (postEnrollments_created courseSaveFails populateFails req w courseRef c
              Hvalid Hcast Hc Hpub Hpair Hfresh) as (method & e & _ & He & Heq).
  rewrite Heq in Hok |- *. cbn zeta in *. rewrite Hsaved in *.
  destruct (populateFails _ _ _); [done |]. cbn [snd].
  apply (postEnrollments_conflict _ _ again _ courseRef
           (Course.set_enrollmentCount (Course.enrollmentCount c + 1) c)).
  - done.
  - done.
  - cbn. apply lookup_insert_eq.
  - done.
  - apply pairTaken_true. exists (oidgen w (oids w)), e. cbn.
    split; [apply lookup_insert_eq | by subst e].
Qed.

Lemma second_enrollment_refused_witness :
  postEnrollments courseSaved populated
    (mkRequest sampleStudent "" (EnrollBody.mk sampleCourseId "paypal" "txn-2"))
    (postEnrollments courseSaved populated enrollRequest sampleWorld).2
  = (fail 400 "You are already enrolled in this course",
     (postEnrollments courseSaved populated enrollRequest sampleWorld).2).
Proof.
  apply (second_enrollment_refused courseSaved populated enrollRequest sampleWorld
           eq_refl eq_refl "paypal" "txn-2").
  reflexivity.
Defined.

(** X14. The store never holds two enrollments for the same student and
    course: if no two stored enrollments share a (student, course) pair,
    then none do after any sequence of requests. *)
Theorem pairs_stay_unique
    (courseSaveFails : ObjectId → Course.t → gmap string Course.t → option string)
    (populateFails : ObjectId → Enrollment → World → option string)
    (Course_addReview : ObjectId → string → Z → option string
                        → M (gmap string Course.t) unit)
    (cs : list Call) (w : World)
    (Hunique : uniquePairs (enrollments w)) :
  uniquePairs (enrollments (run courseSaveFails populateFails Course_addReview cs w)).
Proof. by apply run_written. Qed.

Lemma pairs_stay_unique_witness :
  uniquePairs
    (enrollments (run courseSaved populated acceptReview (PostEnrollments enrollRequest :: sampleSession)
                    sampleWorld)).
Proof.
  apply (pairs_stay_unique courseSaved populated acceptReview _ sampleWorld).
  intros i j a b Hi. cbn in Hi. by rewrite lookup_empty in Hi.
Defined.

(** X15. The refund-status route does not look at, and does not touch,
    the refund request: refundRequested and refundReason of the stored
    record are the same after the update as before, so a status can be set
    on an enrollment whose student never asked for a refund. *)
Theorem putRefundStatus_ignores_request (req : Request RefundStatusBody.t) (w : World)
    (id : ObjectId) (e : Enrollment)
    (Hvalid : RefundStatusBody.validationResult (body req) = [])
    (Hid : castObjectId (paramsId req) = Some id)
    (Hfound : enrollments w !! id = Some e) :
  ∃ e', (putRefundStatus req w).1 = ok 200 "Refund status updated successfully" e'
        ∧ enrollments (putRefundStatus req w).2 !! id = Some e'
        ∧ refundRequested e' = refundRequested e
        ∧ refundReason e' = refundReason e.
Proof.
  destruct (RefundStatusBody_valid _ Hvalid) as (new & Hnew & _).
  rewrite (putRefundStatus_eq req w id e new) by done.
  set (g := afterRefundStatus new (RefundStatusBody.refundAmount (body req))
              (mkFrame id e false w)).
  destruct (save_fields g) as (_ & _ & _ & _ & Hrr & Hre & _).
  exists (this (save g).2). cbn [fst snd]. split_and!.
  - done.
  - rewrite (save_store (mkFrame id e false w) g) by done.
    apply lookup_insert_eq.
  - rewrite Hrr. cbn. by destruct (truthyNumber _).
  - rewrite Hre. cbn. by destruct (truthyNumber _).
Qed.

Lemma putRefundStatus_ignores_request_witness :
  ∃ e', (putRefundStatus approveRequest (storedWorld sampleEnrollment)).1
        = ok 200 "Refund status updated successfully" e'
        ∧ refundRequested e' = false.
Proof.
  destruct (putRefundStatus_ignores_request approveRequest (storedWorld sampleEnrollment)
              sampleId sampleEnrollment eq_refl eq_refl eq_refl)
    as (e' & Hr & _ & Hrr & _).
  exists e'. split; [exact Hr | exact Hrr].
Defined.

(** X16. [getStats] reads and never writes. An empty collection yields no
    group; any other yields exactly one, whose totalEnrollments is the
    number of stored enrollments and whose active and completed counts are
    the numbers of enrollments with those statuses, so that the two
    together never exceed the total. *)
Theorem getStats_counts (sumAmounts : list Qc → Qc) (w : World) :
  (getStats sumAmounts w).2 = w
  ∧ (enrollments w = ∅ → (getStats sumAmounts w).1 = Returned [])
  ∧ (enrollments w ≠ ∅ → (getStats sumAmounts w).1 = Returned [statsOf sumAmounts w])
  ∧ Stats.totalEnrollments (statsOf sumAmounts w) = Z.of_nat (size (enrollments w))
  ∧ Stats.activeEnrollments (statsOf sumAmounts w) = countStatus active w
  ∧ Stats.completedEnrollments (statsOf sumAmounts w) = countStatus completed w
  ∧ 0 ≤ Stats.activeEnrollments (statsOf sumAmounts w)
  ∧ 0 ≤ Stats.completedEnrollments (statsOf sumAmounts w)
  ∧ Stats.activeEnrollments (statsOf sumAmounts w)
    + Stats.completedEnrollments (statsOf sumAmounts w)
    ≤ Stats.totalEnrollments (statsOf sumAmounts w).
Proof.
  destruct (statsOf_counts sumAmounts w) as (Ht & Ha & Hc).
  split_and!.
  - done.
  - intros Hempty. unfold getStats. cbn [fst]. by rewrite Hempty, map_to_list_empty.
  - intros Hne. unfold statsOf, getStats. cbn [fst].
    destruct (map_to_list (enrollments w)) as [|kv l] eqn:Hl; [| done].
    by apply map_to_list_empty_iff in Hl.
  - done.
  - done.
  - done.
  - rewrite Ha. unfold countStatus. lia.
  - rewrite Hc. unfold countStatus. lia.
  - rewrite Ht, Ha, Hc. unfold countStatus.
    rewrite <- length_map_to_list.
    pose proof (count_two_statuses (map_to_list (enrollments w))). lia.
Qed.

Lemma getStats_counts_witness :
  (getStats exactSum sampleWorld).1 = Returned []
  ∧ (getStats exactSum (storedWorld sampleEnrollment)).1
    = Returned [Stats.mk 1 1 0 (Q2Qc (4999 # 100))].
Proof.
  split.
  - by apply (getStats_counts exactSum sampleWorld).
  - destruct (getStats_counts exactSum (storedWorld sampleEnrollment))
      as (_ & _ & Hone & _).
    rewrite Hone; [reflexivity |]. cbn. intros Hempty.
    by apply (insert_non_empty (M := gmap string)) in Hempty.
Defined.

(** X17. A successful enrollment shows in the counts of the statistics as
    exactly one more enrollment, one more active enrollment and no more
    completed ones, whatever the store's accumulator makes of the
    amounts. *)
Theorem getStats_after_enrollment (sumAmounts : list Qc → Qc)
    (courseSaveFails : ObjectId → Course.t → gmap string Course.t → option string)
    (populateFails : ObjectId → Enrollment → World → option string)
    (req : Request EnrollBody.t) (w : World)
    (Hok : success (postEnrollments courseSaveFails populateFails req w).1 = true) :
  let before := statsOf sumAmounts w in
  let after := statsOf sumAmounts (postEnrollments courseSaveFails populateFails req w).2 in
  Stats.totalEnrollments after = Stats.totalEnrollments before + 1
  ∧ Stats.activeEnrollments after = Stats.activeEnrollments before + 1
  ∧ Stats.completedEnrollments after = Stats.completedEnrollments before.
Proof.
  cbn zeta.
  destruct (postEnrollments_success courseSaveFails populateFails req w Hok)
    as (courseRef & c & Hvalid & Hcast & Hc & Hpub & Hpair & Hfresh & Hsaved).
  destruct (postEnrollments_created courseSaveFails populateFails req w courseRef c
              Hvalid Hcast Hc Hpub Hpair Hfresh) as (method & e & _ & He & Heq).
  rewrite Heq in Hok |- *. cbn zeta in *. rewrite Hsaved in *.
  destruct (populateFails _ _ _); [done |]. cbn [snd].
  destruct (statsOf_counts sumAmounts w) as (-> & -> & ->).
  match goal with |- context [statsOf sumAmounts ?w2] =>
    destruct (statsOf_counts sumAmounts w2) as (-> & -> & ->) end.
  pose proof (countStatus_insert active w (oidgen w (oids w)) e Hfresh) as Ha.
  pose proof (countStatus_insert completed w (oidgen w (oids w)) e Hfresh) as Hd.
  unfold countStatus in *. cbn [enrollments set_enrollments set_courses] in *.
  split_and!.
  - rewrite map_size_insert_None by done. lia.
  - rewrite Ha. subst e. cbn. by rewrite bool_decide_true.
  - rewrite Hd. subst e. cbn. rewrite bool_decide_false by done. lia.
Qed.

Lemma getStats_after_enrollment_witness :
  Stats.totalEnrollments
    (statsOf exactSum (postEnrollments courseSaved populated enrollRequest sampleWorld).2)
  = 1.
Proof.
  destruct (getStats_after_enrollment exactSum courseSaved populated enrollRequest
              sampleWorld eq_refl) as (Ht & _).
  by rewrite Ht.
Defined.

(** X18. [findByCourse] lists exactly the stored enrollments of the
    course, without writing; and since no request removes an enrollment or
    moves it to another course, an enrollment listed for a course is still
    listed for it, under the same id, after every sequence of requests. *)
Theorem findByCourse_keeps
    (courseSaveFails : ObjectId → Course.t → gmap string Course.t → option string)
    (populateFails : ObjectId → Enrollment → World → option string)
    (Course_addReview : ObjectId → string → Z → option string
                        → M (gmap string Course.t) unit)
    (courseId : ObjectId) (w : World) :
  (findByCourse courseId w).2 = w
  ∧ (∀ id e, (id, e) ∈ listedBy (findByCourse courseId) w
             ↔ enrollments w !! id = Some e ∧ course e = courseId)
  ∧ (∀ id e cs,
       (id, e) ∈ listedBy (findByCourse courseId) w →
       ∃ e', (id, e') ∈ listedBy (findByCourse courseId) (run courseSaveFails populateFails Course_addReview cs w)).
Proof.
  split_and!.
  - done.
  - intros id e. apply elem_of_find.
  - intros id e cs [Hl Hc]%elem_of_find.
    destruct (run_preserves courseSaveFails populateFails Course_addReview (sameIdentity e)
                ltac:(intros op f _ Hs; apply (sameIdentity_trans _ (this f));
                      [done | apply perform_identity])
                cs w id e Hl ltac:(by split_and!)) as (e' & Hl' & _ & Hc' & _).
    exists e'. apply elem_of_find. split; [done | congruence].
Qed.

Lemma findByCourse_keeps_witness :
  ∃ e', (sampleId, e')
        ∈ listedBy (findByCourse sampleCourseId)
            (run courseSaved populated acceptReview sampleSession (storedWorld sampleEnrollment)).
Proof.
  destruct (findByCourse_keeps courseSaved populated acceptReview sampleCourseId (storedWorld sampleEnrollment))
    as (_ & Hiff & Hkeep).
  apply (Hkeep sampleId sampleEnrollment). apply Hiff. by split.
Defined.

(** X19. [findActiveByStudent] lists exactly the student's stored
    enrollments with status active. For a maintained record this means,
    after any sequence of requests, that the enrollment is on its
    student's active list exactly while its progress is below 100. *)
Theorem findActiveByStudent_open
    (courseSaveFails : ObjectId → Course.t → gmap string Course.t → option string)
    (populateFails : ObjectId → Enrollment → World → option string)
    (Course_addReview : ObjectId → string → Z → option string
                        → M (gmap string Course.t) unit)
    (studentId : ObjectId) (w : World) :
  (findActiveByStudent studentId w).2 = w
  ∧ (∀ id e, (id, e) ∈ listedBy (findActiveByStudent studentId) w
             ↔ enrollments w !! id = Some e ∧ student e = studentId ∧ status e = active)
  ∧ (∀ id e cs,
       enrollments w !! id = Some e → student e = studentId → lifecycle e →
       ∃ e', enrollments (run courseSaveFails populateFails Course_addReview cs w) !! id = Some e'
             ∧ ((id, e') ∈ listedBy (findActiveByStudent studentId)
                             (run courseSaveFails populateFails Course_addReview cs w)
                ↔ progress e' ≠ 100)).
Proof.
  split_and!.
  - done.
  - intros id e. apply elem_of_find.
  - intros id e cs Hl Hs Hlife.
    destruct (run_preserves courseSaveFails populateFails Course_addReview (λ d, lifecycle d ∧ student d = studentId)
                ltac:(intros op f Hg [Hlf Hst]; split;
                      [by apply lifecycle_perform
                      | destruct (perform_identity op f) as (-> & _); done])
                cs w id e Hl ltac:(done)) as (e' & Hl' & Hlife' & Hs').
    exists e'. split; [done |].
    unfold findActiveByStudent. rewrite elem_of_find.
    rewrite <- (lifecycle_active _ Hlife'). tauto.
Qed.

Lemma findActiveByStudent_open_witness :
  (sampleId, sampleEnrollment)
  ∈ listedBy (findActiveByStudent sampleStudent) (storedWorld sampleEnrollment)
  ∧ ∃ e', enrollments (run courseSaved populated acceptReview sampleSession (storedWorld sampleEnrollment))
            !! sampleId = Some e'
          ∧ ((sampleId, e') ∈ listedBy (findActiveByStudent sampleStudent)
                                (run courseSaved populated acceptReview sampleSession
                                   (storedWorld sampleEnrollment))
             ↔ progress e' ≠ 100).
Proof.
  destruct (findActiveByStudent_open courseSaved populated acceptReview sampleStudent (storedWorld sampleEnrollment))
    as (_ & Hiff & Hrun).
  split.
  - apply Hiff. by split_and!.
  - apply (Hrun sampleId sampleEnrollment); [reflexivity | reflexivity |].
    split_and!; cbn; [done | done | done].
Defined.

(** X20. [GET /:id] shows an enrollment to its student only. It never
    writes; it answers 500 for an id that does not cast to an ObjectId,
    404 for one under which nothing is stored, 500 when the enrolled
    student's user record is gone, 403 for any other caller and 200 with
    the stored record for the student; so an answer that carries an
    enrollment carries the stored one and goes to its student. *)
Theorem getEnrollment_owner_only (users : gset string) (req : Request unit) (w : World) :
  let r := getEnrollment users req w in
  r.2 = w
  ∧ (castObjectId (paramsId req) = None →
     r.1 = fail 500 "Server error while fetching enrollment")
  ∧ (∀ id, castObjectId (paramsId req) = Some id →
       (enrollments w !! id = None → r.1 = fail 404 "Enrollment not found")
       ∧ (∀ e, enrollments w !! id = Some e →
               (student e ∉ users → r.1 = fail 500 "Server error while fetching enrollment")
               ∧ (student e ∈ users → student e ≠ userId req →
                  r.1 = fail 403 "Not authorized to view this enrollment")
               ∧ (student e ∈ users → student e = userId req → r.1 = ok 200 "" e)))
  ∧ (∀ e, data r.1 = Some e →
          ∃ id, castObjectId (paramsId req) = Some id
                ∧ enrollments w !! id = Some e ∧ student e = userId req).
Proof.
  cbn zeta.
  assert (getEnrollment users req w
          = (match castObjectId (paramsId req) with
             | None => fail 500 "Server error while fetching enrollment"
             | Some id =>
               match enrollments w !! id with
               | None => fail 404 "Enrollment not found"
               | Some e =>
                 if bool_decide (student e ∈ users) then
                   if bool_decide (student e = userId req) then ok 200 "" e
                   else fail 403 "Not authorized to view this enrollment"
                 else fail 500 "Server error while fetching enrollment"
               end
             end, w)) as ->.
  { unfold getEnrollment, tryCatch. unfold bind at 1. rewrite findById_eq.
    destruct (castObjectId (paramsId req)) as [id|]; [| done].
    destruct (enrollments w !! id) as [e|]; cbn [fmap option_fmap option_map]; [| done].
    destruct (bool_decide (student e ∈ users)); cbn [negb]; [| done].
    unfold toString. case_bool_decide as Hs.
    - by rewrite Hs, String.eqb_refl.
    - apply String.eqb_neq in Hs. by rewrite Hs. }
  cbn [fst snd]. split_and!.
  - done.
  - by intros ->.
  - intros id ->. split.
    + by intros ->.
    + intros e ->. split_and!.
      * intros Hgone. by rewrite bool_decide_false.
      * intros Hin Hother. by rewrite bool_decide_true, bool_decide_false.
      * intros Hin Howner. by rewrite !bool_decide_true.
  - intros e. destruct (castObjectId (paramsId req)) as [id|]; [| done].
    destruct (enrollments w !! id) as [e0|] eqn:Hl; [| done].
    repeat case_bool_decide; cbn; try done. intros [= ->]. by exists id.
Qed.

Lemma getEnrollment_owner_only_witness :
  (getEnrollment sampleUsers (mkRequest otherStudent sampleId tt)
     (storedWorld sampleEnrollment)).1
  = fail 403 "Not authorized to view this enrollment"
  ∧ (getEnrollment sampleUsers (mkRequest sampleStudent "65A1B2C3D4E5F6A7B8C9D0E9" tt)
       (storedWorld sampleEnrollment)).1
    = ok 200 "" sampleEnrollment
  ∧ (getEnrollment sampleUsers (mkRequest sampleStudent "not-an-id" tt)
       (storedWorld sampleEnrollment)).1
    = fail 500 "Server error while fetching enrollment".
Proof.
  destruct (getEnrollment_owner_only sampleUsers (mkRequest otherStudent sampleId tt)
              (storedWorld sampleEnrollment)) as (_ & _ & Hother & _).
  destruct (getEnrollment_owner_only sampleUsers
              (mkRequest sampleStudent "65A1B2C3D4E5F6A7B8C9D0E9" tt)
              (storedWorld sampleEnrollment)) as (_ & _ & Howner & _).
  destruct (getEnrollment_owner_only sampleUsers (mkRequest sampleStudent "not-an-id" tt)
              (storedWorld sampleEnrollment)) as (_ & Hmalformed & _).
  destruct (Hother sampleId eq_refl) as (_ & Hother').
  destruct (Howner sampleId eq_refl) as (_ & Howner').
  destruct (Hother' sampleEnrollment eq_refl) as (_ & H403 & _).
  destruct (Howner' sampleEnrollment eq_refl) as (_ & _ & H200).
  split_and!.
  - apply H403; [apply (bool_decide_unpack _); by vm_compute | discriminate].
  - apply H200; [apply (bool_decide_unpack _); by vm_compute | reflexivity].
  - by apply Hmalformed.
Defined.

(** X21. [GET /my-courses] never writes and answers 200 with exactly the
    caller's stored enrollments whose status is the one asked for ('active'
    when none is asked for, every status for 'all'), each listed once,
    newest enrollment date first. No enrollment of another student is ever
    listed. *)
Theorem getMyCourses_lists (req : Request MyCoursesQuery.t) (w : World) :
  let r := getMyCourses req w in
  let wanted := default "active" (MyCoursesQuery.status (body req)) in
  r.2 = w
  ∧ listCode r.1 = 200%nat
  ∧ (∀ id e, (id, e) ∈ listed r.1
             ↔ enrollments w !! id = Some e ∧ student e = userId req
               ∧ (wanted = "all" ∨ statusName (status e) = wanted))
  ∧ NoDup (listed r.1)
  ∧ Sorted newerFirst (listed r.1).
Proof.
  cbn zeta. unfold getMyCourses, tryCatchListing, bind, Enrollment_find, ret.
  cbn [fst snd listed listCode]. split_and!.
  - done.
  - done.
  - intros id e. unfold sortNewerFirst. rewrite merge_sort_Permutation.
    rewrite list_elem_of_filter, elem_of_map_to_list. unfold myCoursesFilter. cbn. tauto.
  - unfold sortNewerFirst. rewrite merge_sort_Permutation.
    apply NoDup_filter, NoDup_map_to_list.
  - apply Sorted_merge_sort. apply _.
Qed.

Lemma getMyCourses_lists_witness :
  (sampleId, sampleEnrollment)
  ∈ listed (getMyCourses (mkRequest sampleStudent "" (MyCoursesQuery.mk None))
              (storedWorld sampleEnrollment)).1.
Proof.
  apply (getMyCourses_lists (mkRequest sampleStudent "" (MyCoursesQuery.mk None))
           (storedWorld sampleEnrollment)).
  split_and!; [reflexivity | reflexivity | by right].
Defined.

(** X22. The admin listing pages through the matching enrollments. The
    course and student ids of the query are cast to ObjectIds: when one of
    them does not cast, the route answers 500 and writes nothing. When
    both cast, for a page and a limit of at least 1 (1 and 20 when not
    given), on a store whose cursor skips and limits as asked, the route
    never writes and answers 200 with entry j of the page being entry
    (page - 1) * limit + j of the matches sorted newest first, at most
    limit entries, and none beyond the last page; totalEnrollments is the
    number of matches and totalPages the least number of pages of that
    limit that hold them. An enrollment matches when its status has the
    name asked for and its course and student are the ids the query's
    strings cast to. *)
Theorem getEnrollments_pages
    (skipLimit : Z → Z → list (ObjectId * Enrollment)
                 → Outcome (list (ObjectId * Enrollment)))
    (Hcursor : ∀ skip limit l,
       0 ≤ skip → 1 ≤ limit →
       skipLimit skip limit l = Returned (take (Z.to_nat limit) (drop (Z.to_nat skip) l)))
    (req : Request ListQuery.t) (w : World) :
  let page := default 1 (ListQuery.page (body req)) in
  let limit := default 20 (ListQuery.limit (body req)) in
  let filter := filterOf (body req) in
  let r := getEnrollments skipLimit req w in
  (castRef (byCourse filter) = None ∨ castRef (byStudent filter) = None →
   r = (listFail 500 "Server error while fetching enrollments", w))
  ∧ (∀ c s,
       castRef (byCourse filter) = Some c → castRef (byStudent filter) = Some s →
       1 ≤ page → 1 ≤ limit →
       let wanted := mkCastFilter (byStatus filter) c s in
       let matches := listedBy (Enrollment_find (listFilter wanted)) w in
       let sorted := sortNewerFirst matches in
       let total := Z.of_nat (length matches) in
       r.2 = w
       ∧ listCode r.1 = 200%nat
       ∧ pagination r.1 = Some (mkPagination page (Some (ceilDiv total limit)) total limit)
       ∧ (∀ j, (j < Z.to_nat limit)%nat →
               listed r.1 !! j = sorted !! (Z.to_nat ((page - 1) * limit) + j)%nat)
       ∧ Z.of_nat (length (listed r.1)) ≤ limit
       ∧ (ceilDiv total limit < page → listed r.1 = [])
       ∧ limit * (ceilDiv total limit - 1) < total ≤ limit * ceilDiv total limit
       ∧ sorted ≡ₚ matches
       ∧ Sorted newerFirst sorted
       ∧ (∀ id e, (id, e) ∈ matches
                  ↔ enrollments w !! id = Some e ∧ listFilter wanted e)).
Proof.
  cbn zeta.
  set (page := default 1 (ListQuery.page (body req))).
  set (limit := default 20 (ListQuery.limit (body req))).
  split.
  - intros Hcast.
    unfold getEnrollments, tryCatchListing. unfold bind at 1.
    unfold Enrollment_findWhere at 1. unfold bind at 1. unfold castFilter at 1.
    destruct (castRef (byCourse (filterOf (body req)))) as [c|]; [| done].
    destruct (castRef (byStudent (filterOf (body req)))) as [s|]; [| done].
    by destruct Hcast.
  - intros c s Hc Hs Hpage Hlimit.
    set (wanted := mkCastFilter (byStatus (filterOf (body req))) c s).
    set (matches := listedBy (Enrollment_find (listFilter wanted)) w).
    assert (getEnrollments skipLimit req w
            = (mkListing 200 true ""
                 (take (Z.to_nat limit)
                    (drop (Z.to_nat ((page - 1) * limit)) (sortNewerFirst matches)))
                 (Some (mkPagination page (pagesOf (Z.of_nat (length matches)) limit)
                          (Z.of_nat (length matches)) limit)), w)) as ->.
    { unfold getEnrollments, tryCatchListing, Enrollment_findWhere, Enrollment_countWhere,
        castFilter. rewrite Hc, Hs.
      unfold bind, Enrollment_find, Enrollment_countDocuments, ret.
      fold page limit. cbn [fst snd].
      rewrite Hcursor by nia. reflexivity. }
    pose proof (ceilDiv_bounds (Z.of_nat (length matches)) limit ltac:(lia)) as Hceil.
    assert (length (sortNewerFirst matches) = length matches) as Hlen
      by (unfold sortNewerFirst; by rewrite merge_sort_Permutation).
    cbn [fst snd listed listCode pagination]. split_and!.
    + done.
    + done.
    + unfold pagesOf. by rewrite (proj2 (Z.eqb_neq limit 0)) by lia.
    + intros j Hj. rewrite lookup_take_lt by done. apply lookup_drop.
    + rewrite length_take. lia.
    + intros Hlast. rewrite drop_ge; [apply take_nil |]. rewrite Hlen. nia.
    + lia.
    + lia.
    + unfold sortNewerFirst. apply merge_sort_Permutation.
    + apply Sorted_merge_sort. apply _.
    + intros id e. apply elem_of_find.
Qed.

Lemma getEnrollments_pages_witness :
  pagination (getEnrollments sampleCursor
                (mkRequest sampleAdmin ""
                   (ListQuery.mk (Some 1) (Some 10) None
                      (Some "65A1B2C3D4E5F6A7B8C9D0C1") None))
                (storedWorld sampleEnrollment)).1
  = Some (mkPagination 1 (Some 1) 1 10)
  ∧ getEnrollments sampleCursor
      (mkRequest sampleAdmin "" (ListQuery.mk None None None (Some "c1") None))
      (storedWorld sampleEnrollment)
    = (listFail 500 "Server error while fetching enrollments",
       storedWorld sampleEnrollment).
Proof.
  assert (∀ skip limit l,
            0 ≤ skip → 1 ≤ limit →
            sampleCursor skip limit l
            = Returned (take (Z.to_nat limit) (drop (Z.to_nat skip) l))) as Hcursor.
  { intros skip limit l Hskip _. unfold sampleCursor.
    by rewrite (proj2 (Z.ltb_ge skip 0)) by lia. }
  split.
  - destruct (getEnrollments_pages sampleCursor Hcursor
                (mkRequest sampleAdmin ""
                   (ListQuery.mk (Some 1) (Some 10) None
                      (Some "65A1B2C3D4E5F6A7B8C9D0C1") None))
                (storedWorld sampleEnrollment)) as [_ Hpages].
    destruct (Hpages (Some sampleCourseId) None eq_refl eq_refl) as (_ & _ & Hp & _).
    + cbn. lia.
    + cbn. lia.
    + rewrite Hp. by vm_compute.
  - apply (getEnrollments_pages sampleCursor Hcursor
             (mkRequest sampleAdmin "" (ListQuery.mk None None None (Some "c1") None))
             (storedWorld sampleEnrollment)).
    by left.
Defined.

(** X23. Through the progress route, on a maintained stored enrollment
    that holds no lectures yet, named by its id in any spelling, the
    student's well-formed requests with lecture ids in printed form (24
    hexadecimal digits, lower case) leave the record with each lecture id
    sent stored once and progress min(100, 10 * number of distinct ids
    sent); the status is completed exactly when at least ten distinct ids
    were sent, and from then on the student's certificate request on a
    record without certificate is answered 200 with the certificate
    issued. *)
Theorem progress_requests_complete
    (courseSaveFails : ObjectId → Course.t → gmap string Course.t → option string)
    (populateFails : ObjectId → Enrollment → World → option string)
    (Course_addReview : ObjectId → string → Z → option string
                        → M (gmap string Course.t) unit)
    (user raw : string) (id : ObjectId) (bodies : list ProgressBody.t) (w : World)
    (e : Enrollment)
    (Hvalid : Forall (λ b, ProgressBody.validationResult b = []) bodies)
    (Hprinted : Forall (λ b, canonical (ProgressBody.lectureId b)) bodies)
    (Hid : castObjectId raw = Some id)
    (Hstored : enrollments w !! id = Some e)
    (Howner : student e = user)
    (Hnone : completedLectures e = [])
    (Hlife : lifecycle e) :
  let w' := run courseSaveFails populateFails Course_addReview
              (progressRequests user raw bodies) w in
  let distinct := Z.of_nat (length (remove_dups (map ProgressBody.lectureId bodies))) in
  ∃ e', enrollments w' !! id = Some e'
        ∧ NoDup (lectureIds e')
        ∧ (∀ x, x ∈ lectureIds e' ↔ x ∈ map ProgressBody.lectureId bodies)
        ∧ progress e' = Z.min 100 (distinct * 10)
        ∧ (status e' = completed ↔ 10 ≤ distinct)
        ∧ (10 ≤ distinct → Certificate.issued (certificate e) = false →
           ∃ e'', (postCertificate (mkRequest user raw tt) w').1
                  = ok 200 "Certificate issued successfully" e''
                  ∧ Certificate.issued (certificate e'') = true).
Proof.
  cbn zeta.
  rewrite (run_progressRequests courseSaveFails populateFails Course_addReview
             user raw id bodies w e) by done.
  assert (Forall (λ c : string * option Z, canonical c.1) (progressCalls bodies)) as Hcalls.
  { unfold progressCalls. apply Forall_fmap. by eapply Forall_impl. }
  set (g := completeAll (progressCalls bodies) (mkFrame id e false w)).
  destruct (completeAll_frame (progressCalls bodies) (mkFrame id e false w)
              ltac:(eapply Forall_impl; [exact Hcalls | intros c; apply canonical_cast])
              eq_refl Hstored)
    as (_ & _ & Hl & Hs & Hc). fold g in Hl, Hs, Hc. cbn [_id this] in Hl, Hs, Hc.
  destruct (completeAll_counts (progressCalls bodies) (mkFrame id e false w)
              Hcalls Hnone Hlife)
    as (Hnd & Hin & Hp & Hst). fold g in Hnd, Hin, Hp, Hst.
  assert ((progressCalls bodies).*1 = map ProgressBody.lectureId bodies) as Hids.
  { unfold progressCalls. rewrite <- list_fmap_compose. done. }
  rewrite Hids in *.
  exists (this g). split_and!; try done.
  intros Hten Hnocert.
  assert (progress (this g) = 100) as H100 by lia.
  rewrite (postCertificate_eq (mkRequest user raw tt) (world g) id (this g))
    by (cbn; congruence).
  exists (this (save (afterIssue (mkFrame id (this g) false (world g)))).2).
  split; [reflexivity |].
  destruct (save_fields (afterIssue (mkFrame id (this g) false (world g))))
    as (_ & _ & -> & _). done.
Qed.

Lemma progress_requests_complete_witness :
  ∃ e', enrollments (run courseSaved populated acceptReview
                       (progressRequests sampleStudent "65A1B2C3D4E5F6A7B8C9D0E9"
                          tenLectures)
                       (storedWorld sampleEnrollment)) !! sampleId = Some e'
        ∧ progress e' = 100
        ∧ status e' = completed.
Proof.
  destruct (progress_requests_complete courseSaved populated acceptReview sampleStudent
              "65A1B2C3D4E5F6A7B8C9D0E9" sampleId tenLectures
              (storedWorld sampleEnrollment) sampleEnrollment)
    as (e' & Hl & _ & _ & Hp & Hs & _).
  - unfold tenLectures. cbn [map seq].
    repeat (apply Forall_cons; split; [reflexivity |]). apply Forall_nil_2.
  - unfold tenLectures. cbn [map seq].
    repeat (apply Forall_cons; split; [reflexivity |]). apply Forall_nil_2.
  - reflexivity.
  - reflexivity.
  - reflexivity.
  - reflexivity.
  - split_and!; cbn; [done | done | done].
  - exists e'. split; [exact Hl |]. split; [by rewrite Hp |]. by apply Hs.
Defined.

(** X24. The enrollment counter of a course follows the store. When the
    course's review method leaves the counters alone, no sequence of
    requests makes a course count more enrollments than are stored for it;
    and on a store that takes every course write, counters that equal the
    numbers of stored enrollments still equal them after any sequence of
    requests. *)
Theorem counts_follow_store
    (courseSaveFails : ObjectId → Course.t → gmap string Course.t → option string)
    (populateFails : ObjectId → Enrollment → World → option string)
    (Course_addReview : ObjectId → string → Z → option string
                        → M (gmap string Course.t) unit)
    (cs : list Call) (w : World)
    (Hcollaborator : keepsCounts Course_addReview) :
  (countsWithin w →
   countsWithin (run courseSaveFails populateFails Course_addReview cs w))
  ∧ ((∀ id d stored, courseSaveFails id d stored = None) → countsAgree w →
     countsAgree (run courseSaveFails populateFails Course_addReview cs w)).
Proof.
  split.
  - by apply run_countsWithin.
  - by apply run_countsAgree.
Qed.

Lemma counts_follow_store_witness :
  countsAgree (run courseSaved populated acceptReview
                 (PostEnrollments enrollRequest :: sampleSession) sampleWorld)
  ∧ countsWithin (run courseStoreDown populated acceptReview
                    (PostEnrollments enrollRequest :: sampleSession) sampleWorld).
Proof.
  assert (keepsCounts acceptReview) as Hkeeps.
  { intros courseRef user rating review cs courseId c' Hl. by exists c'. }
  assert (countsAgree sampleWorld) as Hagree.
  { intros courseId c Hl. cbn in Hl.
    apply lookup_singleton_Some in Hl as [_ <-]. reflexivity. }
  split.
  - apply (counts_follow_store courseSaved populated acceptReview _ sampleWorld Hkeeps).
    + done.
    + exact Hagree.
  - apply (counts_follow_store courseStoreDown populated acceptReview _ sampleWorld Hkeeps).
    intros courseId c Hl. rewrite (Hagree courseId c Hl). lia.
Defined.

(** X25. On an enrollment without a refund request, [requestRefund] sets
    refundRequested, stores the reason, sets refundStatus to pending and
    writes the record back. On an enrollment with refundRequested set it
    throws "Refund already requested" whatever the reason and changes
    nothing. No sequence of requests to the service clears refundRequested,
    so after the first success every later call throws. *)
Theorem requestRefund_once
    (courseSaveFails : ObjectId → Course.t → gmap string Course.t → option string)
    (populateFails : ObjectId → Enrollment → World → option string)
    (Course_addReview : ObjectId → string → Z → option string
                        → M (gmap string Course.t) unit)
    (f : Frame) (reason : string) (Hstored : isNew f = false) :
  (refundRequested (this f) = false →
   let r := requestRefund reason f in
   r.1 = Returned tt
   ∧ refundRequested (this r.2) = true
   ∧ refundReason (this r.2) = Some reason
   ∧ refundStatus (this r.2) = RefundStatus.pending
   ∧ enrollments (world r.2) !! _id f = Some (this r.2))
  ∧ (refundRequested (this f) = true →
     ∀ reason', requestRefund reason' f = (Thrown requestRefund_error, f))
  ∧ requestRefund_error = "Refund already requested"
  ∧ (∀ cs w id e,
       enrollments w !! id = Some e → refundRequested e = true →
       ∃ e', enrollments (run courseSaveFails populateFails Course_addReview cs w) !! id
             = Some e'
             ∧ refundRequested e' = true
             ∧ ∀ reason' w',
                 requestRefund reason' (mkFrame id e' false w')
                 = (Thrown requestRefund_error, mkFrame id e' false w')).
Proof.
  split_and!.
  - intros Hreq. cbn zeta. rewrite requestRefund_eq, Hreq.
    destruct (save_fields (afterRequest reason f)) as (_ & _ & _ & _ & -> & -> & -> & _).
    split_and!; try done.
    + by rewrite save_eq.
    + rewrite (save_store f) by done. apply lookup_insert_eq.
  - intros Hreq reason'. by rewrite requestRefund_eq, Hreq.
  - reflexivity.
  - intros cs w id e Hl Hreq.
    destruct (run_preserves courseSaveFails populateFails Course_addReview
                (λ d, refundRequested d = true)
                ltac:(intros op g Hg; apply (perform_keeps op g Hg)) cs w id e Hl Hreq)
      as (e' & Hl' & Hreq').
    exists e'. split_and!; [done | done |].
    intros reason' w'. by rewrite requestRefund_eq; cbn; rewrite Hreq'.
Qed.

Lemma requestRefund_once_witness :
  refundStatus (this (requestRefund "not satisfied with pacing" (loaded sampleEnrollment)).2)
  = RefundStatus.pending
  ∧ requestRefund "changed my mind again" (loaded approvedEnrollment)
    = (Thrown requestRefund_error, loaded approvedEnrollment).
Proof.
  split.
  - apply (requestRefund_once courseSaved populated acceptReview (loaded sampleEnrollment)
             "not satisfied with pacing" eq_refl).
    reflexivity.
  - apply (requestRefund_once courseSaved populated acceptReview (loaded approvedEnrollment)
             "" eq_refl).
    reflexivity.
Defined.

(** X26. For a lecture id in printed form (24 hexadecimal digits, lower
    case), [completeLecture] keeps the lecture ids of [completedLectures]
    free of duplicates, and a call with a lecture id that is already
    present leaves the list as it is: same entries, same stored timeSpent,
    whatever timeSpent the repeated call carries. *)
Theorem completeLecture_idempotent (f : Frame) (lectureId : string) (timeSpent : option Z)
    (Hprinted : canonical lectureId) :
  let before := completedLectures (this f) in
  let f' := (completeLecture lectureId timeSpent f).2 in
  let after := completedLectures (this f') in
  (NoDup (map CompletedLecture.lecture before)
   → NoDup (map CompletedLecture.lecture after))
  ∧ (lectureId ∈ map CompletedLecture.lecture before → after = before)
  ∧ lectureId ∈ map CompletedLecture.lecture after
  ∧ (∀ timeSpent', completedLectures (this (completeLecture lectureId timeSpent' f').2)
                   = after).
Proof.
  cbn zeta. split_and!.
  - by apply completeLecture_nodup.
  - apply completeLecture_present.
  - by apply completeLecture_member.
  - intros ts. by apply completeLecture_present, completeLecture_member.
Qed.

Lemma completeLecture_idempotent_witness :
  completedLectures
    (this (completeLecture sampleLecture (Some 99)
             (completeLecture sampleLecture (Some 30) (loaded sampleEnrollment)).2).2)
  = completedLectures
      (this (completeLecture sampleLecture (Some 30) (loaded sampleEnrollment)).2).
Proof.
  apply (completeLecture_idempotent (loaded sampleEnrollment) sampleLecture (Some 30)).
  reflexivity.
Defined.

(** X27. The enroll route is not atomic. Once its checks have passed, the
    enrollment is written first. When the write of the course then fails,
    the route answers 500, the enrollment stays stored and the course keeps
    its old count; when the populate that follows fails, the route answers
    500 with both written. Either way the same student's next well-formed
    request for the course is answered 400 "already enrolled". *)
Theorem postEnrollments_not_atomic
    (courseSaveFails : ObjectId → Course.t → gmap string Course.t → option string)
    (populateFails : ObjectId → Enrollment → World → option string)
    (req : Request EnrollBody.t) (w : World) (courseRef : ObjectId) (c : Course.t)
    (Hvalid : EnrollBody.validationResult (body req) = [])
    (Hcast : castObjectId (EnrollBody.courseId (body req)) = Some courseRef)
    (Hcourse : courses w !! courseRef = Some c)
    (Hpublished : Course.status c = "published")
    (Hfree : pairTaken (userId req) courseRef (enrollments w) = false)
    (Hfresh : enrollments w !! oidgen w (oids w) = None) :
  let r := postEnrollments courseSaveFails populateFails req w in
  let c' := Course.set_enrollmentCount (Course.enrollmentCount c + 1) c in
  ∃ e, enrollments r.2 = <[oidgen w (oids w) := e]> (enrollments w)
       ∧ student e = userId req ∧ course e = courseRef
       ∧ (is_Some (courseSaveFails courseRef c' (courses w)) →
          r.1 = fail 500 "Server error while enrolling in course"
          ∧ courses r.2 = courses w)
       ∧ (courseSaveFails courseRef c' (courses w) = None →
          courses r.2 = <[courseRef := c']> (courses w)
          ∧ (is_Some (populateFails (oidgen w (oids w)) e r.2) →
             r.1 = fail 500 "Server error while enrolling in course"))
       ∧ (success r.1 = false →
          postEnrollments courseSaveFails populateFails req r.2
          = (fail 400 "You are already enrolled in this course", r.2)).
Proof.
  cbn zeta.
  destruct (postEnrollments_created courseSaveFails populateFails req w courseRef c
              Hvalid Hcast Hcourse Hpublished Hfree Hfresh) as (method & e & _ & He & Heq).
  exists e. rewrite Heq. cbn zeta.
  assert (pairTaken (userId req) courseRef (<[oidgen w (oids w) := e]> (enrollments w))
          = true) as Htaken.
  { apply pairTaken_true. exists (oidgen w (oids w)), e.
    split; [apply lookup_insert_eq | by subst e]. }
  destruct (courseSaveFails _ _ _) as [msg|] eqn:Hsave.
  - cbn [fst snd enrollments courses]. split_and!.
    + done.
    + by subst e.
    + by subst e.
    + done.
    + done.
    + intros _. by apply (postEnrollments_conflict _ _ req _ courseRef c).
  - destruct (populateFails _ _ _) as [msg|] eqn:Hpop;
      cbn [fst snd enrollments courses set_courses]; split_and!.
    + done.
    + by subst e.
    + by subst e.
    + by intros [? [=]].
    + done.
    + intros _.
      apply (postEnrollments_conflict _ _ req _ courseRef
               (Course.set_enrollmentCount (Course.enrollmentCount c + 1) c));
        [done | done | apply lookup_insert_eq | done | done].
    + done.
    + by subst e.
    + by subst e.
    + by intros [? [=]].
    + split; [done |]. rewrite Hpop. by intros [? [=]].
    + done.
Qed.

Lemma postEnrollments_not_atomic_witness :
  (postEnrollments courseStoreDown populated enrollRequest sampleWorld).1
  = fail 500 "Server error while enrolling in course"
  ∧ size (enrollments
            (postEnrollments courseStoreDown populated enrollRequest sampleWorld).2) = 1%nat
  ∧ courses (postEnrollments courseStoreDown populated enrollRequest sampleWorld).2
    = courses sampleWorld
  ∧ postEnrollments courseStoreDown populated enrollRequest
      (postEnrollments courseStoreDown populated enrollRequest sampleWorld).2
    = (fail 400 "You are already enrolled in this course",
       (postEnrollments courseStoreDown populated enrollRequest sampleWorld).2).
Proof.
  destruct (postEnrollments_not_atomic courseStoreDown populated enrollRequest sampleWorld
              sampleCourseId sampleCourse eq_refl eq_refl eq_refl eq_refl eq_refl eq_refl)
    as (e & He & _ & _ & Hdown & _ & Hretry).
  destruct Hdown as [H500 Hcourses]; [by eexists |].
  split_and!.
  - exact H500.
  - rewrite He. by rewrite map_size_insert_None.
  - exact Hcourses.
  - apply Hretry. by rewrite H500.
Defined.
